(** * Webhook ingestion and reconciliation between Stripe and Enhance

    A shallow embedding of the TypeScript sources

    - [lib/error-handler]  ([AppError], [ErrorHandler.categorizeError],
      [ErrorHandler.withRetry], [ErrorHandler.handleWebhookError]),
    - [lib/database]       ([DatabaseService], over the four SQL tables),
    - [lib/stripe]         ([StripeService.extractCustomerData],
      [StripeService.extractSubscriptionData]),
    - [lib/subscription-manager] ([SubscriptionManager]),
    - the webhook route    ([POST] and its three handlers),

    followed by theorems about the properties that the specification states
    for them.  The sweep [syncAllSubscriptions], the admin endpoint that
    starts it, [makeRequest] and the password generator of [lib/enhance] and
    the health check come after them, with further properties of the code.
    The admin endpoint for customers and the dashboard are left out.

    Conventions of the embedding.

    - A JavaScript [string] is a [string] of 8-bit characters;
      [toLowerCase] folds the ASCII letters.
    - An [async] function is a computation in the monad [M]: it reads and
      updates a [World] and either returns or throws.  Whatever it did to
      the world before throwing stays done, as in JavaScript.
    - Every request to the database or to a remote service is appended to
      the world's [trace] and may fail: [faults] says which request (by its
      position in the trace) throws which error.  A request that fails has
      no effect besides being recorded.
    - A row of a table is a record of the columns that the code reads or
      writes by value.  The timestamps ([created_at], [updated_at],
      [canceled_at]) and the Paddle columns are not kept, and a statement
      that the schema rejects leaves the sequence behind a [SERIAL] column
      where it was.
    - A method of [EnhanceService] is one request: the attempts and the
      pauses of its [makeRequest] loop are inside the request.  The loop
      itself is embedded on its own, as [EnhanceHttp.makeRequest].
    - A property that may be missing is an [option]: [None] is [undefined]
      for a property of an event and NULL for a column.  What Stripe answers
      for a customer is read the same way, although a property of that
      answer may be [null] or missing: the two are not told apart.
    - A thrown value is an [Error] with a message or an [AppError].  The
      names of the other error classes that libraries throw are not kept,
      so that every error that is not an [AppError] prints as
      [Error: message].
    - [logger] and [console] calls only print; they are left out.
    - A JavaScript [number] that counts (attempts, SERIAL ids) is a [Z];
      the back-off delay, which adds [Math.random() * 1000], is a [Q]. *)

From Stdlib Require Import String Ascii List ZArith QArith Bool Lia Lqa.
Import ListNotations.

Local Open Scope string_scope.
Local Open Scope Z_scope.

(** ** JavaScript strings *)

Module Js.

Definition lower_ascii (c : ascii) : ascii :=
  let n := N_of_ascii c in
  if ((65 <=? n) && (n <=? 90))%N then ascii_of_N (n + 32) else c.

(** [s.toLowerCase()] *)
Fixpoint toLowerCase (s : string) : string :=
  match s with
  | EmptyString => EmptyString
  | String c rest => String (lower_ascii c) (toLowerCase rest)
  end.

(** [hay.includes(needle)] *)
Fixpoint includes (hay needle : string) : bool :=
  String.prefix needle hay
  || match hay with
     | EmptyString => false
     | String _ rest => includes rest needle
     end.

(** What [includes] decides: [needle] occurs somewhere inside [hay]. *)
Definition Occurs (needle hay : string) : Prop :=
  exists before after, hay = before ++ needle ++ after.

(** [a || b] on optional strings: the empty string and [undefined] are
    falsy. *)
Definition truthy (s : option string) : bool :=
  match s with
  | Some (String _ _) => true
  | _ => false
  end.

Definition or_else (a b : option string) : option string :=
  if truthy a then a else b.

(** [value === "literal"] *)
Definition strict_eq (value : option string) (literal : string) : bool :=
  match value with
  | Some v => String.eqb v literal
  | None => false
  end.

(** [s.split("@")[0]] *)
Fixpoint before_at (s : string) : string :=
  match s with
  | EmptyString => EmptyString
  | String c rest => if Ascii.eqb c "@" then EmptyString
                     else String c (before_at rest)
  end.

(** A value spliced into a template literal. *)
Definition show (s : option string) : string :=
  match s with
  | Some v => v
  | None => "undefined"
  end.

End Js.

(** ** lib/error-handler: the error taxonomy *)

Inductive ErrorCategory :=
| VALIDATION | AUTHENTICATION | EXTERNAL_API | DATABASE | BUSINESS_LOGIC | SYSTEM.

Inductive ErrorSeverity := LOW | MEDIUM | HIGH | CRITICAL.

(** The string value of each enum member. *)
Definition category_name (c : ErrorCategory) : string :=
  match c with
  | VALIDATION => "validation"
  | AUTHENTICATION => "authentication"
  | EXTERNAL_API => "external_api"
  | DATABASE => "database"
  | BUSINESS_LOGIC => "business_logic"
  | SYSTEM => "system"
  end.

Inductive ContextValue :=
| CtxString (s : string)
| CtxNumber (n : Z).

Definition Context := list (string * ContextValue).

(** [class AppError extends Error]; the [name] and [timestamp] fields are
    left out. *)
Record AppError := mkAppError {
  message : string;
  category : ErrorCategory;
  severity : ErrorSeverity;
  retryable : bool;
  context : Context
}.

(** [new AppError(message, category)] with the constructor's defaults
    [severity = MEDIUM], [retryable = false], [context = {}]. *)
Definition newAppError (msg : string) (cat : ErrorCategory)
    (sev : ErrorSeverity) : AppError :=
  mkAppError msg cat sev false [].

(** A thrown [Error]: either a plain one, which only has a message, or an
    [AppError]. *)
Inductive JsError :=
| PlainError (msg : string)
| IsAppError (e : AppError).

(** [`${error}`]: an error prints as its name, a colon and its message. *)
Definition show_error (e : JsError) : string :=
  match e with
  | PlainError msg => "Error: " ++ msg
  | IsAppError ae => "AppError: " ++ message ae
  end.

(** ** lib/stripe: the event as the webhook route receives it *)

(** [customer_details] of a checkout session. *)
Record CustomerDetails := mkCustomerDetails {
  details_email : option string;
  details_name : option string
}.

(** [event.data.object], restricted to the properties the code reads.  A
    property that is absent, [null] or [undefined] is [None].
    [line_items_price] stands for [line_items?.data[0]?.price?.id] and
    [items_price] for [items?.data[0]?.price?.id]. *)
Record EventObject := mkEventObject {
  obj_id : option string;
  obj_customer : option string;
  obj_subscription : option string;
  obj_status : option string;
  obj_customer_email : option string;
  obj_customer_details : option CustomerDetails;
  line_items_price : option string;
  items_price : option string
}.

Record StripeWebhookEvent := mkEvent {
  event_id : string;
  event_type : string;
  data_object : EventObject;
  created : Z
}.

(** The customer projection of an event. *)
Record CustomerData := mkCustomerData {
  cd_stripeCustomerId : option string;
  cd_email : option string;
  cd_name : option string
}.

(** The subscription projection of an event. *)
Record SubscriptionData := mkSubscriptionData {
  stripeSubscriptionId : option string;
  stripeCustomerId : option string;
  stripePriceId : option string;
  status : option string
}.

(** ** lib/database: rows of the four tables *)

Inductive SubscriptionStatus := Active | Suspended | Canceled.

Definition status_name (s : SubscriptionStatus) : string :=
  match s with
  | Active => "active"
  | Suspended => "suspended"
  | Canceled => "canceled"
  end.

Inductive WebhookStatus := Received | Processing | Success | Error.

Record Customer := mkCustomer {
  customer_pk : Z;
  enhance_customer_id : string;
  stripe_customer_id : option string;
  email : string;
  name : option string;
  deleted : bool
}.

Record Subscription := mkSubscription {
  subscription_pk : Z;
  customer_id : Z;
  enhance_subscription_id : string;
  stripe_subscription_id : option string;
  enhance_plan_id : string;
  subscription_status : SubscriptionStatus
}.

Record PlanMapping := mkPlanMapping {
  billing_provider : string;
  billing_plan_id : string;
  mapped_enhance_plan_id : string
}.

Record WebhookLog := mkWebhookLog {
  log_pk : Z;
  idempotency_key : string;
  source : string;
  log_event_type : string;
  log_status : WebhookStatus;
  payload_json : StripeWebhookEvent;
  error_message_column : option string
}.

Record Database := mkDatabase {
  customers : list Customer;
  subscriptions : list Subscription;
  plan_mappings : list PlanMapping;
  webhook_logs : list WebhookLog;
  customers_seq : Z;
  subscriptions_seq : Z;
  webhook_logs_seq : Z
}.

(** ** Requests that leave the process *)

Inductive Call :=
(* DatabaseService *)
| DbFindCustomerByStripeId (stripeCustomerId : option string)
| DbCreateCustomer (enhanceCustomerId : string) (stripeCustomerId : option string)
    (email : option string)
| DbFindSubscriptionByStripeId (stripeSubscriptionId : option string)
| DbCreateSubscription (enhanceSubscriptionId : string)
    (stripeSubscriptionId : option string) (st : SubscriptionStatus)
| DbUpdateSubscriptionStatus (id : Z) (st : SubscriptionStatus)
| DbUpdateSubscriptionPlan (id : Z) (enhancePlanId : string)
| DbFindPlanMapping (provider : string) (billingPlanId : option string)
| DbLogWebhook (key : string) (st : WebhookStatus)
| DbUpdateWebhookStatus (key : string) (st : WebhookStatus)
    (errorMessage : option string)
| DbWebhookExists (key : string)
(* EnhanceService *)
| EnhanceCreateCustomer (email : option string)
| EnhanceCreateSubscription (customerId planId : string)
| EnhanceSuspendSubscription (subscriptionId : string)
| EnhanceReactivateSubscription (subscriptionId : string)
| EnhanceCancelSubscription (subscriptionId : string)
| EnhanceGetSubscription (subscriptionId : string)
| EnhanceChangeSubscriptionPlan (subscriptionId newPlanId : string)
(* StripeService *)
| StripeGetCustomer (customerId : option string)
| StripeGetSubscription (subscriptionId : string).

(** The requests that change something in the provisioning system. *)
Definition is_provisioning_action (c : Call) : bool :=
  match c with
  | EnhanceCreateCustomer _ | EnhanceCreateSubscription _ _
  | EnhanceSuspendSubscription _ | EnhanceReactivateSubscription _
  | EnhanceCancelSubscription _ | EnhanceChangeSubscriptionPlan _ _ => true
  | _ => false
  end.

(** The request that asks the provisioning system for the current status. *)
Definition is_provisioning_read (c : Call) : bool :=
  match c with
  | EnhanceGetSubscription _ => true
  | _ => false
  end.

(** The statements that write to the customers or subscriptions table. *)
Definition is_record_write (c : Call) : bool :=
  match c with
  | DbCreateCustomer _ _ _ | DbCreateSubscription _ _ _
  | DbUpdateSubscriptionStatus _ _ | DbUpdateSubscriptionPlan _ _ => true
  | _ => false
  end.

(** The statements that write to the webhook ledger. *)
Definition is_ledger_write (c : Call) : bool :=
  match c with
  | DbLogWebhook _ _ | DbUpdateWebhookStatus _ _ _ => true
  | _ => false
  end.

(** ** The world an invocation runs in *)

(** What the process cannot control: which request fails, what the remote
    services answer, what [Math.random] yields, and how the Stripe library
    judges a signature. *)
Record Environment := mkEnvironment {
  faults : nat -> option JsError;
  constraint_violation : JsError;
  constructEvent : string -> string -> JsError + StripeWebhookEvent;
  stripe_subscription_status : string -> string;
  stripe_customer : option string -> option string * option string;
  enhance_subscription_status : string -> string;
  enhance_new_id : nat -> string;
  random : nat -> Q;
  randomUUID : string
}.

Record World := mkWorld {
  db : Database;
  env : Environment;
  trace : list Call;
  sleeps : list Q;
  randoms_drawn : nat;
  (* ghost: how many times [withRetry] has invoked an operation *)
  invocations : nat
}.

Definition set_db (d : Database) (w : World) : World :=
  mkWorld d (env w) (trace w) (sleeps w) (randoms_drawn w) (invocations w).

Definition add_customer (c : Customer) (d : Database) : Database :=
  mkDatabase (customers d ++ [c]) (subscriptions d) (plan_mappings d)
    (webhook_logs d) (customers_seq d + 1) (subscriptions_seq d)
    (webhook_logs_seq d).

Definition set_subscriptions (l : list Subscription) (d : Database) : Database :=
  mkDatabase (customers d) l (plan_mappings d) (webhook_logs d)
    (customers_seq d) (subscriptions_seq d) (webhook_logs_seq d).

Definition add_subscription (s : Subscription) (d : Database) : Database :=
  mkDatabase (customers d) (subscriptions d ++ [s]) (plan_mappings d)
    (webhook_logs d) (customers_seq d) (subscriptions_seq d + 1)
    (webhook_logs_seq d).

Definition set_webhook_logs (l : list WebhookLog) (d : Database) : Database :=
  mkDatabase (customers d) (subscriptions d) (plan_mappings d) l
    (customers_seq d) (subscriptions_seq d) (webhook_logs_seq d).

Definition add_webhook_log (r : WebhookLog) (d : Database) : Database :=
  mkDatabase (customers d) (subscriptions d) (plan_mappings d)
    (webhook_logs d ++ [r]) (customers_seq d) (subscriptions_seq d)
    (webhook_logs_seq d + 1).

(** ** Asynchronous computations *)

Inductive Outcome (A : Type) :=
| Returned (a : A)
| Thrown (e : JsError).
Arguments Returned {A} a.
Arguments Thrown {A} e.

Definition M (A : Type) : Type := World -> Outcome A * World.

Definition ret {A} (a : A) : M A := fun w => (Returned a, w).

Definition throw {A} (e : JsError) : M A := fun w => (Thrown e, w).

Definition bind {A B} (m : M A) (k : A -> M B) : M B :=
  fun w =>
    match m w with
    | (Returned a, w') => k a w'
    | (Thrown e, w') => (Thrown e, w')
    end.

(** [try { m } catch (error) { handler error }] *)
Definition try_catch {A} (m : M A) (handler : JsError -> M A) : M A :=
  fun w =>
    match m w with
    | (Returned a, w') => (Returned a, w')
    | (Thrown e, w') => handler e w'
    end.

Declare Scope async_scope.
Delimit Scope async_scope with async.
Notation "x <- m ;; k" := (bind m (fun x => k))
  (at level 61, m at next level, right associativity) : async_scope.
Notation "m ;; k" := (bind m (fun _ => k))
  (at level 61, right associativity) : async_scope.
Local Open Scope async_scope.

Definition record (c : Call) (w : World) : World :=
  mkWorld (db w) (env w) (trace w ++ [c]) (sleeps w) (randoms_drawn w)
    (invocations w).

(** One request: it is recorded, then it either fails as [faults] says or is
    answered. *)
Definition request {A} (c : Call) (answer : World -> Outcome A * World) : M A :=
  fun w =>
    match faults (env w) (length (trace w)) with
    | Some e => (Thrown e, record c w)
    | None => answer (record c w)
    end.

(** A statement that only reads the database. *)
Definition query {A} (c : Call) (select : Database -> A) : M A :=
  request c (fun w => (Returned (select (db w)), w)).

(** A statement that writes: [run] gives the new database and the returned
    row, or [None] when a constraint of the schema rejects the statement. *)
Definition statement {A} (c : Call) (run : Database -> option (A * Database))
    : M A :=
  request c (fun w =>
    match run (db w) with
    | Some (a, d) => (Returned a, set_db d w)
    | None => (Thrown (constraint_violation (env w)), w)
    end).

(** A request to a remote service, answered from the environment. *)
Definition remote {A} (c : Call) (answer : Environment -> nat -> A) : M A :=
  request c (fun w => (Returned (answer (env w) (length (trace w))), w)).

(** ** lib/database: DatabaseService *)

Module DatabaseService.

(** [column = ${param}] in a WHERE clause: never true when either side is
    NULL. *)
Definition sql_eq (column param : option string) : bool :=
  match column, param with
  | Some a, Some b => String.eqb a b
  | _, _ => false
  end.

(** [result[0] || null] *)
Definition first_row {A} (rows : list A) : option A := hd_error rows.

(** [email LIKE '%@%.%'] *)
Fixpoint after_at (s : string) : option string :=
  match s with
  | EmptyString => None
  | String c rest => if Ascii.eqb c "@" then Some rest else after_at rest
  end.

Definition email_check (e : string) : bool :=
  match after_at e with
  | Some rest => Js.includes rest "."
  | None => false
  end.

Definition findCustomerByStripeId (stripeCustomerId : option string)
    : M (option Customer) :=
  query (DbFindCustomerByStripeId stripeCustomerId) (fun d =>
    first_row (filter (fun c => sql_eq (stripe_customer_id c) stripeCustomerId
                                && negb (deleted c))
                 (customers d))).

Definition createCustomer (enhanceCustomerId : string)
    (stripeCustomerId : option string) (email_ : option string)
    (name_ : option string) : M Customer :=
  statement (DbCreateCustomer enhanceCustomerId stripeCustomerId email_)
    (fun d =>
       match email_ with
       | None => None                                     (* NOT NULL *)
       | Some e =>
         if email_check e
            && negb (existsb (fun c => String.eqb (enhance_customer_id c)
                                         enhanceCustomerId
                                       || sql_eq (stripe_customer_id c)
                                            stripeCustomerId
                                       || String.eqb (email c) e)
                       (customers d))                       (* UNIQUE *)
         then
           let row := mkCustomer (customers_seq d) enhanceCustomerId
                        stripeCustomerId e name_ false in
           Some (row, add_customer row d)
         else None
       end).

Definition findSubscriptionByStripeId (stripeSubscriptionId_ : option string)
    : M (option Subscription) :=
  query (DbFindSubscriptionByStripeId stripeSubscriptionId_) (fun d =>
    first_row (filter (fun s => sql_eq (stripe_subscription_id s)
                                  stripeSubscriptionId_)
                 (subscriptions d))).

Definition createSubscription (customerId : Z) (enhanceSubscriptionId : string)
    (stripeSubscriptionId_ : option string) (enhancePlanId : string)
    (st : SubscriptionStatus) : M Subscription :=
  statement (DbCreateSubscription enhanceSubscriptionId stripeSubscriptionId_ st)
    (fun d =>
       if existsb (fun c => customer_pk c =? customerId) (customers d)
                                                            (* REFERENCES *)
          && negb (existsb (fun s => String.eqb (enhance_subscription_id s)
                                       enhanceSubscriptionId
                                     || sql_eq (stripe_subscription_id s)
                                          stripeSubscriptionId_)
                     (subscriptions d))                     (* UNIQUE *)
       then
         let row := mkSubscription (subscriptions_seq d) customerId
                      enhanceSubscriptionId stripeSubscriptionId_ enhancePlanId
                      st in
         Some (row, add_subscription row d)
       else None).

Definition with_status (st : SubscriptionStatus) (s : Subscription)
    : Subscription :=
  mkSubscription (subscription_pk s) (customer_id s) (enhance_subscription_id s)
    (stripe_subscription_id s) (enhance_plan_id s) st.

Definition updateSubscriptionStatus (id : Z) (st : SubscriptionStatus) : M unit :=
  statement (DbUpdateSubscriptionStatus id st) (fun d =>
    Some (tt, set_subscriptions
                (map (fun s => if subscription_pk s =? id then with_status st s
                               else s)
                   (subscriptions d)) d)).

Definition findPlanMapping (billingProvider : string)
    (billingPlanId : option string) : M (option PlanMapping) :=
  query (DbFindPlanMapping billingProvider billingPlanId) (fun d =>
    first_row (filter (fun p => String.eqb (billing_provider p) billingProvider
                                && sql_eq (Some (billing_plan_id p))
                                     billingPlanId)
                 (plan_mappings d))).

Definition logWebhook (key source_ eventType : string)
    (payload : StripeWebhookEvent) (st : option WebhookStatus) : M WebhookLog :=
  let st' := match st with Some s => s | None => Received end in
  statement (DbLogWebhook key st') (fun d =>
    if existsb (fun r => String.eqb (idempotency_key r) key) (webhook_logs d)
                                                            (* UNIQUE *)
    then None
    else
      let row := mkWebhookLog (webhook_logs_seq d) key source_ eventType st'
                   payload None in
      Some (row, add_webhook_log row d)).

Definition with_log_status (st : WebhookStatus) (errorMessage : option string)
    (r : WebhookLog) : WebhookLog :=
  mkWebhookLog (log_pk r) (idempotency_key r) (source r) (log_event_type r) st
    (payload_json r) errorMessage.

Definition updateWebhookStatus (idempotencyKey : string) (st : WebhookStatus)
    (errorMessage : option string) : M unit :=
  statement (DbUpdateWebhookStatus idempotencyKey st errorMessage) (fun d =>
    Some (tt, set_webhook_logs
                (map (fun r => if String.eqb (idempotency_key r) idempotencyKey
                               then with_log_status st errorMessage r else r)
                   (webhook_logs d)) d)).

Definition webhookExists (idempotencyKey : string) : M bool :=
  query (DbWebhookExists idempotencyKey) (fun d =>
    (0 <? length (filter (fun r => String.eqb (idempotency_key r)
                                     idempotencyKey)
                    (webhook_logs d)))%nat).

Definition with_plan (enhancePlanId : string) (s : Subscription) : Subscription :=
  mkSubscription (subscription_pk s) (customer_id s) (enhance_subscription_id s)
    (stripe_subscription_id s) enhancePlanId (subscription_status s).

Definition updateSubscriptionPlan (id : Z) (enhancePlanId : string) : M unit :=
  statement (DbUpdateSubscriptionPlan id enhancePlanId) (fun d =>
    Some (tt, set_subscriptions
                (map (fun s => if subscription_pk s =? id
                               then with_plan enhancePlanId s else s)
                   (subscriptions d)) d)).

End DatabaseService.

(** ** lib/stripe: StripeService *)

Module StripeService.

Definition verifyWebhookSignature (payload signature : string)
    : M StripeWebhookEvent :=
  fun w =>
    match constructEvent (env w) payload signature with
    | inr event => (Returned event, w)
    | inl error =>
      (Thrown (PlainError ("Webhook signature verification failed: "
                           ++ show_error error)), w)
    end.

Definition extractCustomerData (event : StripeWebhookEvent)
    : option CustomerData :=
  let object := data_object event in
  let type := event_type event in
  if String.eqb type "checkout.session.completed" then
    (* customer = customer_details || customer; a customer id has neither an
       email nor a name *)
    let customer := obj_customer_details object in
    Some (mkCustomerData
            (obj_customer object)
            (Js.or_else (match customer with
                         | Some c => details_email c
                         | None => None
                         end)
               (obj_customer_email object))
            (Js.or_else (match customer with
                         | Some c => details_name c
                         | None => None
                         end)
               (match obj_customer_details object with
                | Some c => details_name c
                | None => None
                end)))
  else if String.eqb type "customer.subscription.created"
          || String.eqb type "customer.subscription.updated"
          || String.eqb type "customer.subscription.deleted" then
    Some (mkCustomerData (obj_customer object) (Some "") (Some ""))
  else None.

Definition extractSubscriptionData (event : StripeWebhookEvent)
    : option SubscriptionData :=
  let object := data_object event in
  let type := event_type event in
  if String.eqb type "checkout.session.completed" then
    Some (mkSubscriptionData (obj_subscription object) (obj_customer object)
            (line_items_price object) (Some "active"))
  else if String.eqb type "customer.subscription.created"
          || String.eqb type "customer.subscription.updated"
          || String.eqb type "customer.subscription.deleted" then
    Some (mkSubscriptionData (obj_id object) (obj_customer object)
            (items_price object) (obj_status object))
  else None.

(** [stripe.customers.retrieve]: the customer's email and name. *)
Definition getCustomer (customerId : option string)
    : M (option string * option string) :=
  remote (StripeGetCustomer customerId)
    (fun e _ => stripe_customer e customerId).

(** [stripe.subscriptions.retrieve]: only the status is read. *)
Definition getSubscription (subscriptionId : string) : M string :=
  remote (StripeGetSubscription subscriptionId)
    (fun e _ => stripe_subscription_status e subscriptionId).

End StripeService.

(** ** lib/enhance: EnhanceService

    Each method is one request to the provisioning system (its own
    [makeRequest] loop is inside the request).  The methods that create
    return the new object's id, [getSubscription] its status. *)

Module EnhanceService.

Definition createCustomer (email_ : option string) (name_ organizationName : string)
    : M string :=
  remote (EnhanceCreateCustomer email_) (fun e n => enhance_new_id e n).

Definition createSubscription (customerId planId : string) : M string :=
  remote (EnhanceCreateSubscription customerId planId)
    (fun e n => enhance_new_id e n).

Definition suspendSubscription (subscriptionId : string) : M unit :=
  remote (EnhanceSuspendSubscription subscriptionId) (fun _ _ => tt).

Definition reactivateSubscription (subscriptionId : string) : M unit :=
  remote (EnhanceReactivateSubscription subscriptionId) (fun _ _ => tt).

Definition cancelSubscription (subscriptionId : string) : M unit :=
  remote (EnhanceCancelSubscription subscriptionId) (fun _ _ => tt).

Definition getSubscription (subscriptionId : string) : M string :=
  remote (EnhanceGetSubscription subscriptionId)
    (fun e _ => enhance_subscription_status e subscriptionId).

Definition changeSubscriptionPlan (subscriptionId newPlanId : string) : M unit :=
  remote (EnhanceChangeSubscriptionPlan subscriptionId newPlanId)
    (fun _ _ => tt).

End EnhanceService.

(** ** lib/error-handler: ErrorHandler *)

Module ErrorHandler.

Definition categorizeError (error : JsError) (ctx : Context) : AppError :=
  match error with
  | IsAppError ae => ae
  | PlainError msg =>
    let message := Js.toLowerCase msg in
    if Js.includes message "fetch" || Js.includes message "network"
       || Js.includes message "timeout"
    then mkAppError msg EXTERNAL_API HIGH true ctx
    else if Js.includes message "database" || Js.includes message "sql"
            || Js.includes message "connection"
    then mkAppError msg DATABASE HIGH true ctx
    else if Js.includes message "unauthorized" || Js.includes message "forbidden"
            || Js.includes message "token"
    then mkAppError msg AUTHENTICATION MEDIUM false ctx
    else if Js.includes message "validation" || Js.includes message "invalid"
            || Js.includes message "required"
    then mkAppError msg VALIDATION LOW false ctx
    else mkAppError msg SYSTEM MEDIUM false ctx
  end.

(** [Math.random()] *)
Definition Math_random : M Q :=
  fun w =>
    (Returned (random (env w) (randoms_drawn w)),
     mkWorld (db w) (env w) (trace w) (sleeps w) (S (randoms_drawn w))
       (invocations w)).

(** [await new Promise((resolve) => setTimeout(resolve, delay))] *)
Definition setTimeout (delay : Q) : M unit :=
  fun w =>
    (Returned tt,
     mkWorld (db w) (env w) (trace w) (sleeps w ++ [delay]) (randoms_drawn w)
       (invocations w)).

(** [await operation()], counted. *)
Definition invoke {T} (operation : M T) : M T :=
  fun w =>
    operation (mkWorld (db w) (env w) (trace w) (sleeps w) (randoms_drawn w)
                 (S (invocations w))).

(** [throw this.categorizeError(lastError!, { attempts: maxRetries })] after
    the loop; reading [.message] of [undefined] is a TypeError. *)
Definition exhausted {T} (lastError : option JsError) (maxRetries : Z) : M T :=
  match lastError with
  | Some error =>
    throw (IsAppError (categorizeError error
                         [("attempts", CtxNumber maxRetries)]))
  | None =>
    throw (PlainError "Cannot read properties of undefined (reading 'message')")
  end.

(** The two lines that end an iteration: the delay
    [baseDelay * Math.pow(2, attempt - 1) + Math.random() * 1000], slept. *)
Definition backoff (baseDelay attempt : Z) : M unit :=
  r <- Math_random ;;
  let delay := (inject_Z (baseDelay * 2 ^ (attempt - 1)) + r * 1000)%Q in
  setTimeout delay.

(** The [for] loop, entered at [attempt] with [remaining] iterations to
    go: [attempt <= maxRetries] holds exactly when [remaining] is not 0. *)
Fixpoint attempts {T} (operation : M T) (maxRetries baseDelay : Z)
    (remaining : nat) (attempt : Z) (lastError : option JsError) : M T :=
  match remaining with
  | O => exhausted lastError maxRetries
  | S remaining' =>
    try_catch (invoke operation) (fun error =>
      let appError := categorizeError error [] in
      if negb (retryable appError) then throw (IsAppError appError)
      else if attempt =? maxRetries then exhausted (Some error) maxRetries
      else
        backoff baseDelay attempt ;;
        attempts operation maxRetries baseDelay remaining' (attempt + 1)
          (Some error))
  end.

Definition withRetry {T} (operation : M T) (maxRetries baseDelay : Z) : M T :=
  attempts operation maxRetries baseDelay (Z.to_nat maxRetries) 1 None.

Definition handleWebhookError (error : JsError) (idempotencyKey eventType : string)
    : M unit :=
  let appError :=
    categorizeError error [("webhookId", CtxString idempotencyKey)] in
  DatabaseService.updateWebhookStatus idempotencyKey Error
    (Some (category_name (category appError) ++ ": " ++ message appError)).

End ErrorHandler.

(** ** The webhook route *)

Record Request := mkRequest {
  request_body : string;
  stripe_signature : option string     (* request.headers.get("stripe-signature") *)
}.

Inductive ResponseBody :=
| ReceivedBody (note : option string)            (* { received: true, message? } *)
| FailureBody (error msg : string) (retryable_ : bool).
                                            (* { error, message, retryable } *)

Record Response := mkResponse {
  http_status : Z;
  response_body : ResponseBody
}.

Module Webhook.

Import ErrorHandler.

(** [customerData.name || customerData.email.split("@")[0]]: the right
    operand is only evaluated when the name is falsy, and [split] of [null]
    is a TypeError. *)
Definition name_or_local_part (name_ email_ : option string) : M string :=
  if Js.truthy name_ then ret (Js.show name_)
  else match email_ with
       | Some e => ret (Js.before_at e)
       | None =>
         throw (PlainError "Cannot read properties of null (reading 'split')")
       end.

(** The plan-mapping step of the checkout handler: the mapping of the
    purchased price, or a business-logic error. *)
Definition resolvePlanMapping (priceId : option string) : M PlanMapping :=
  planMapping <- DatabaseService.findPlanMapping "stripe" priceId ;;
  match planMapping with
  | None =>
    throw (IsAppError
             (newAppError ("No plan mapping found for Stripe price: "
                           ++ Js.show priceId)
                BUSINESS_LOGIC HIGH))
  | Some p => ret p
  end.

(** The operation that [handleCheckoutCompleted] passes to [withRetry]. *)
Definition checkoutCompleted (event : StripeWebhookEvent) : M unit :=
  match StripeService.extractCustomerData event,
        StripeService.extractSubscriptionData event with
  | Some customerData, Some subscriptionData =>
    found <- DatabaseService.findCustomerByStripeId
               (cd_stripeCustomerId customerData) ;;
    customer <-
      match found with
      | Some customer => ret customer
      | None =>
        customerData' <-
          (if negb (Js.truthy (cd_email customerData)) then
             stripeCustomer <- StripeService.getCustomer
                                 (cd_stripeCustomerId customerData) ;;
             ret (mkCustomerData (cd_stripeCustomerId customerData)
                    (fst stripeCustomer)
                    (Js.or_else (snd stripeCustomer) None))
           else ret customerData) ;;
        name_ <- name_or_local_part (cd_name customerData')
                   (cd_email customerData') ;;
        organizationName <- name_or_local_part (cd_name customerData')
                              (cd_email customerData') ;;
        enhanceCustomerId <- EnhanceService.createCustomer
                               (cd_email customerData') name_ organizationName ;;
        DatabaseService.createCustomer enhanceCustomerId
          (cd_stripeCustomerId customerData') (cd_email customerData')
          (cd_name customerData')
      end ;;
    planMapping <- resolvePlanMapping (stripePriceId subscriptionData) ;;
    enhanceSubscriptionId <- EnhanceService.createSubscription
                               (enhance_customer_id customer)
                               (mapped_enhance_plan_id planMapping) ;;
    DatabaseService.createSubscription (customer_pk customer)
      enhanceSubscriptionId (stripeSubscriptionId subscriptionData)
      (mapped_enhance_plan_id planMapping) Active ;;
    ret tt
  | _, _ =>
    throw (IsAppError
             (newAppError
                "Failed to extract customer or subscription data from checkout event"
                BUSINESS_LOGIC HIGH))
  end.

Definition handleCheckoutCompleted (event : StripeWebhookEvent) : M unit :=
  withRetry (checkoutCompleted event) 3 2000.

(** The operation that [handleSubscriptionDeleted] passes to [withRetry]. *)
Definition subscriptionDeleted (event : StripeWebhookEvent) : M unit :=
  match StripeService.extractSubscriptionData event with
  | None =>
    throw (IsAppError
             (newAppError "Failed to extract subscription data from deletion event"
                BUSINESS_LOGIC HIGH))
  | Some subscriptionData =>
    subscription <- DatabaseService.findSubscriptionByStripeId
                      (stripeSubscriptionId subscriptionData) ;;
    match subscription with
    | None => ret tt
    | Some subscription =>
      EnhanceService.suspendSubscription (enhance_subscription_id subscription) ;;
      DatabaseService.updateSubscriptionStatus (subscription_pk subscription)
        Canceled
    end
  end.

Definition handleSubscriptionDeleted (event : StripeWebhookEvent) : M unit :=
  withRetry (subscriptionDeleted event) 3 2000.

(** The operation that [handleSubscriptionUpdated] passes to [withRetry]. *)
Definition subscriptionUpdated (event : StripeWebhookEvent) : M unit :=
  match StripeService.extractSubscriptionData event with
  | None =>
    throw (IsAppError
             (newAppError "Failed to extract subscription data from update event"
                BUSINESS_LOGIC HIGH))
  | Some subscriptionData =>
    subscription <- DatabaseService.findSubscriptionByStripeId
                      (stripeSubscriptionId subscriptionData) ;;
    match subscription with
    | None => ret tt
    | Some subscription =>
      let status_ := status subscriptionData in
      (* the switch: [Some newStatus] after a case that breaks, [None] after
         the default case, which returns *)
      decided <-
        (if Js.strict_eq status_ "active" then
           EnhanceService.reactivateSubscription
             (enhance_subscription_id subscription) ;;
           ret (Some Active)
         else if Js.strict_eq status_ "past_due"
                 || Js.strict_eq status_ "unpaid" then
           EnhanceService.suspendSubscription
             (enhance_subscription_id subscription) ;;
           ret (Some Suspended)
         else if Js.strict_eq status_ "canceled"
                 || Js.strict_eq status_ "incomplete_expired" then
           EnhanceService.suspendSubscription
             (enhance_subscription_id subscription) ;;
           ret (Some Canceled)
         else ret None) ;;
      match decided with
      | None => ret tt
      | Some newStatus =>
        DatabaseService.updateSubscriptionStatus (subscription_pk subscription)
          newStatus
      end
    end
  end.

Definition handleSubscriptionUpdated (event : StripeWebhookEvent) : M unit :=
  withRetry (subscriptionUpdated event) 3 2000.

(** The [switch (event.type)] of [POST]. *)
Definition dispatch (event : StripeWebhookEvent) : M unit :=
  let type := event_type event in
  if String.eqb type "checkout.session.completed" then
    handleCheckoutCompleted event
  else if String.eqb type "customer.subscription.deleted" then
    handleSubscriptionDeleted event
  else if String.eqb type "customer.subscription.updated" then
    handleSubscriptionUpdated event
  else ret tt.

Definition idempotencyKey (event : StripeWebhookEvent) : string :=
  "stripe_" ++ event_id event.

(** The body of [POST] once the ledger has accepted the event's row. *)
Definition processRecorded (event : StripeWebhookEvent) : M Response :=
  let key := idempotencyKey event in
  DatabaseService.updateWebhookStatus key Processing None ;;
  try_catch
    (dispatch event ;;
     DatabaseService.updateWebhookStatus key Success None ;;
     ret (mkResponse 200 (ReceivedBody None)))
    (fun processingError =>
       handleWebhookError processingError key (event_type event) ;;
       throw processingError).

(** The body of [POST] from the idempotency check on, for an event whose
    signature has been verified. *)
Definition processVerified (event : StripeWebhookEvent) : M Response :=
  let key := idempotencyKey event in
  seen <- DatabaseService.webhookExists key ;;
  if (seen : bool) then
    ret (mkResponse 200 (ReceivedBody (Some "Event already processed")))
  else
    withRetry
      (DatabaseService.logWebhook key "stripe" (event_type event) event
         (Some Received) ;; ret tt)
      3 1000 ;;
    processRecorded event.

(** The outer [catch] of [POST]. *)
Definition respondToError (error : JsError) : M Response :=
  fun w =>
    let appError :=
      categorizeError error [("requestId", CtxString (randomUUID (env w)))] in
    let statusCode :=
      match category appError with VALIDATION => 400 | _ => 500 end in
    ret (mkResponse statusCode
           (FailureBody "Webhook processing failed" (message appError)
              (retryable appError))) w.

Definition POST (request : Request) : M Response :=
  try_catch
    (match stripe_signature request with
     | Some (String _ _ as signature) =>
       event <- try_catch
                  (StripeService.verifyWebhookSignature (request_body request)
                     signature)
                  (fun error =>
                     throw (IsAppError
                              (newAppError
                                 ("Webhook signature verification failed: "
                                  ++ show_error error)
                                 AUTHENTICATION HIGH))) ;;
       processVerified event
     | _ =>
       throw (IsAppError
                (newAppError "Missing stripe-signature header" VALIDATION LOW))
     end)
    respondToError.

End Webhook.

(** ** lib/subscription-manager: SubscriptionManager *)

Module SubscriptionManager.

(** The first [switch] of [syncSingleSubscription]: the target status, or
    [None] where the code logs and returns. *)
Definition targetStatus (stripeStatus : string) : option SubscriptionStatus :=
  if String.eqb stripeStatus "active" then Some Active
  else if String.eqb stripeStatus "past_due" || String.eqb stripeStatus "unpaid"
  then Some Suspended
  else if String.eqb stripeStatus "canceled"
          || String.eqb stripeStatus "incomplete_expired"
  then Some Canceled
  else None.

Definition syncSingleSubscription (stripeSubscriptionId_ : string) : M unit :=
  dbSubscription <- DatabaseService.findSubscriptionByStripeId
                      (Some stripeSubscriptionId_) ;;
  match dbSubscription with
  | None =>
    throw (PlainError ("Subscription not found in database: "
                       ++ stripeSubscriptionId_))
  | Some dbSubscription =>
    stripeStatus <- StripeService.getSubscription stripeSubscriptionId_ ;;
    enhanceStatus <- EnhanceService.getSubscription
                       (enhance_subscription_id dbSubscription) ;;
    match targetStatus stripeStatus with
    | None => ret tt
    | Some target =>
      (if negb (String.eqb enhanceStatus (status_name target)) then
         match target with
         | Active =>
           EnhanceService.reactivateSubscription
             (enhance_subscription_id dbSubscription)
         | Suspended =>
           EnhanceService.suspendSubscription
             (enhance_subscription_id dbSubscription)
         | Canceled =>
           EnhanceService.cancelSubscription
             (enhance_subscription_id dbSubscription)
         end
       else ret tt) ;;
      (if negb (String.eqb (status_name (subscription_status dbSubscription))
                  (status_name target))
       then DatabaseService.updateSubscriptionStatus
              (subscription_pk dbSubscription) target
       else ret tt)
    end
  end.

Definition changePlan (stripeSubscriptionId_ newStripePriceId : string) : M unit :=
  dbSubscription <- DatabaseService.findSubscriptionByStripeId
                      (Some stripeSubscriptionId_) ;;
  match dbSubscription with
  | None => throw (PlainError ("Subscription not found: " ++ stripeSubscriptionId_))
  | Some dbSubscription =>
    newPlanMapping <- DatabaseService.findPlanMapping "stripe"
                        (Some newStripePriceId) ;;
    match newPlanMapping with
    | None =>
      throw (PlainError ("No plan mapping found for Stripe price: "
                         ++ newStripePriceId))
    | Some newPlanMapping =>
      EnhanceService.changeSubscriptionPlan
        (enhance_subscription_id dbSubscription)
        (mapped_enhance_plan_id newPlanMapping) ;;
      DatabaseService.updateSubscriptionPlan (subscription_pk dbSubscription)
        (mapped_enhance_plan_id newPlanMapping)
    end
  end.

End SubscriptionManager.

(** ** The specification's tables, as the specification words them *)

Module Spec.

(** Section 4.4: payments status to target internal status. *)
Definition status_table : list (list string * SubscriptionStatus) :=
  [ (["active"], Active);
    (["past_due"; "unpaid"], Suspended);
    (["canceled"; "incomplete_expired"], Canceled) ].

Definition target (paymentsStatus : string) : option SubscriptionStatus :=
  option_map snd
    (find (fun row => existsb (String.eqb paymentsStatus) (fst row)) status_table).

(** Section 4.6: keyword groups, each with its category and retryability. *)
Definition keyword_table : list (list string * (ErrorCategory * bool)) :=
  [ (["fetch"; "network"; "timeout"], (EXTERNAL_API, true));
    (["database"; "sql"; "connection"], (DATABASE, true));
    (["unauthorized"; "forbidden"; "token"], (AUTHENTICATION, false));
    (["validation"; "invalid"; "required"], (VALIDATION, false)) ].

(** A message mentions a group when one of its keywords occurs in the
    message, letter case aside. *)
Definition Mentions (group : list string) (msg : string) : Prop :=
  exists keyword, In keyword group /\ Js.Occurs keyword (Js.toLowerCase msg).

(** The verdict of a table read from the top: the first group that the
    message mentions decides; a message that mentions none is a System error
    and not retryable. *)
Inductive Classifies
    : list (list string * (ErrorCategory * bool)) -> string
      -> ErrorCategory * bool -> Prop :=
| unmatched msg :
    Classifies [] msg (SYSTEM, false)
| first_match group verdict rest msg :
    Mentions group msg ->
    Classifies ((group, verdict) :: rest) msg verdict
| later_match group verdict rest msg v :
    ~ Mentions group msg ->
    Classifies rest msg v ->
    Classifies ((group, verdict) :: rest) msg v.

(** Section 3: the ledger lifecycle received -> processing ->
    {success|error}, one transition at a time. *)
Definition lifecycle_step (a b : WebhookStatus) : bool :=
  match a, b with
  | Received, Processing => true
  | Processing, (Success | Error) => true
  | _, _ => false
  end.

(** The states an entry goes through, in order, follow the lifecycle. *)
Fixpoint lifecycle_path (states : list WebhookStatus) : bool :=
  match states with
  | a :: (b :: _) as rest => lifecycle_step a b && lifecycle_path rest
  | _ => true
  end.

End Spec.

(** ** Vocabulary of the statements *)

(** The result of running a computation. *)
Definition outcome {A} (m : M A) (w : World) : Outcome A := fst (m w).
Definition after {A} (m : M A) (w : World) : World := snd (m w).

(** The requests made between two worlds of one run. *)
Definition calls_since (w w' : World) : list Call :=
  skipn (length (trace w)) (trace w').

(** Every world reached by [m] is related to the one it started from. *)
Definition Steps {A} (R : World -> World -> Prop) (m : M A) : Prop :=
  forall w, R w (after m w).

(** [w'] continues [w]: same environment, and a trace that extends the old
    one by requests that are all [allowed]. *)
Definition Continues (allowed : Call -> bool) (w w' : World) : Prop :=
  env w' = env w /\
  exists calls : list Call,
    trace w' = (trace w ++ calls)%list /\ forallb allowed calls = true.

Definition SameDatabase (w w' : World) : Prop := db w' = db w.

Definition SameLedger (w w' : World) : Prop :=
  webhook_logs (db w') = webhook_logs (db w).

Definition SamePlanMappings (w w' : World) : Prop :=
  plan_mappings (db w') = plan_mappings (db w).

(** A request that changes nothing: neither the provisioning system nor a
    table. *)
Definition is_read (c : Call) : bool :=
  negb (is_provisioning_action c) && negb (is_record_write c)
  && negb (is_ledger_write c).

(** What may happen to a ledger row while the event with key [key] is
    processed: it keeps its key, and it keeps everything unless its key is
    [key]. *)
Definition row_step (key : string) (r r' : WebhookLog) : Prop :=
  idempotency_key r' = idempotency_key r
  /\ (idempotency_key r <> key -> r' = r).

(** What may happen to the ledger while the event with key [key] is
    processed: rows of other events stay as they are, and at most one row is
    added, for [key], and only when the ledger had none. *)
Definition LedgerStep (key : string) (w w' : World) : Prop :=
  exists added : list WebhookLog,
    Forall2 (row_step key) (webhook_logs (db w) ++ added)%list
      (webhook_logs (db w'))
    /\ (added = []
        \/ (existsb (fun r => String.eqb (idempotency_key r) key)
              (webhook_logs (db w)) = false
            /\ exists r, added = [r] /\ idempotency_key r = key)).

(** What [withRetry] itself keeps track of; an operation must leave it
    alone. *)
Definition SameBookkeeping (w w' : World) : Prop :=
  env w' = env w /\ sleeps w' = sleeps w /\
  randoms_drawn w' = randoms_drawn w /\ invocations w' = invocations w.

(** A relation that looks at the database, the environment and the trace
    only. *)
Definition Observational (R : World -> World -> Prop) : Prop :=
  forall w w1 w2, db w2 = db w1 -> env w2 = env w1 -> trace w2 = trace w1 ->
                  R w w1 -> R w w2.

(** A relation that computations can be followed through: a preorder that
    does not look at the bookkeeping of [withRetry]. *)
Definition Stepwise (R : World -> World -> Prop) : Prop :=
  (forall w, R w w)
  /\ (forall w1 w2 w3, R w1 w2 -> R w2 w3 -> R w1 w3)
  /\ Observational R.

(** The request that is about to be made is answered. *)
Definition answers (w : World) : Prop :=
  faults (env w) (length (trace w)) = None.

(** No request fails, now or later. *)
Definition fault_free (w : World) : Prop :=
  forall n, faults (env w) n = None.

(** [Math.random()] yields a number in [[0, 1)]. *)
Definition random_in_unit_interval (w : World) : Prop :=
  forall n, (0 <= random (env w) n /\ random (env w) n < 1)%Q.

(** The request carries a signature that the Stripe library accepts, and
    [event] is the event it carries. *)
Definition accepted (request : Request) (w : World) (event : StripeWebhookEvent)
    : Prop :=
  exists signature,
    stripe_signature request = Some signature
    /\ signature <> ""
    /\ constructEvent (env w) (request_body request) signature = inr event.

(** The row that [POST] inserts for an event. *)
Definition received_row (event : StripeWebhookEvent) (d : Database) : WebhookLog :=
  mkWebhookLog (webhook_logs_seq d) (Webhook.idempotencyKey event) "stripe"
    (event_type event) Received event None.

(** A ledger row after the given updates of its status and error message,
    applied in order. *)
Definition apply_updates (updates : list (WebhookStatus * option string))
    (r : WebhookLog) : WebhookLog :=
  fold_left (fun r u => DatabaseService.with_log_status (fst u) (snd u) r)
    updates r.

(** The ledger after the given updates to the rows of [key]. *)
Definition ledger_after (key : string)
    (updates : list (WebhookStatus * option string)) (l : list WebhookLog)
    : list WebhookLog :=
  map (fun r => if String.eqb (idempotency_key r) key
                then apply_updates updates r else r) l.

(** A statement that updates the state of ledger entries. *)
Definition is_ledger_update (c : Call) : bool :=
  match c with
  | DbUpdateWebhookStatus _ _ _ => true
  | _ => false
  end.

(** The updates of the ledger entries of [key] that were answered, read off
    the requests of a run in the order in which they were made: [calls] are
    the requests, the first of them is request number [n] of the run, and
    [failing] says which requests fail. *)
Fixpoint answered_updates (failing : nat -> option JsError) (key : string)
    (n : nat) (calls : list Call) : list (WebhookStatus * option string) :=
  match calls with
  | [] => []
  | c :: rest =>
    (match c, failing n with
     | DbUpdateWebhookStatus k st msg, None =>
       if String.eqb k key then [(st, msg)] else []
     | _, _ => []
     end ++ answered_updates failing key (S n) rest)%list
  end.

(** The same between two worlds of one run. *)
Definition ledger_updates (key : string) (w w' : World)
    : list (WebhookStatus * option string) :=
  answered_updates (faults (env w)) key (length (trace w)) (calls_since w w').

(** What the update operation does to one ledger entry, column by column:
    status and error message are set, whatever they were, and the other
    columns are kept. *)
Definition overwritten (st : WebhookStatus) (msg : option string)
    (r r' : WebhookLog) : Prop :=
  log_status r' = st /\ error_message_column r' = msg
  /\ log_pk r' = log_pk r /\ idempotency_key r' = idempotency_key r
  /\ source r' = source r /\ log_event_type r' = log_event_type r
  /\ payload_json r' = payload_json r.

(** Between [w] and [w'] the entries of [key] received the updates [us], in
    this order, and no entry of another key received any. *)
Definition Wrote (key : string) (us : list (WebhookStatus * option string))
    (w w' : World) : Prop :=
  env w' = env w
  /\ (exists calls, trace w' = (trace w ++ calls)%list)
  /\ (forall k, ledger_updates k w w' = if String.eqb key k then us else [])
  /\ webhook_logs (db w') = ledger_after key us (webhook_logs (db w)).

(** The ledger has a row for [key]. *)
Definition has_row (key : string) (d : Database) : bool :=
  existsb (fun r => String.eqb (idempotency_key r) key) (webhook_logs d).

Definition rows_for (key : string) (d : Database) : list WebhookLog :=
  filter (fun r => String.eqb (idempotency_key r) key) (webhook_logs d).

(** The UNIQUE constraint on [webhook_logs.idempotency_key] holds. *)
Definition ledger_keys_unique (d : Database) : Prop :=
  NoDup (map idempotency_key (webhook_logs d)).

(** The plan-mapping row that a lookup finds; [None] when the table has no
    entry for the pair. *)
Definition plan_mapping_of (provider : string) (planId : option string)
    (d : Database) : option PlanMapping :=
  DatabaseService.first_row
    (filter (fun p => String.eqb (billing_provider p) provider
                      && DatabaseService.sql_eq (Some (billing_plan_id p)) planId)
       (plan_mappings d)).

(** The computation throws. *)
Definition throws {A} (m : M A) (w : World) : Prop :=
  exists e, fst (m w) = Thrown e.

(** The subscription row that a lookup by Stripe id finds. *)
Definition subscription_of (stripeId : option string) (d : Database)
    : option Subscription :=
  DatabaseService.first_row
    (filter (fun s => DatabaseService.sql_eq (stripe_subscription_id s) stripeId)
       (subscriptions d)).

Definition customer_of (stripeId : option string) (d : Database)
    : option Customer :=
  DatabaseService.first_row
    (filter (fun c => DatabaseService.sql_eq (stripe_customer_id c) stripeId
                      && negb (deleted c))
       (customers d)).

(** The subscriptions table after [UPDATE ... SET status WHERE id]. *)
Definition subscriptions_with (id : Z) (st : SubscriptionStatus)
    (d : Database) : list Subscription :=
  map (fun s => if subscription_pk s =? id then DatabaseService.with_status st s
                else s)
    (subscriptions d).

(** An operation that throws retryable errors [k] times, each failure
    followed by the back-off pause of its attempt, and then returns [v];
    [w] is the world at the first of these attempts, numbered [attempt], and
    [w'] the world at the end. *)
Inductive FailsThenSucceeds {T} (operation : M T) (baseDelay : Z) (v : T)
    : nat -> Z -> World -> World -> Prop :=
| succeeds_now attempt w w' :
    ErrorHandler.invoke operation w = (Returned v, w') ->
    FailsThenSucceeds operation baseDelay v 0 attempt w w'
| fails_first k attempt w e w1 w2 w' :
    ErrorHandler.invoke operation w = (Thrown e, w1) ->
    retryable (ErrorHandler.categorizeError e []) = true ->
    after (ErrorHandler.backoff baseDelay attempt) w1 = w2 ->
    FailsThenSucceeds operation baseDelay v k (attempt + 1) w2 w' ->
    FailsThenSucceeds operation baseDelay v (S k) attempt w w'.

(** An operation that throws retryable errors [n] times in a row, [n >= 1],
    with the back-off pause between two attempts; [e] is the last error. *)
Inductive KeepsFailing {T} (operation : M T) (baseDelay : Z)
    : nat -> Z -> World -> JsError -> World -> Prop :=
| fails_once attempt w e w' :
    ErrorHandler.invoke operation w = (Thrown e, w') ->
    retryable (ErrorHandler.categorizeError e []) = true ->
    KeepsFailing operation baseDelay 1 attempt w e w'
| fails_again n attempt w e1 w1 w2 e w' :
    ErrorHandler.invoke operation w = (Thrown e1, w1) ->
    retryable (ErrorHandler.categorizeError e1 []) = true ->
    after (ErrorHandler.backoff baseDelay attempt) w1 = w2 ->
    KeepsFailing operation baseDelay n (attempt + 1) w2 e w' ->
    KeepsFailing operation baseDelay (S n) attempt w e w'.

(** The provisioning request that the event-driven update handler makes
    for a target status. *)
Definition update_action (target : SubscriptionStatus) (enhanceId : string)
    : Call :=
  match target with
  | Active => EnhanceReactivateSubscription enhanceId
  | Suspended | Canceled => EnhanceSuspendSubscription enhanceId
  end.

(** The provisioning request that the sync path makes for a target status
    that the provisioning system does not have yet. *)
Definition sync_action (target : SubscriptionStatus) (enhanceId : string)
    : Call :=
  match target with
  | Active => EnhanceReactivateSubscription enhanceId
  | Suspended => EnhanceSuspendSubscription enhanceId
  | Canceled => EnhanceCancelSubscription enhanceId
  end.

(** The delays slept between two worlds of one run. *)
Definition delays_since (w w' : World) : list Q :=
  skipn (length (sleeps w)) (sleeps w').

(** The [i]-th delay, counted from 1, is within the bounds of the
    specification. *)
Definition delay_in_bounds (baseDelay : Z) (i : nat) (delay : Q) : Prop :=
  (inject_Z (baseDelay * 2 ^ (Z.of_nat i - 1)) <= delay
   /\ delay <= inject_Z (baseDelay * 2 ^ (Z.of_nat i - 1)) + 1000)%Q.

(** The same for delays that follow the attempts [attempt], [attempt + 1],
    ... in this order; [j] counts from 0. *)
Definition delay_from (baseDelay attempt : Z) (j : nat) (delay : Q) : Prop :=
  (inject_Z (baseDelay * 2 ^ (attempt + Z.of_nat j - 1)) <= delay
   /\ delay <= inject_Z (baseDelay * 2 ^ (attempt + Z.of_nat j - 1)) + 1000)%Q.

Definition delays_in_bounds (baseDelay : Z) (delays : list Q) : Prop :=
  forall i delay, nth_error delays i = Some delay ->
                  delay_in_bounds baseDelay (S i) delay.

(** ** Sample worlds

    One customer with one active subscription, the three plan mappings that
    the schema script inserts, an empty ledger, and remote services that
    answer every request.  [sample_world p e] is a world in which Stripe
    reports the status [p] and Enhance the status [e] for that
    subscription. *)

Definition sample_customer : Customer :=
  mkCustomer 1 "enh_cus_1" (Some "cus_1") "ada@example.com" (Some "Ada") false.

Definition sample_subscription : Subscription :=
  mkSubscription 1 1 "enh_sub_1" (Some "sub_1") "pro-hosting-plan" Active.

Definition sample_database : Database :=
  mkDatabase [sample_customer] [sample_subscription]
    [ mkPlanMapping "stripe" "price_basic_monthly" "basic-hosting-plan";
      mkPlanMapping "stripe" "price_pro_monthly" "pro-hosting-plan";
      mkPlanMapping "stripe" "price_enterprise_monthly" "enterprise-hosting-plan" ]
    [] 2 2 1.

(** A subscription event of the given type and status, for the sample
    subscription or for one that is not in the database. *)
Definition subscription_event (eventId type subscriptionId status_ : string)
    : StripeWebhookEvent :=
  mkEvent eventId type
    (mkEventObject (Some subscriptionId) (Some "cus_1") None (Some status_) None
       None None (Some "price_pro_monthly"))
    0.

(** A checkout session that completed, for the given price. *)
Definition checkout_event (eventId priceId : string) : StripeWebhookEvent :=
  mkEvent eventId "checkout.session.completed"
    (mkEventObject (Some "cs_1") (Some "cus_1") (Some "sub_2") (Some "complete")
       None (Some (mkCustomerDetails (Some "ada@example.com") (Some "Ada")))
       (Some priceId) None)
    0.

(** The sample signature check accepts the signature "good" and reads the
    body as the status of an update event for a subscription that the
    database does not know. *)
Definition sample_constructEvent (payload signature : string)
    : JsError + StripeWebhookEvent :=
  if String.eqb signature "good"
  then inr (subscription_event "evt_1" "customer.subscription.updated" "sub_9"
              payload)
  else inl (PlainError "No signatures found matching the expected signature").

Definition sample_environment (paymentsStatus provisioningStatus : string)
    (failing : nat -> option JsError) : Environment :=
  mkEnvironment failing
    (PlainError "duplicate key value violates unique constraint")
    sample_constructEvent
    (fun _ => paymentsStatus)
    (fun _ => (Some "ada@example.com", Some "Ada"))
    (fun _ => provisioningStatus)
    (fun _ => "enh_new")
    (fun _ => 1 # 2)%Q
    "6f1c2a9e-0000-4000-8000-000000000001".

Definition no_faults : nat -> option JsError := fun _ => None.

(** The sample world after the event "evt_1" has been processed. *)
Definition processed_world : World :=
  mkWorld
    (set_webhook_logs
       [mkWebhookLog 1 "stripe_evt_1" "stripe" "customer.subscription.updated"
          Success
          (subscription_event "evt_1" "customer.subscription.updated" "sub_9"
             "past_due")
          None]
       sample_database)
    (sample_environment "active" "active" no_faults) [] [] 0 0.

(** A delivery of the event "evt_1", correctly signed. *)
Definition sample_request : Request := mkRequest "past_due" (Some "good").

(** A database that knows no customer yet, and the checkout of a new
    customer for the plan "price_pro_monthly". *)
Definition new_customer_world : World :=
  mkWorld (mkDatabase [] [] (plan_mappings sample_database) [] 1 1 1)
    (sample_environment "active" "active" no_faults) [] [] 0 0.

Definition new_customer_checkout : StripeWebhookEvent :=
  mkEvent "evt_7" "checkout.session.completed"
    (mkEventObject (Some "cs_7") (Some "cus_7") (Some "sub_7") (Some "complete")
       None (Some (mkCustomerDetails (Some "bob@example.com") None))
       (Some "price_pro_monthly") None)
    0.

(** A world in which the first requests fail with the given errors, in this
    order, and every later request is answered. *)
Definition flaky_world (errors : list JsError) : World :=
  mkWorld sample_database
    (sample_environment "active" "active" (fun n => nth_error errors n))
    [] [] 0 0.

Definition sample_world (paymentsStatus provisioningStatus : string) : World :=
  mkWorld sample_database
    (sample_environment paymentsStatus provisioningStatus no_faults) [] [] 0 0.

(** ** More of JavaScript *)

From Stdlib Require DecimalString Qround.

Module JsMore.

(** A number spliced into a template literal. *)
Definition show_number (n : nat) : string :=
  DecimalString.NilEmpty.string_of_uint (Nat.to_uint n).

(** A column of a row spliced into a template literal: NULL reads "null". *)
Definition show_column (s : option string) : string :=
  match s with
  | Some v => v
  | None => "null"
  end.

(** [error instanceof Error ? error.message : fallback]; everything that
    is thrown here is an [Error]. *)
Definition error_message (error : JsError) : string :=
  match error with
  | PlainError msg => msg
  | IsAppError e => message e
  end.

(** [s.charAt(i)]: the empty string when [i] is out of range. *)
Definition charAt (s : string) (i : Z) : string :=
  if i <? 0 then ""
  else match String.get (Z.to_nat i) s with
       | Some c => String c ""
       | None => ""
       end.

(** [Math.floor(x)] *)
Definition Math_floor (x : Q) : Z := Qround.Qfloor x.

End JsMore.

(** ** lib/subscription-manager: the sweep over all subscriptions

    The statement that lists the subscriptions to sweep,
    [DatabaseService.getAllActiveSubscriptions], is a parameter of
    [syncAllSubscriptions]: any computation that returns rows or throws. *)

Record SubscriptionSyncResult := mkSyncResult {
  success : bool;
  result_message : string;
  errors : option (list string)
}.

Module SubscriptionSweep.

Import JsMore.

(** [this.syncSingleSubscription(subscription.stripe_subscription_id!)]:
    the column may be NULL, the assertion is erased when the code is
    compiled, and [WHERE stripe_subscription_id = NULL] selects no row, so
    that the lookup is followed by the error for a subscription that is not
    found. *)
Definition syncListed (subscription : Subscription) : M unit :=
  match stripe_subscription_id subscription with
  | Some id => SubscriptionManager.syncSingleSubscription id
  | None =>
    DatabaseService.findSubscriptionByStripeId None ;;
    throw (PlainError "Subscription not found in database: null")
  end.

(** The [for ... of] loop, with the two variables that it updates. *)
Fixpoint sweep (subscriptions : list Subscription) (syncedCount : nat)
    (errors_ : list string) : M (nat * list string) :=
  match subscriptions with
  | [] => ret (syncedCount, errors_)
  | subscription :: rest =>
    failure <-
      try_catch (syncListed subscription ;; ret None)
        (fun error =>
           ret (Some ("Failed to sync subscription "
                      ++ show_column (stripe_subscription_id subscription)
                      ++ ": " ++ show_error error))) ;;
    match failure with
    | None => sweep rest (S syncedCount) errors_
    | Some errorMsg => sweep rest syncedCount (errors_ ++ [errorMsg])
    end
  end.

(** The object that is returned after the loop. *)
Definition summary (syncedCount : nat) (errors_ : list string)
    : SubscriptionSyncResult :=
  mkSyncResult
    (length errors_ =? 0)%nat
    ("Synced " ++ show_number syncedCount ++ " subscriptions"
     ++ (if (0 <? length errors_)%nat
         then " with " ++ show_number (length errors_) ++ " errors"
         else ""))
    (if (0 <? length errors_)%nat then Some errors_ else None).

Definition syncAllSubscriptions
    (getAllActiveSubscriptions : M (list Subscription))
    : M SubscriptionSyncResult :=
  try_catch
    (subscriptions <- getAllActiveSubscriptions ;;
     counted <- sweep subscriptions 0 [] ;;
     ret (summary (fst counted) (snd counted)))
    (fun error =>
       ret (mkSyncResult false ("Sync failed: " ++ show_error error)
              (Some [error_message error]))).

End SubscriptionSweep.

(** ** The admin endpoint for manual synchronization *)

Record AdminRequest := mkAdminRequest {
  authorization : option string;     (* request.headers.get("authorization") *)
  (* [await request.json()]: a SyntaxError, or the [subscriptionId] of the
     body *)
  request_json : JsError + option string
}.

Inductive AdminBody :=
| UnauthorizedBody                                  (* { error: "Unauthorized" } *)
| SyncedBody (note : string)                        (* { success: true, message } *)
| SweepBody (result : SubscriptionSyncResult)
| SyncFailureBody (error : string).                 (* { success: false, error } *)

Record AdminResponse := mkAdminResponse {
  admin_status : Z;
  admin_body : AdminBody
}.

Module AdminSync.

Import JsMore.

(** [POST] of the sync endpoint; [ADMIN_API_KEY] is the environment
    variable, which may be unset. *)
Definition POST (ADMIN_API_KEY : option string)
    (getAllActiveSubscriptions : M (list Subscription))
    (request : AdminRequest) : M AdminResponse :=
  try_catch
    (let authHeader := authorization request in
     if negb (Js.truthy authHeader)
        || negb (String.eqb (Js.show authHeader)
                   ("Bearer " ++ Js.show ADMIN_API_KEY))
     then ret (mkAdminResponse 401 UnauthorizedBody)
     else
       match request_json request with
       | inl error => throw error
       | inr subscriptionId =>
         if Js.truthy subscriptionId then
           SubscriptionManager.syncSingleSubscription (Js.show subscriptionId) ;;
           ret (mkAdminResponse 200
                  (SyncedBody ("Synced subscription "
                               ++ Js.show subscriptionId)))
         else
           result <- SubscriptionSweep.syncAllSubscriptions
                       getAllActiveSubscriptions ;;
           ret (mkAdminResponse 200 (SweepBody result))
       end)
    (fun error =>
       ret (mkAdminResponse 500 (SyncFailureBody (error_message error)))).

End AdminSync.

(** ** lib/enhance: the request loop and the password generator

    [fetch] and the parsing of a response body are parameters of
    [makeRequest]: any computations. *)

Record HttpResponse := mkHttpResponse {
  ok : bool;
  response_status : nat;
  response_text : string
}.

Module EnhanceHttp.

Import JsMore.

(** The body of the [try] block. *)
Definition attemptRequest {T} (fetch : M HttpResponse) (json : string -> M T)
    : M T :=
  response <- fetch ;;
  if negb (ok response) then
    throw (PlainError ("Enhance API error ("
                       ++ show_number (response_status response) ++ "): "
                       ++ response_text response))
  else json (response_text response).

(** The [for] loop, entered at [attempt] with [remaining] iterations to
    go. *)
Fixpoint requestLoop {T} (fetch : M HttpResponse) (json : string -> M T)
    (retries : Z) (remaining : nat) (attempt : Z) : M T :=
  match remaining with
  | O => throw (PlainError "All retry attempts failed")
  | S remaining' =>
    try_catch (attemptRequest fetch json) (fun error =>
      if attempt =? retries then throw error
      else
        let delay := inject_Z (2 ^ attempt * 1000) in
        ErrorHandler.setTimeout delay ;;
        requestLoop fetch json retries remaining' (attempt + 1))
  end.

Definition makeRequest {T} (fetch : M HttpResponse) (json : string -> M T)
    (retries : Z) : M T :=
  requestLoop fetch json retries (Z.to_nat retries) 1.

Definition charset : string :=
  "abcdefghijklmnopqrstuvwxyzABCDEFGHIJKLMNOPQRSTUVWXYZ0123456789!@#$%^&*".

(** The loop of [generateSecurePassword], with [remaining] characters to
    go. *)
Fixpoint passwordLoop (remaining : nat) (password : string) : M string :=
  match remaining with
  | O => ret password
  | S remaining' =>
    r <- ErrorHandler.Math_random ;;
    passwordLoop remaining'
      (password
       ++ charAt charset
            (Math_floor (r * inject_Z (Z.of_nat (String.length charset)))))
  end.

Definition generateSecurePassword : M string := passwordLoop 16 "".

End EnhanceHttp.

(** ** The health check endpoint

    What the three probes observe is the input: whether
    [DatabaseService.testConnection] returned and after how many
    milliseconds, what [EnhanceService.testConnection] returned and after
    how many, and which of the two Stripe variables are set. *)

Inductive HealthStatus := healthy | degraded | unhealthy.

Record Probes := mkProbes {
  database_connected : bool;
  database_responseTime : Z;
  enhance_connected : bool;
  enhance_responseTime : Z;
  hasSecretKey : bool;
  hasWebhookSecret : bool
}.

Module HealthCheck.

Definition checkDatabaseHealth (p : Probes) : HealthStatus :=
  if database_connected p
  then (if database_responseTime p <? 1000 then healthy else degraded)
  else unhealthy.

Definition checkEnhanceHealth (p : Probes) : HealthStatus :=
  if enhance_connected p
  then (if enhance_responseTime p <? 2000 then healthy else degraded)
  else unhealthy.

Definition checkStripeHealth (p : Probes) : HealthStatus :=
  if negb (hasSecretKey p) || negb (hasWebhookSecret p) then unhealthy
  else healthy.

Definition status_eqb (a b : HealthStatus) : bool :=
  match a, b with
  | healthy, healthy | degraded, degraded | unhealthy, unhealthy => true
  | _, _ => false
  end.

(** [serviceStatuses.includes(status)] *)
Definition includes (serviceStatuses : list HealthStatus) (st : HealthStatus)
    : bool :=
  existsb (status_eqb st) serviceStatuses.

(** The overall status and the HTTP status of [GET]. *)
Definition GET (p : Probes) : Z * HealthStatus :=
  let serviceStatuses :=
    [checkDatabaseHealth p; checkEnhanceHealth p; checkStripeHealth p] in
  let status_ :=
    if includes serviceStatuses unhealthy then unhealthy
    else if includes serviceStatuses degraded then degraded
    else healthy in
  let httpStatus :=
    match status_ with
    | healthy => 200
    | degraded => 200
    | unhealthy => 503
    end in
  (httpStatus, status_).

End HealthCheck.

(** ** Vocabulary of the further statements *)

(** The requests that only the sync path and the plan change make: the
    webhook route has no use for them. *)
Definition is_foreign_to_webhooks (c : Call) : bool :=
  match c with
  | EnhanceCancelSubscription _ | EnhanceChangeSubscriptionPlan _ _
  | EnhanceGetSubscription _ | StripeGetSubscription _
  | DbUpdateSubscriptionPlan _ _ => true
  | _ => false
  end.

(** The body of the error response of [POST] for a thrown error. *)
Definition failure_response (error : JsError) (w : World) : Response :=
  let appError :=
    ErrorHandler.categorizeError error
      [("requestId", CtxString (randomUUID (env w)))] in
  mkResponse (match category appError with VALIDATION => 400 | _ => 500 end)
    (FailureBody "Webhook processing failed" (message appError)
       (retryable appError)).

(** The error message that [handleWebhookError] stores in the ledger. *)
Definition ledger_message (error : JsError) : string :=
  let appError := ErrorHandler.categorizeError error [] in
  category_name (category appError) ++ ": " ++ message appError.

(** The email that the checkout handler takes from the event. *)
Definition checkout_email (event : StripeWebhookEvent) : option string :=
  match StripeService.extractCustomerData event with
  | Some customerData => cd_email customerData
  | None => None
  end.

(** The request is the lookup of the subscription with the given Stripe
    id. *)
Definition is_lookup_of (stripeId : option string) (c : Call) : bool :=
  match c with
  | DbFindSubscriptionByStripeId id =>
    match id, stripeId with
    | Some a, Some b => String.eqb a b
    | None, None => true
    | _, _ => false
    end
  | _ => false
  end.

(** The columns of a subscription row that the webhook route never
    writes: [id], [customer_id], [enhance_subscription_id],
    [stripe_subscription_id] and [enhance_plan_id].  The two columns that a
    status update sets are left out: [status], and the timestamp
    [updated_at], which the embedding does not keep. *)
Definition keeps_ids_and_plan (s s' : Subscription) : Prop :=
  subscription_pk s' = subscription_pk s
  /\ customer_id s' = customer_id s
  /\ enhance_subscription_id s' = enhance_subscription_id s
  /\ stripe_subscription_id s' = stripe_subscription_id s
  /\ enhance_plan_id s' = enhance_plan_id s.

(** What the webhook route may do to the three business tables: plan
    mappings stay as they are, customers and subscriptions are only added,
    and an existing subscription keeps its ids and its plan. *)
Definition RouteStep (w w' : World) : Prop :=
  plan_mappings (db w') = plan_mappings (db w)
  /\ (exists added : list Customer,
        customers (db w') = (customers (db w) ++ added)%list)
  /\ (exists added : list Subscription,
        Forall2 keeps_ids_and_plan (subscriptions (db w) ++ added)%list
          (subscriptions (db w'))).

(** The four tables hold the same rows; nothing is said of the sequences
    behind the [SERIAL] columns, which a rejected insertion advances. *)
Definition same_rows (d d' : Database) : Prop :=
  customers d' = customers d
  /\ subscriptions d' = subscriptions d
  /\ plan_mappings d' = plan_mappings d
  /\ webhook_logs d' = webhook_logs d.

(** What a change of plan does to the row of the subscription, column by
    column: the plan is set, and the ids, the customer and the status are
    kept.  (The statement sets the timestamp [updated_at] too, which the
    embedding does not keep.) *)
Definition plan_changed (enhancePlanId : string) (s s' : Subscription)
    : Prop :=
  enhance_plan_id s' = enhancePlanId
  /\ subscription_pk s' = subscription_pk s
  /\ customer_id s' = customer_id s
  /\ enhance_subscription_id s' = enhance_subscription_id s
  /\ stripe_subscription_id s' = stripe_subscription_id s
  /\ subscription_status s' = subscription_status s.

(** The response of [POST] to an error that its [try] block throws: the
    status follows the category that the classifier gives the error, the
    body carries the message and the retryability of the classified
    error. *)
Definition response_to (error : JsError) : Response :=
  let appError := ErrorHandler.categorizeError error [] in
  mkResponse (match category appError with VALIDATION => 400 | _ => 500 end)
    (FailureBody "Webhook processing failed" (message appError)
       (retryable appError)).

(** The runs of a sweep, one after the other from [w]: each listed
    subscription with the way its synchronisation ended. *)
Fixpoint sweep_runs (subscriptions : list Subscription) (w : World)
    : list (Subscription * Outcome unit) :=
  match subscriptions with
  | [] => []
  | subscription :: rest =>
    let (ended, w1) := SubscriptionSweep.syncListed subscription w in
    (subscription, ended) :: sweep_runs rest w1
  end.

Definition has_returned (run : Subscription * Outcome unit) : bool :=
  match snd run with
  | Returned _ => true
  | Thrown _ => false
  end.

(** The error messages of the runs that threw, in the order of the runs. *)
Definition failure_messages (runs : list (Subscription * Outcome unit))
    : list string :=
  flat_map (fun run =>
              match snd run with
              | Returned _ => []
              | Thrown error =>
                ["Failed to sync subscription "
                 ++ JsMore.show_column (stripe_subscription_id (fst run))
                 ++ ": " ++ show_error error]
              end)
    runs.

(** The request creates a subscription in the provisioning system. *)
Definition is_subscription_creation (c : Call) : bool :=
  match c with
  | EnhanceCreateSubscription _ _ => true
  | _ => false
  end.

(** The UNIQUE constraints of the subscriptions table leave room for a row
    with these two ids. *)
Definition subscription_ids_free (enhanceId : string) (stripeId : option string)
    (d : Database) : bool :=
  negb (existsb (fun s => String.eqb (enhance_subscription_id s) enhanceId
                          || DatabaseService.sql_eq (stripe_subscription_id s)
                               stripeId)
          (subscriptions d)).

(** The requests of one run of the checkout operation for a customer that
    the database knows. *)
Definition known_customer_checkout_calls (event : StripeWebhookEvent)
    (customer : Customer) (mapping : PlanMapping) (enhanceId : string)
    : list Call :=
  [DbFindCustomerByStripeId (obj_customer (data_object event));
   DbFindPlanMapping "stripe" (line_items_price (data_object event));
   EnhanceCreateSubscription (enhance_customer_id customer)
     (mapped_enhance_plan_id mapping);
   DbCreateSubscription enhanceId (obj_subscription (data_object event)) Active].

(** The requests of the sync path: the lookup of the subscription, the two
    status reads, a status action and the status update. *)
Definition is_sync_request (c : Call) : bool :=
  match c with
  | DbFindSubscriptionByStripeId _ | StripeGetSubscription _
  | EnhanceGetSubscription _ | EnhanceSuspendSubscription _
  | EnhanceReactivateSubscription _ | EnhanceCancelSubscription _
  | DbUpdateSubscriptionStatus _ _ => true
  | _ => false
  end.

(** The subscriptions table after [UPDATE ... SET enhance_plan_id WHERE id]. *)
Definition subscriptions_on_plan (id : Z) (enhancePlanId : string)
    (d : Database) : list Subscription :=
  map (fun s => if subscription_pk s =? id
                then DatabaseService.with_plan enhancePlanId s else s)
    (subscriptions d).

(** The request is a lookup of a subscription by its Stripe id. *)
Definition is_subscription_lookup (c : Call) : bool :=
  match c with
  | DbFindSubscriptionByStripeId _ => true
  | _ => false
  end.

(** The name that the checkout handler takes from the event. *)
Definition checkout_name (event : StripeWebhookEvent) : option string :=
  match StripeService.extractCustomerData event with
  | Some customerData => cd_name customerData
  | None => None
  end.

(** The constraints of the customers table accept a row with these
    values: the email has the shape of an email, and no row has the Enhance
    id, the Stripe id or the email yet. *)
Definition customer_accepted (enhanceId : string) (stripeId : option string)
    (email_ : string) (d : Database) : bool :=
  DatabaseService.email_check email_
  && negb (existsb (fun c => String.eqb (enhance_customer_id c) enhanceId
                             || DatabaseService.sql_eq (stripe_customer_id c)
                                  stripeId
                             || String.eqb (email c) email_)
             (customers d)).

(** The first three requests of the checkout of a customer that the
    database does not know, when the event carries an email. *)
Definition new_customer_calls (event : StripeWebhookEvent) (email_ : string)
    (enhanceId : string) : list Call :=
  [DbFindCustomerByStripeId (obj_customer (data_object event));
   EnhanceCreateCustomer (Some email_);
   DbCreateCustomer enhanceId (obj_customer (data_object event)) (Some email_)].

(** The three requests that follow them. *)
Definition new_subscription_calls (event : StripeWebhookEvent)
    (customerEnhanceId : string) (mapping : PlanMapping) (enhanceId : string)
    : list Call :=
  [DbFindPlanMapping "stripe" (line_items_price (data_object event));
   EnhanceCreateSubscription customerEnhanceId (mapped_enhance_plan_id mapping);
   DbCreateSubscription enhanceId (obj_subscription (data_object event)) Active].

(** ** More sample worlds *)

(** Only the request number [k] of a run fails, with [error]. *)
Definition failing_at (k : nat) (error : JsError) : nat -> option JsError :=
  fun n => if Nat.eqb n k then Some error else None.

(** An environment like the sample one, in which the signature check reads
    every body signed "good" as the given event, and Stripe has the given
    email and name for every customer. *)
Definition delivering (event : StripeWebhookEvent)
    (stripeCustomer : option string * option string) : Environment :=
  mkEnvironment no_faults
    (PlainError "duplicate key value violates unique constraint")
    (fun _ signature =>
       if String.eqb signature "good" then inr event
       else inl (PlainError "No signatures found matching the expected signature"))
    (fun _ => "active")
    (fun _ => stripeCustomer)
    (fun _ => "active")
    (fun _ => "enh_new")
    (fun _ => 1 # 2)%Q
    "6f1c2a9e-0000-4000-8000-000000000001".

(** The sample database at the moment [event] is delivered. *)
Definition world_receiving (event : StripeWebhookEvent) : World :=
  mkWorld sample_database
    (delivering event (Some "ada@example.com", Some "Ada")) [] [] 0 0.

(** A checkout session that carries neither an email nor a name, of a
    customer for whom Stripe has neither, delivered to the sample
    database. *)
Definition anonymous_checkout : StripeWebhookEvent :=
  mkEvent "evt_6" "checkout.session.completed"
    (mkEventObject (Some "cs_6") (Some "cus_6") (Some "sub_6") (Some "complete")
       None None (Some "price_pro_monthly") None)
    0.

Definition anonymous_world : World :=
  mkWorld sample_database (delivering anonymous_checkout (None, None)) [] [] 0 0.

(** A customer row that has been soft-deleted, in the sample database. *)
Definition deleted_customer_world : World :=
  mkWorld
    (mkDatabase
       [mkCustomer 1 "enh_cus_1" (Some "cus_1") "ada@example.com" (Some "Ada")
          true]
       [] (plan_mappings sample_database) [] 2 1 1)
    (sample_environment "active" "active" no_faults) [] [] 0 0.

(** A listing that returns the subscriptions of the database that are
    active or suspended, the newest first. *)
Definition sample_listing : M (list Subscription) :=
  fun w =>
    (Returned
       (rev (filter (fun s => match subscription_status s with
                              | Canceled => false
                              | _ => true
                              end)
               (subscriptions (db w)))), w).

(** * Theorems *)

(** ** Strings *)

Lemma prefix_iff (p s : string) :
  String.prefix p s = true <-> exists rest, s = p ++ rest.
Proof.
  revert s; induction p as [|c p IH]; intros s.
  - destruct s; simpl; split; eauto.
  - destruct s as [|d s]; simpl.
    + split; [discriminate | intros [rest H]; discriminate].
    + destruct (Ascii.ascii_dec c d) as [->|ne].
      * rewrite IH. split; intros [rest H]; exists rest.
        -- now rewrite H.
        -- now injection H.
      * split; [discriminate|].
        intros [rest H]; injection H as H1 H2; congruence.
Qed.

Lemma includes_iff (hay needle : string) :
  Js.includes hay needle = true <-> Js.Occurs needle hay.
Proof.
  unfold Js.Occurs.
  induction hay as [|c hay IH].
  - cbn [Js.includes]. rewrite orb_false_r, prefix_iff. split.
    + intros [rest H]. now exists "", rest.
    + intros [[|b before] [rest H]]; [now exists rest | discriminate].
  - cbn [Js.includes]. rewrite orb_true_iff, prefix_iff, IH. split.
    + intros [[rest H] | [before [rest H]]].
      * now exists "", rest.
      * exists (String c before), rest. now rewrite H.
    + intros [[|b before] [rest H]].
      * left. now exists rest.
      * right. exists before, rest. now injection H.
Qed.

Lemma mentions_iff (group : list string) (msg : string) :
  existsb (Js.includes (Js.toLowerCase msg)) group = true
  <-> Spec.Mentions group msg.
Proof.
  unfold Spec.Mentions. rewrite existsb_exists.
  split; intros [k [Hin H]]; exists k; split; auto; now apply includes_iff.
Qed.

Example toLowerCase_folds_ascii_letters :
  Js.toLowerCase "Fetch FAILED: [Z@`{" = "fetch failed: [z@`{".
Proof. reflexivity. Qed.

Example includes_finds_a_substring :
  Js.includes "connection refused" "connection" = true
  /\ Js.includes "refused" "connection" = false
  /\ Js.includes "refused" "" = true.
Proof. repeat split. Qed.

(** ** The error classifier *)

(** The first group decides: a message with "fetch" and "token" is an
    ExternalApi error. *)
Example categorizeError_first_group_wins :
  ErrorHandler.categorizeError (PlainError "Failed to fetch token") []
  = mkAppError "Failed to fetch token" EXTERNAL_API HIGH true [].
Proof. reflexivity. Qed.

Lemma categorizeError_plain (msg : string) (ctx : Context) :
  let lowered := Js.toLowerCase msg in
  ErrorHandler.categorizeError (PlainError msg) ctx =
  if existsb (Js.includes lowered) ["fetch"; "network"; "timeout"]
  then mkAppError msg EXTERNAL_API HIGH true ctx
  else if existsb (Js.includes lowered) ["database"; "sql"; "connection"]
  then mkAppError msg DATABASE HIGH true ctx
  else if existsb (Js.includes lowered) ["unauthorized"; "forbidden"; "token"]
  then mkAppError msg AUTHENTICATION MEDIUM false ctx
  else if existsb (Js.includes lowered) ["validation"; "invalid"; "required"]
  then mkAppError msg VALIDATION LOW false ctx
  else mkAppError msg SYSTEM MEDIUM false ctx.
Proof.
  cbn [existsb ErrorHandler.categorizeError]. now rewrite !orb_false_r, !orb_assoc.
Qed.

(** A plain error is never classified as a business-logic error. *)
Lemma categorizeError_plain_not_business_logic (msg : string) (ctx : Context) :
  category (ErrorHandler.categorizeError (PlainError msg) ctx) <> BUSINESS_LOGIC.
Proof.
  rewrite categorizeError_plain.
  repeat match goal with |- context [if ?b then _ else _] => destruct b end;
    discriminate.
Qed.

(** C6.  An [AppError] goes through the classifier unchanged, whatever its
    message says.  Any other error keeps its message and gets the category
    and the retryability of the first keyword group of section 4.6 that its
    message mentions (fetch/network/timeout: ExternalApi, retryable;
    database/sql/connection: Database, retryable;
    unauthorized/forbidden/token: Authentication, not retryable;
    validation/invalid/required: Validation, not retryable), and System, not
    retryable, when it mentions none. *)
Theorem categorizeError_follows_keyword_table :
  (forall (ae : AppError) (ctx : Context),
     ErrorHandler.categorizeError (IsAppError ae) ctx = ae)
  /\
  (forall (msg : string) (ctx : Context),
     let classified := ErrorHandler.categorizeError (PlainError msg) ctx in
     message classified = msg
     /\ Spec.Classifies Spec.keyword_table msg
          (category classified, retryable classified)).
Proof.
  split; [reflexivity|].
  intros msg ctx classified; subst classified.
  rewrite categorizeError_plain. unfold Spec.keyword_table.
  repeat match goal with
         | |- context [if existsb ?f ?g then _ else _] =>
           let E := fresh "E" in
           destruct (existsb f g) eqn:E;
           [ apply mentions_iff in E
           | assert (~ Spec.Mentions g msg)
               by (rewrite <- mentions_iff; congruence); clear E ]
         end;
    (split; [reflexivity|]); cbn [category retryable];
    repeat (first [ apply Spec.first_match; assumption
                  | apply Spec.later_match; [assumption|]
                  | apply Spec.unmatched ]).
Qed.

(** ** The extractor *)

Lemma extractSubscriptionData_supported (event : StripeWebhookEvent) :
  StripeService.extractSubscriptionData event <> None <->
  In (event_type event)
    ["checkout.session.completed"; "customer.subscription.created";
     "customer.subscription.updated"; "customer.subscription.deleted"].
Proof.
  unfold StripeService.extractSubscriptionData. cbn [In].
  destruct (String.eqb_spec (event_type event) "checkout.session.completed");
  destruct (String.eqb_spec (event_type event) "customer.subscription.created");
  destruct (String.eqb_spec (event_type event) "customer.subscription.updated");
  destruct (String.eqb_spec (event_type event) "customer.subscription.deleted");
  cbn [orb]; split; intros H; try congruence; try tauto; try discriminate;
  intuition congruence.
Qed.

(** C9, as the code has it.  The projection of a subscription lifecycle
    event (created, updated, deleted) carries the status of the event's
    object; the projection of a checkout-completion event carries the
    constant "active", whatever status the session object has. *)
Theorem extractSubscriptionData_status (event : StripeWebhookEvent)
    (projection : SubscriptionData) :
  StripeService.extractSubscriptionData event = Some projection ->
  (event_type event = "checkout.session.completed" ->
   status projection = Some "active")
  /\
  (In (event_type event)
     ["customer.subscription.created"; "customer.subscription.updated";
      "customer.subscription.deleted"] ->
   status projection = obj_status (data_object event)).
Proof.
  unfold StripeService.extractSubscriptionData. cbn [In].
  destruct (String.eqb_spec (event_type event) "checkout.session.completed")
    as [E|NE].
  - intros [= <-]. split; [reflexivity|].
    rewrite E. intros [H|[H|[H|[]]]]; discriminate.
  - destruct (_ || _); [|discriminate].
    intros [= <-]. split; [contradiction | reflexivity].
Qed.

Lemma extractSubscriptionData_status_witness :
  let event :=
    mkEvent "evt_2" "customer.subscription.updated"
      (mkEventObject (Some "sub_1") (Some "cus_1") None (Some "past_due") None
         None None (Some "price_pro_monthly")) 0 in
  status (mkSubscriptionData (Some "sub_1") (Some "cus_1")
            (Some "price_pro_monthly") (Some "past_due"))
  = obj_status (data_object event).
Proof.
  intros event.
  apply (extractSubscriptionData_status event); [reflexivity|].
  cbn. tauto.
Defined.

(** C9 as the specification words it fails on a checkout session, whose
    own status is "complete". *)
Lemma checkout_projection_ignores_session_status :
  ~ (forall event projection,
       StripeService.extractSubscriptionData event = Some projection ->
       status projection = obj_status (data_object event)).
Proof.
  intros H.
  specialize (H (mkEvent "evt_1" "checkout.session.completed"
                   (mkEventObject (Some "cs_1") (Some "cus_1") (Some "sub_1")
                      (Some "complete") None None None None) 0)
                _ eq_refl).
  discriminate H.
Qed.

(** ** Running computations *)

Lemma bind_returned {A B} (m : M A) (k : A -> M B) w a w' :
  m w = (Returned a, w') -> bind m k w = k a w'.
Proof. unfold bind. now intros ->. Qed.

Lemma bind_thrown {A B} (m : M A) (k : A -> M B) w e w' :
  m w = (Thrown e, w') -> bind m k w = (Thrown e, w').
Proof. unfold bind. now intros ->. Qed.

Lemma try_returned {A} (m : M A) (h : JsError -> M A) w a w' :
  m w = (Returned a, w') -> try_catch m h w = (Returned a, w').
Proof. unfold try_catch. now intros ->. Qed.

Lemma try_thrown {A} (m : M A) (h : JsError -> M A) w e w' :
  m w = (Thrown e, w') -> try_catch m h w = h e w'.
Proof. unfold try_catch. now intros ->. Qed.

Lemma request_answered {A} (c : Call) (answer : World -> Outcome A * World) w :
  answers w -> request c answer w = answer (record c w).
Proof. unfold answers, request. now intros ->. Qed.

(** ** Relations that every step of a computation respects *)

Section Stepwise.

Variable R : World -> World -> Prop.
Hypothesis R_stepwise : Stepwise R.

Let R_refl : forall w, R w w := proj1 R_stepwise.
Let R_trans : forall w1 w2 w3, R w1 w2 -> R w2 w3 -> R w1 w3 :=
  proj1 (proj2 R_stepwise).
Let R_observational : Observational R := proj2 (proj2 R_stepwise).

Lemma Steps_ret {A} (a : A) : Steps R (ret a).
Proof. intros w. apply R_refl. Qed.

Lemma Steps_throw {A} (e : JsError) : Steps R (@throw A e).
Proof. intros w. apply R_refl. Qed.

Lemma Steps_bind {A B} (m : M A) (k : A -> M B) :
  Steps R m -> (forall a, Steps R (k a)) -> Steps R (bind m k).
Proof.
  intros Hm Hk w. unfold after, bind.
  specialize (Hm w). unfold after in Hm.
  destruct (m w) as [[a|e] w1]; cbn [snd] in *; [|assumption].
  eapply R_trans; [eassumption|]. apply Hk.
Qed.

Lemma Steps_try_catch {A} (m : M A) (h : JsError -> M A) :
  Steps R m -> (forall e, Steps R (h e)) -> Steps R (try_catch m h).
Proof.
  intros Hm Hh w. unfold after, try_catch.
  specialize (Hm w). unfold after in Hm.
  destruct (m w) as [[a|e] w1]; cbn [snd] in *; [assumption|].
  eapply R_trans; [eassumption|]. apply Hh.
Qed.

Lemma Steps_request {A} (c : Call) (answer : World -> Outcome A * World) :
  (forall w, R w (record c w)) ->
  (forall w, R w (snd (answer w))) ->
  Steps R (request c answer).
Proof.
  intros Hc Ha w. unfold after, request.
  destruct (faults _ _); cbn [snd]; [apply Hc|].
  eapply R_trans; [apply Hc | apply Ha].
Qed.

Lemma Steps_query {A} (c : Call) (select : Database -> A) :
  (forall w, R w (record c w)) -> Steps R (query c select).
Proof. intros Hc. apply Steps_request; [assumption | intros w; apply R_refl]. Qed.

Lemma Steps_remote {A} (c : Call) (answer : Environment -> nat -> A) :
  (forall w, R w (record c w)) -> Steps R (remote c answer).
Proof. intros Hc. apply Steps_request; [assumption | intros w; apply R_refl]. Qed.

Lemma Steps_statement {A} (c : Call) (run : Database -> option (A * Database)) :
  (forall w, R w (record c w)) ->
  (forall w a d, run (db w) = Some (a, d) -> R w (set_db d w)) ->
  Steps R (statement c run).
Proof.
  intros Hc Hr. apply Steps_request; [assumption|].
  intros w. destruct (run (db w)) as [[a d]|] eqn:E; cbn [snd].
  - eapply Hr; eassumption.
  - apply R_refl.
Qed.

Lemma Steps_Math_random : Steps R ErrorHandler.Math_random.
Proof. intros w. eapply R_observational; [| | |apply R_refl]; reflexivity. Qed.

Lemma Steps_setTimeout (delay : Q) : Steps R (ErrorHandler.setTimeout delay).
Proof. intros w. eapply R_observational; [| | |apply R_refl]; reflexivity. Qed.

Lemma Steps_backoff (baseDelay attempt : Z) :
  Steps R (ErrorHandler.backoff baseDelay attempt).
Proof.
  apply Steps_bind; [apply Steps_Math_random | intros r; apply Steps_setTimeout].
Qed.

Lemma Steps_invoke {T} (operation : M T) :
  Steps R operation -> Steps R (ErrorHandler.invoke operation).
Proof.
  intros H w. unfold after, ErrorHandler.invoke.
  eapply R_trans; [|apply H].
  eapply R_observational; [| | |apply R_refl]; reflexivity.
Qed.

Lemma Steps_exhausted {T} (lastError : option JsError) (maxRetries : Z) :
  Steps R (@ErrorHandler.exhausted T lastError maxRetries).
Proof. destruct lastError; apply Steps_throw. Qed.

Lemma Steps_attempts {T} (operation : M T) (maxRetries baseDelay : Z) :
  Steps R operation ->
  forall remaining attempt lastError,
    Steps R (ErrorHandler.attempts operation maxRetries baseDelay remaining
               attempt lastError).
Proof.
  intros Hop. induction remaining as [|remaining IH]; intros attempt lastError.
  - apply Steps_exhausted.
  - cbn [ErrorHandler.attempts].
    apply Steps_try_catch; [now apply Steps_invoke|].
    intros e. destruct (negb _); [apply Steps_throw|].
    destruct (attempt =? maxRetries); [apply Steps_exhausted|].
    apply Steps_bind; [apply Steps_backoff | intros _; apply IH].
Qed.

Lemma Steps_withRetry {T} (operation : M T) (maxRetries baseDelay : Z) :
  Steps R operation ->
  Steps R (ErrorHandler.withRetry operation maxRetries baseDelay).
Proof. intros H. now apply Steps_attempts. Qed.

Lemma Steps_verifyWebhookSignature (payload signature : string) :
  Steps R (StripeService.verifyWebhookSignature payload signature).
Proof.
  intros w. unfold after, StripeService.verifyWebhookSignature.
  destruct (constructEvent _ _ _); apply R_refl.
Qed.

End Stepwise.

(** ** The relations used below are stepwise *)

Lemma calls_since_app (w w' : World) (calls : list Call) :
  trace w' = (trace w ++ calls)%list -> calls_since w w' = calls.
Proof.
  unfold calls_since. intros ->.
  rewrite skipn_app, skipn_all, Nat.sub_diag. reflexivity.
Qed.

Lemma Continues_calls_since (allowed : Call -> bool) (w w' : World) :
  Continues allowed w w' ->
  trace w' = (trace w ++ calls_since w w')%list
  /\ forallb allowed (calls_since w w') = true.
Proof.
  intros [_ [calls [Ht Ha]]]. now rewrite (calls_since_app _ _ _ Ht).
Qed.

Lemma Stepwise_Continues (allowed : Call -> bool) : Stepwise (Continues allowed).
Proof.
  unfold Stepwise, Observational, Continues. repeat split.
  - exists []. now rewrite app_nil_r.
  - destruct H, H0. congruence.
  - destruct H as [_ [c1 [T1 A1]]], H0 as [_ [c2 [T2 A2]]].
    exists (c1 ++ c2)%list. rewrite T2, T1, <- app_assoc, forallb_app, A1, A2.
    now split.
  - destruct H2; congruence.
  - destruct H2 as [_ [c [T A]]]. exists c. split; congruence.
Qed.

Lemma Continues_record (allowed : Call -> bool) (c : Call) :
  allowed c = true -> forall w, Continues allowed w (record c w).
Proof.
  intros H w. split; [reflexivity|]. exists [c]. cbn. now rewrite H.
Qed.

Lemma Continues_set_db (allowed : Call -> bool) (d : Database) (w : World) :
  Continues allowed w (set_db d w).
Proof. split; [reflexivity|]. exists []. cbn. now rewrite app_nil_r. Qed.

Lemma Stepwise_SameDatabase : Stepwise SameDatabase.
Proof.
  unfold Stepwise, Observational, SameDatabase. repeat split; congruence.
Qed.

Lemma Stepwise_SameLedger : Stepwise SameLedger.
Proof.
  unfold Stepwise, Observational, SameLedger. repeat split; congruence.
Qed.

Lemma Stepwise_SamePlanMappings : Stepwise SamePlanMappings.
Proof.
  unfold Stepwise, Observational, SamePlanMappings. repeat split; congruence.
Qed.

Lemma row_step_refl (key : string) (l : list WebhookLog) :
  Forall2 (row_step key) l l.
Proof. induction l; constructor; auto. now split. Qed.

Lemma row_step_trans (key : string) (l1 l2 l3 : list WebhookLog) :
  Forall2 (row_step key) l1 l2 -> Forall2 (row_step key) l2 l3 ->
  Forall2 (row_step key) l1 l3.
Proof.
  intros H; revert l3; induction H as [|a b l1 l2 [K E] _ IH]; intros l3 H3;
    inversion H3 as [|b' c l2' l3' [K' E'] H3']; subst; constructor; auto.
  split; [congruence|]. intros ne. rewrite E', E; congruence.
Qed.

Lemma row_step_keys (key : string) (l1 l2 : list WebhookLog) :
  Forall2 (row_step key) l1 l2 ->
  map idempotency_key l2 = map idempotency_key l1.
Proof.
  induction 1 as [|a b l1 l2 [K _] _ IH]; cbn; congruence.
Qed.

Lemma existsb_key_map (key : string) (l : list WebhookLog) :
  existsb (fun r => String.eqb (idempotency_key r) key) l
  = existsb (fun k => String.eqb k key) (map idempotency_key l).
Proof. induction l; cbn; congruence. Qed.

Lemma Stepwise_LedgerStep (key : string) : Stepwise (LedgerStep key).
Proof.
  unfold Stepwise, Observational, LedgerStep. repeat split.
  - intros w. exists []. rewrite app_nil_r. split; [apply row_step_refl | now left].
  - intros w1 w2 w3 [n1 [F1 C1]] [n2 [F2 C2]].
    destruct C2 as [->|[fresh2 [r2 [-> K2]]]].
    + exists n1. rewrite app_nil_r in F2. split; [|assumption].
      eapply row_step_trans; eassumption.
    + assert (n1 = []) as ->.
      { destruct C1 as [->|[_ [r1 [-> K1]]]]; [reflexivity|].
        apply row_step_keys in F1.
        rewrite existsb_key_map, F1, map_app, existsb_app in fresh2.
        cbn in fresh2. rewrite K1, String.eqb_refl, orb_true_r in fresh2.
        discriminate. }
      rewrite app_nil_r in F1. exists [r2]. split.
      * eapply row_step_trans; [|eassumption].
        apply Forall2_app; [assumption | apply row_step_refl].
      * right. split; [|eauto].
        rewrite existsb_key_map in fresh2 |- *.
        now rewrite <- (row_step_keys _ _ _ F1).
  - intros w w1 w2 D _ _ [n [F C]]. exists n. now rewrite D.
Qed.

Lemma LedgerStep_same (key : string) (w w' : World) :
  SameLedger w w' -> LedgerStep key w w'.
Proof.
  intros H. exists []. rewrite app_nil_r, H.
  split; [apply row_step_refl | now left].
Qed.

(** ** Requests that are answered *)

Lemma query_run {A} (c : Call) (select : Database -> A) (w : World) :
  answers w -> query c select w = (Returned (select (db w)), record c w).
Proof. intros H. unfold query. now rewrite request_answered. Qed.

Lemma statement_run {A} (c : Call) (run : Database -> option (A * Database))
    (w : World) (a : A) (d : Database) :
  answers w -> run (db w) = Some (a, d) ->
  statement c run w = (Returned a, set_db d (record c w)).
Proof.
  intros H E. unfold statement. rewrite request_answered by assumption.
  cbn [db record]. now rewrite E.
Qed.

(** ** The retry executor *)

(** The world in which [withRetry] runs its operation. *)
Lemma invoke_run {T} (operation : M T) (w : World) :
  ErrorHandler.invoke operation w
  = operation (mkWorld (db w) (env w) (trace w) (sleeps w) (randoms_drawn w)
                 (S (invocations w))).
Proof. reflexivity. Qed.

Lemma withRetry_first_try {T} (operation : M T) (maxRetries baseDelay : Z)
    (w w' : World) (v : T) :
  0 < maxRetries ->
  ErrorHandler.invoke operation w = (Returned v, w') ->
  ErrorHandler.withRetry operation maxRetries baseDelay w = (Returned v, w').
Proof.
  intros Hpos H. unfold ErrorHandler.withRetry.
  destruct (Z.to_nat maxRetries) eqn:E; [lia|].
  cbn [ErrorHandler.attempts]. now apply try_returned.
Qed.

(** A failure that is not retryable ends [withRetry] at once, with the
    classified error. *)
Lemma withRetry_not_retryable {T} (operation : M T) (maxRetries baseDelay : Z)
    (w w' : World) (e : JsError) :
  0 < maxRetries ->
  ErrorHandler.invoke operation w = (Thrown e, w') ->
  retryable (ErrorHandler.categorizeError e []) = false ->
  ErrorHandler.withRetry operation maxRetries baseDelay w
  = (Thrown (IsAppError (ErrorHandler.categorizeError e [])), w').
Proof.
  intros Hpos H Hr. unfold ErrorHandler.withRetry.
  destruct (Z.to_nat maxRetries) eqn:E; [lia|].
  cbn [ErrorHandler.attempts]. rewrite (try_thrown _ _ _ _ _ H).
  now rewrite Hr.
Qed.

(** ** The status table *)

Lemma targetStatus_table (s : string) :
  SubscriptionManager.targetStatus s = Spec.target s.
Proof.
  unfold SubscriptionManager.targetStatus, Spec.target. cbn.
  rewrite !orb_false_r.
  rewrite !(String.eqb_sym s).
  repeat match goal with |- context [String.eqb ?a s] => destruct (String.eqb a s) end;
    reflexivity.
Qed.

Lemma target_cases (s : string) :
  match Spec.target s with
  | Some Active => s = "active"
  | Some Suspended => s = "past_due" \/ s = "unpaid"
  | Some Canceled => s = "canceled" \/ s = "incomplete_expired"
  | None => s <> "active" /\ s <> "past_due" /\ s <> "unpaid"
            /\ s <> "canceled" /\ s <> "incomplete_expired"
  end.
Proof.
  rewrite <- targetStatus_table. unfold SubscriptionManager.targetStatus.
  destruct (String.eqb_spec s "active"); [assumption|].
  destruct (String.eqb_spec s "past_due"); [now left|].
  destruct (String.eqb_spec s "unpaid"); [now right|].
  destruct (String.eqb_spec s "canceled"); [now left|].
  destruct (String.eqb_spec s "incomplete_expired"); [now right|].
  cbn. tauto.
Qed.

(** ** Following a handler through a stepwise relation *)

Ltac split_on_scrutinee :=
  match goal with
  | |- Steps _ (match ?x with _ => _ end) => destruct x
  | |- Steps _ (bind (match ?x with _ => _ end) _) => destruct x
  end.

(** [follow HR leaf] decomposes a goal [Steps R m] along the structure of
    [m]; [HR] proves [Stepwise R] and [leaf] proves what is asked of a single
    request. *)
Ltac follow HR leaf :=
  repeat first
    [ apply (Steps_ret _ HR)
    | apply (Steps_throw _ HR)
    | apply (Steps_withRetry _ HR)
    | apply (Steps_verifyWebhookSignature _ HR)
    | apply (Steps_query _ HR); leaf
    | apply (Steps_remote _ HR); leaf
    | apply (Steps_statement _ HR); leaf
    | apply (Steps_bind _ HR); [|intro]
    | apply (Steps_try_catch _ HR); [|intro]
    | split_on_scrutinee ].

Ltac unfold_services :=
  unfold DatabaseService.findCustomerByStripeId, DatabaseService.createCustomer,
    DatabaseService.findSubscriptionByStripeId,
    DatabaseService.createSubscription,
    DatabaseService.updateSubscriptionStatus, DatabaseService.findPlanMapping,
    DatabaseService.logWebhook, DatabaseService.updateWebhookStatus,
    DatabaseService.webhookExists, DatabaseService.updateSubscriptionPlan,
    StripeService.getCustomer, StripeService.getSubscription,
    EnhanceService.createCustomer, EnhanceService.createSubscription,
    EnhanceService.suspendSubscription, EnhanceService.reactivateSubscription,
    EnhanceService.cancelSubscription, EnhanceService.getSubscription,
    EnhanceService.changeSubscriptionPlan.

Ltac allowed_request :=
  first [ apply Continues_record; reflexivity
        | intros; apply Continues_set_db ].

Ltac untouched :=
  first [ intro; reflexivity
        | let H := fresh in
          intros ? ? ? H;
          repeat match type of H with
                 | context [match ?x with _ => _ end] => destruct x
                 end;
          first [ discriminate H
                | injection H as <- <-; reflexivity ] ].

(** *** The event-driven update handler, for a status outside the table *)

Lemma strict_eq_outside_table (s : option string) :
  match s with Some v => Spec.target v | None => None end = None ->
  Js.strict_eq s "active" = false
  /\ Js.strict_eq s "past_due" || Js.strict_eq s "unpaid" = false
  /\ Js.strict_eq s "canceled" || Js.strict_eq s "incomplete_expired" = false.
Proof.
  destruct s as [v|]; [|now cbn].
  intros H. pose proof (target_cases v) as C. rewrite H in C.
  destruct C as (n1 & n2 & n3 & n4 & n5). cbn [Js.strict_eq].
  apply String.eqb_neq in n1, n2, n3, n4, n5.
  now rewrite n1, n2, n3, n4, n5.
Qed.

Lemma subscriptionUpdated_outside_table (event : StripeWebhookEvent) :
  event_type event = "customer.subscription.updated" ->
  match obj_status (data_object event) with
  | Some v => Spec.target v
  | None => None
  end = None ->
  Steps (Continues is_read) (Webhook.subscriptionUpdated event)
  /\ Steps SameDatabase (Webhook.subscriptionUpdated event).
Proof.
  intros Ht Hs. apply strict_eq_outside_table in Hs as (E1 & E2 & E3).
  unfold Webhook.subscriptionUpdated, StripeService.extractSubscriptionData.
  rewrite Ht. cbn [String.eqb Ascii.eqb Bool.eqb orb status stripeSubscriptionId].
  rewrite E1, E2, E3. unfold_services.
  split.
  - follow (Stepwise_Continues is_read) allowed_request.
  - follow Stepwise_SameDatabase untouched.
Qed.

Lemma Continues_trans (allowed : Call -> bool) (w1 w2 w3 : World) :
  Continues allowed w1 w2 -> Continues allowed w2 w3 -> Continues allowed w1 w3.
Proof. apply (Stepwise_Continues allowed). Qed.

Lemma Continues_refl (allowed : Call -> bool) (w : World) :
  Continues allowed w w.
Proof. apply (Stepwise_Continues allowed). Qed.

(** Case analysis on every request of a run: does it fail, and what does a
    lookup find. *)
Ltac run_cases :=
  repeat (match goal with
          | |- context [match faults ?e ?n with _ => _ end] =>
            destruct (faults e n)
          | |- context [match DatabaseService.first_row ?l with _ => _ end] =>
            destruct (DatabaseService.first_row l)
          end;
          cbn [fst snd env db trace record set_db]).

Ltac continues :=
  repeat first
    [ apply Continues_refl
    | eapply Continues_trans;
      [|first [apply Continues_record; reflexivity | apply Continues_set_db]] ].

Ltac unfold_run :=
  unfold_services; unfold bind, statement, query, remote, request, throw, ret.

Ltac same_world :=
  unfold subscriptions_with, set_db, record;
  cbn [db env trace sleeps randoms_drawn invocations];
  rewrite <- ?app_assoc; reflexivity.

(** *** The bulk-sync path, for a status outside the table *)

Lemma syncSingleSubscription_outside_table (id : string) (w : World) :
  Spec.target (stripe_subscription_status (env w) id) = None ->
  Continues is_read w (after (SubscriptionManager.syncSingleSubscription id) w)
  /\ SameDatabase w (after (SubscriptionManager.syncSingleSubscription id) w).
Proof.
  intros H.
  unfold SubscriptionManager.syncSingleSubscription, after. unfold_run.
  run_cases; rewrite ?targetStatus_table, ?H; cbn [snd];
    (split; [continues | reflexivity]).
Qed.

(** *** Runs in which every request is answered *)

Lemma status_name_injective (a b : SubscriptionStatus) :
  String.eqb (status_name a) (status_name b) = true -> a = b.
Proof. destruct a, b; cbn; congruence. Qed.

Lemma handleSubscriptionUpdated_run (event : StripeWebhookEvent) (w : World)
    (s : string) (t : SubscriptionStatus) (sub : Subscription) :
  event_type event = "customer.subscription.updated" ->
  obj_status (data_object event) = Some s ->
  Spec.target s = Some t ->
  subscription_of (obj_id (data_object event)) (db w) = Some sub ->
  fault_free w ->
  Webhook.handleSubscriptionUpdated event w
  = (Returned tt,
     mkWorld
       (set_subscriptions (subscriptions_with (subscription_pk sub) t (db w))
          (db w))
       (env w)
       (trace w ++ [DbFindSubscriptionByStripeId (obj_id (data_object event));
                    update_action t (enhance_subscription_id sub);
                    DbUpdateSubscriptionStatus (subscription_pk sub) t])
       (sleeps w) (randoms_drawn w) (S (invocations w))).
Proof.
  intros Ht Hs Htarget Hsub Hff.
  unfold Webhook.handleSubscriptionUpdated.
  apply withRetry_first_try; [lia|].
  rewrite invoke_run.
  unfold Webhook.subscriptionUpdated, StripeService.extractSubscriptionData.
  rewrite Ht. cbn [String.eqb Ascii.eqb Bool.eqb orb status stripeSubscriptionId].
  rewrite Hs. unfold_run.
  unfold subscription_of in Hsub. unfold fault_free in Hff.
  cbn [env db trace record set_db]. rewrite Hff, Hsub.
  pose proof (target_cases s) as C. rewrite Htarget in C.
  destruct t; [ subst s | destruct C; subst s | destruct C; subst s ];
    cbn -[Z.eqb]; rewrite !Hff; cbn -[Z.eqb]; rewrite ?Hff; cbn -[Z.eqb].
  all: same_world.
Qed.

Lemma handleSubscriptionDeleted_run (event : StripeWebhookEvent) (w : World)
    (sub : Subscription) :
  event_type event = "customer.subscription.deleted" ->
  subscription_of (obj_id (data_object event)) (db w) = Some sub ->
  fault_free w ->
  Webhook.handleSubscriptionDeleted event w
  = (Returned tt,
     mkWorld
       (set_subscriptions
          (subscriptions_with (subscription_pk sub) Canceled (db w)) (db w))
       (env w)
       (trace w ++ [DbFindSubscriptionByStripeId (obj_id (data_object event));
                    EnhanceSuspendSubscription (enhance_subscription_id sub);
                    DbUpdateSubscriptionStatus (subscription_pk sub) Canceled])
       (sleeps w) (randoms_drawn w) (S (invocations w))).
Proof.
  intros Ht Hsub Hff.
  unfold Webhook.handleSubscriptionDeleted.
  apply withRetry_first_try; [lia|].
  rewrite invoke_run.
  unfold Webhook.subscriptionDeleted, StripeService.extractSubscriptionData.
  rewrite Ht. cbn [String.eqb Ascii.eqb Bool.eqb orb status stripeSubscriptionId].
  unfold_run.
  unfold subscription_of in Hsub. unfold fault_free in Hff.
  cbn [env db trace record set_db]. rewrite Hff, Hsub.
  cbn -[Z.eqb]; rewrite !Hff; cbn -[Z.eqb]; rewrite ?Hff; cbn -[Z.eqb].
  same_world.
Qed.

Lemma syncSingleSubscription_run (id : string) (w : World)
    (t : SubscriptionStatus) (sub : Subscription) :
  subscription_of (Some id) (db w) = Some sub ->
  Spec.target (stripe_subscription_status (env w) id) = Some t ->
  fault_free w ->
  let enhanceId := enhance_subscription_id sub in
  let provisioning_differs :=
    negb (String.eqb (enhance_subscription_status (env w) enhanceId)
            (status_name t)) in
  let internal_differs :=
    negb (String.eqb (status_name (subscription_status sub)) (status_name t)) in
  SubscriptionManager.syncSingleSubscription id w
  = (Returned tt,
     mkWorld
       (if internal_differs
        then set_subscriptions
               (subscriptions_with (subscription_pk sub) t (db w)) (db w)
        else db w)
       (env w)
       (trace w
        ++ [DbFindSubscriptionByStripeId (Some id); StripeGetSubscription id;
            EnhanceGetSubscription enhanceId]
        ++ (if provisioning_differs then [sync_action t enhanceId] else [])
        ++ (if internal_differs
            then [DbUpdateSubscriptionStatus (subscription_pk sub) t] else []))
       (sleeps w) (randoms_drawn w) (invocations w)).
Proof.
  intros Hsub Htarget Hff enhanceId provisioning_differs internal_differs.
  subst enhanceId provisioning_differs internal_differs.
  unfold SubscriptionManager.syncSingleSubscription. unfold_run.
  unfold subscription_of in Hsub. unfold fault_free in Hff.
  cbn [env db trace record set_db]. rewrite Hff, Hsub.
  cbn [env db trace record set_db]. rewrite Hff.
  cbn [env db trace record set_db]. rewrite Hff.
  rewrite targetStatus_table, Htarget.
  destruct (negb (String.eqb (enhance_subscription_status _ _) _));
    destruct (negb (String.eqb (status_name (subscription_status sub)) _));
    destruct t; cbn [env db trace record set_db sync_action];
    rewrite ?Hff; cbn [env db trace record set_db]; rewrite ?Hff;
    destruct w as [d e tr sl rd iv];
    unfold subscriptions_with, set_db, record;
    cbn [db env trace sleeps randoms_drawn invocations app];
    rewrite <- ?app_assoc; cbn [app]; rewrite ?app_nil_r; reflexivity.
Qed.

(** The row that a lookup by Stripe id finds is the one whose status an
    update by its primary key sets. *)
Lemma subscription_of_after_update (id : option string) (d : Database)
    (sub : Subscription) (t : SubscriptionStatus) :
  subscription_of id d = Some sub ->
  subscription_of id
    (set_subscriptions (subscriptions_with (subscription_pk sub) t d) d)
  = Some (DatabaseService.with_status t sub).
Proof.
  unfold subscription_of, subscriptions_with. cbn [subscriptions set_subscriptions].
  induction (subscriptions d) as [|a l IH]; cbn [filter map]; [discriminate|].
  destruct (subscription_pk a =? subscription_pk sub) eqn:E.
  - cbn [DatabaseService.with_status stripe_subscription_id].
    destruct (DatabaseService.sql_eq _ _); [|exact IH].
    cbn. intros [= ->]. reflexivity.
  - destruct (DatabaseService.sql_eq _ _); [|exact IH].
    cbn. intros [= ->]. rewrite Z.eqb_refl in E. discriminate.
Qed.

(** *** The handlers, for a status outside the table, when every request is
    answered *)

Lemma handleSubscriptionUpdated_skips (event : StripeWebhookEvent) (w : World) :
  event_type event = "customer.subscription.updated" ->
  match obj_status (data_object event) with
  | Some v => Spec.target v
  | None => None
  end = None ->
  fault_free w ->
  outcome (Webhook.handleSubscriptionUpdated event) w = Returned tt.
Proof.
  intros Ht Hs Hff. apply strict_eq_outside_table in Hs as (E1 & E2 & E3).
  unfold outcome, Webhook.handleSubscriptionUpdated.
  match goal with
  | |- fst (?m ?w) = _ =>
    enough (exists w', m w = (Returned tt, w')) as [w' ->] by reflexivity
  end.
  eexists. apply withRetry_first_try; [lia|].
  rewrite invoke_run.
  unfold Webhook.subscriptionUpdated, StripeService.extractSubscriptionData.
  rewrite Ht. cbn [String.eqb Ascii.eqb Bool.eqb orb status stripeSubscriptionId].
  rewrite E1, E2, E3. unfold_run. unfold fault_free in Hff.
  cbn [env db trace record set_db]. rewrite Hff.
  destruct (DatabaseService.first_row _); reflexivity.
Qed.

Lemma syncSingleSubscription_skips (id : string) (w : World)
    (sub : Subscription) :
  subscription_of (Some id) (db w) = Some sub ->
  Spec.target (stripe_subscription_status (env w) id) = None ->
  fault_free w ->
  outcome (SubscriptionManager.syncSingleSubscription id) w = Returned tt.
Proof.
  intros Hsub Htarget Hff.
  unfold outcome, SubscriptionManager.syncSingleSubscription. unfold_run.
  unfold subscription_of in Hsub. unfold fault_free in Hff.
  cbn [env db trace record set_db]. rewrite Hff, Hsub.
  cbn [env db trace record set_db]. rewrite Hff.
  cbn [env db trace record set_db]. rewrite Hff.
  now rewrite targetStatus_table, Htarget.
Qed.

(** The status that the internal record of a Stripe subscription has. *)
Lemma internal_status_after_update (id : option string) (d : Database)
    (sub : Subscription) (t : SubscriptionStatus) :
  subscription_of id d = Some sub ->
  option_map subscription_status
    (subscription_of id
       (set_subscriptions (subscriptions_with (subscription_pk sub) t d) d))
  = Some t.
Proof.
  intros H. now rewrite (subscription_of_after_update _ _ _ _ H).
Qed.

(** C1.  Both entry points follow the table of section 4.4.  The switch of
    the bulk-sync path is the table.  When every request is answered and the
    payments status is in the table, either entry point returns and leaves
    the internal record of the subscription at the table's target.  When the
    payments status is any other string, either entry point makes no
    provisioning action and no write at all (its requests are lookups only
    and the database is as before), whatever fails, and returns normally
    when nothing fails. *)
Theorem status_table_at_both_entry_points :
  (forall s, SubscriptionManager.targetStatus s = Spec.target s)
  /\
  (forall id w sub t,
     subscription_of (Some id) (db w) = Some sub ->
     Spec.target (stripe_subscription_status (env w) id) = Some t ->
     fault_free w ->
     outcome (SubscriptionManager.syncSingleSubscription id) w = Returned tt
     /\ option_map subscription_status
          (subscription_of (Some id)
             (db (after (SubscriptionManager.syncSingleSubscription id) w)))
        = Some t)
  /\
  (forall event w s sub t,
     event_type event = "customer.subscription.updated" ->
     obj_status (data_object event) = Some s ->
     Spec.target s = Some t ->
     subscription_of (obj_id (data_object event)) (db w) = Some sub ->
     fault_free w ->
     outcome (Webhook.handleSubscriptionUpdated event) w = Returned tt
     /\ option_map subscription_status
          (subscription_of (obj_id (data_object event))
             (db (after (Webhook.handleSubscriptionUpdated event) w)))
        = Some t)
  /\
  (forall id w,
     Spec.target (stripe_subscription_status (env w) id) = None ->
     let w' := after (SubscriptionManager.syncSingleSubscription id) w in
     forallb is_read (calls_since w w') = true
     /\ db w' = db w
     /\ (forall sub, subscription_of (Some id) (db w) = Some sub ->
                     fault_free w ->
                     outcome (SubscriptionManager.syncSingleSubscription id) w
                     = Returned tt))
  /\
  (forall event w,
     event_type event = "customer.subscription.updated" ->
     match obj_status (data_object event) with
     | Some v => Spec.target v
     | None => None
     end = None ->
     let w' := after (Webhook.handleSubscriptionUpdated event) w in
     forallb is_read (calls_since w w') = true
     /\ db w' = db w
     /\ (fault_free w ->
         outcome (Webhook.handleSubscriptionUpdated event) w = Returned tt)).
Proof.
  split; [exact targetStatus_table|]. split; [|split; [|split]].
  - intros id w sub t Hsub Ht Hff.
    unfold outcome, after.
    rewrite (syncSingleSubscription_run id w t sub Hsub Ht Hff).
    cbn [fst snd db]. split; [reflexivity|].
    destruct (negb _) eqn:E.
    + now apply internal_status_after_update.
    + rewrite Hsub. cbn. f_equal.
      apply negb_false_iff in E. now apply status_name_injective.
  - intros event w s sub t Hty Hs Ht Hsub Hff.
    unfold outcome, after.
    rewrite (handleSubscriptionUpdated_run event w s t sub Hty Hs Ht Hsub Hff).
    cbn [fst snd db]. split; [reflexivity|].
    now apply internal_status_after_update.
  - intros id w H w'. subst w'.
    destruct (syncSingleSubscription_outside_table id w H) as [C D].
    split; [apply (Continues_calls_since _ _ _ C)|].
    split; [exact D|].
    intros sub Hsub Hff. eapply syncSingleSubscription_skips; eassumption.
  - intros event w Hty Hs w'. subst w'.
    destruct (subscriptionUpdated_outside_table event Hty Hs) as [C D].
    split; [|split].
    + apply (Continues_calls_since is_read).
      apply (Steps_withRetry _ (Stepwise_Continues is_read)), C.
    + apply (Steps_withRetry _ Stepwise_SameDatabase), D.
    + intros Hff. now apply handleSubscriptionUpdated_skips.
Qed.

Lemma status_table_at_both_entry_points_witness :
  let event :=
    subscription_event "evt_1" "customer.subscription.updated" "sub_1"
      "past_due" in
  let w := sample_world "past_due" "active" in
  outcome (Webhook.handleSubscriptionUpdated event) w = Returned tt
  /\ option_map subscription_status
       (subscription_of (obj_id (data_object event))
          (db (after (Webhook.handleSubscriptionUpdated event) w)))
     = Some Suspended.
Proof.
  intros event w.
  apply (proj1 (proj2 (proj2 status_table_at_both_entry_points))
           event w "past_due" sample_subscription Suspended);
    try reflexivity.
  intros n. reflexivity.
Defined.

(** ** Which provisioning action each path takes *)

Lemma calls_since_mkWorld (w : World) d e (calls : list Call) sl rd iv :
  calls_since w (mkWorld d e (trace w ++ calls) sl rd iv) = calls.
Proof. now apply calls_since_app. Qed.

Lemma handleSubscriptionUpdated_never_reads_provisioning
    (event : StripeWebhookEvent) :
  Steps (Continues (fun c => negb (is_provisioning_read c)))
    (Webhook.handleSubscriptionUpdated event).
Proof.
  unfold Webhook.handleSubscriptionUpdated, Webhook.subscriptionUpdated.
  unfold_services.
  follow (Stepwise_Continues (fun c => negb (is_provisioning_read c)))
    allowed_request.
Qed.

(** C2, as the code has it.  When the target status is canceled and the
    provisioning system does not report "canceled" yet, the bulk-sync path
    makes exactly one provisioning action, the hard cancel.  The
    event-driven cancellation (subscription-deleted) path makes exactly one
    provisioning action, the suspend, and sets the internal status to
    canceled. *)
Theorem cancellation_actions :
  (forall id w sub,
     subscription_of (Some id) (db w) = Some sub ->
     Spec.target (stripe_subscription_status (env w) id) = Some Canceled ->
     String.eqb (enhance_subscription_status (env w) (enhance_subscription_id sub))
       "canceled" = false ->
     fault_free w ->
     let w' := after (SubscriptionManager.syncSingleSubscription id) w in
     outcome (SubscriptionManager.syncSingleSubscription id) w = Returned tt
     /\ filter is_provisioning_action (calls_since w w')
        = [EnhanceCancelSubscription (enhance_subscription_id sub)])
  /\
  (forall event w sub,
     event_type event = "customer.subscription.deleted" ->
     subscription_of (obj_id (data_object event)) (db w) = Some sub ->
     fault_free w ->
     let w' := after (Webhook.handleSubscriptionDeleted event) w in
     outcome (Webhook.handleSubscriptionDeleted event) w = Returned tt
     /\ filter is_provisioning_action (calls_since w w')
        = [EnhanceSuspendSubscription (enhance_subscription_id sub)]
     /\ option_map subscription_status
          (subscription_of (obj_id (data_object event)) (db w'))
        = Some Canceled).
Proof.
  split.
  - intros id w sub Hsub Ht He Hff w'. subst w'. unfold outcome, after.
    rewrite (syncSingleSubscription_run id w Canceled sub Hsub Ht Hff).
    cbn [fst snd status_name]. rewrite He. cbn [negb].
    split; [reflexivity|]. rewrite calls_since_mkWorld.
    destruct (negb _); reflexivity.
  - intros event w sub Hty Hsub Hff w'. subst w'. unfold outcome, after.
    rewrite (handleSubscriptionDeleted_run event w sub Hty Hsub Hff).
    cbn [fst snd db]. split; [reflexivity|]. split.
    + now rewrite calls_since_mkWorld.
    + now apply internal_status_after_update.
Qed.

Lemma cancellation_actions_witness :
  let w := sample_world "canceled" "active" in
  let w' := after (SubscriptionManager.syncSingleSubscription "sub_1") w in
  outcome (SubscriptionManager.syncSingleSubscription "sub_1") w = Returned tt
  /\ filter is_provisioning_action (calls_since w w')
     = [EnhanceCancelSubscription "enh_sub_1"].
Proof.
  intros w w'.
  apply (proj1 cancellation_actions "sub_1" w sample_subscription);
    try reflexivity.
  intros n. reflexivity.
Defined.

(** C2 as the specification words it fails on the sample world when Stripe
    reports "canceled": the bulk-sync path issues the hard cancel and no
    suspend, and the subscription-deleted handler issues the suspend and no
    hard cancel. *)
Lemma sync_cancels_and_deletion_suspends :
  let w := sample_world "canceled" "active" in
  let event :=
    subscription_event "evt_1" "customer.subscription.deleted" "sub_1"
      "canceled" in
  calls_since w (after (SubscriptionManager.syncSingleSubscription "sub_1") w)
  = [DbFindSubscriptionByStripeId (Some "sub_1"); StripeGetSubscription "sub_1";
     EnhanceGetSubscription "enh_sub_1"; EnhanceCancelSubscription "enh_sub_1";
     DbUpdateSubscriptionStatus 1 Canceled]
  /\
  calls_since w (after (Webhook.handleSubscriptionDeleted event) w)
  = [DbFindSubscriptionByStripeId (Some "sub_1");
     EnhanceSuspendSubscription "enh_sub_1";
     DbUpdateSubscriptionStatus 1 Canceled].
Proof. split; reflexivity. Qed.

(** C4, as the code has it.  For a subscription-updated event whose status
    is in the table, when every request is answered, the handler looks the
    subscription up, makes the provisioning action of the target
    (reactivate for active, suspend for suspended and for canceled) and then
    sets the internal status to the target: exactly these three requests,
    whatever status the provisioning system has.  It never asks the
    provisioning system for its current status. *)
Theorem update_handler_acts_unconditionally :
  (forall event w s sub t,
     event_type event = "customer.subscription.updated" ->
     obj_status (data_object event) = Some s ->
     Spec.target s = Some t ->
     subscription_of (obj_id (data_object event)) (db w) = Some sub ->
     fault_free w ->
     let w' := after (Webhook.handleSubscriptionUpdated event) w in
     outcome (Webhook.handleSubscriptionUpdated event) w = Returned tt
     /\ calls_since w w'
        = [DbFindSubscriptionByStripeId (obj_id (data_object event));
           update_action t (enhance_subscription_id sub);
           DbUpdateSubscriptionStatus (subscription_pk sub) t]
     /\ subscriptions (db w') = subscriptions_with (subscription_pk sub) t (db w))
  /\
  (forall event w,
     let w' := after (Webhook.handleSubscriptionUpdated event) w in
     existsb is_provisioning_read (calls_since w w') = false).
Proof.
  split.
  - intros event w s sub t Hty Hs Ht Hsub Hff w'. subst w'. unfold outcome, after.
    rewrite (handleSubscriptionUpdated_run event w s t sub Hty Hs Ht Hsub Hff).
    cbn [fst snd db]. split; [reflexivity|]. split; [|reflexivity].
    apply calls_since_mkWorld.
  - intros event w w'. subst w'.
    pose proof (handleSubscriptionUpdated_never_reads_provisioning event w) as C.
    apply Continues_calls_since in C as [_ C].
    induction (calls_since _ _) as [|c l IH]; [reflexivity|].
    cbn in C |- *. apply andb_true_iff in C as [C1 C2].
    apply negb_true_iff in C1. rewrite C1. now apply IH.
Qed.

Lemma update_handler_acts_unconditionally_witness :
  let event :=
    subscription_event "evt_1" "customer.subscription.updated" "sub_1"
      "active" in
  let w := sample_world "active" "active" in
  let w' := after (Webhook.handleSubscriptionUpdated event) w in
  outcome (Webhook.handleSubscriptionUpdated event) w = Returned tt
  /\ calls_since w w'
     = [DbFindSubscriptionByStripeId (Some "sub_1");
        EnhanceReactivateSubscription "enh_sub_1";
        DbUpdateSubscriptionStatus 1 Active]
  /\ subscriptions (db w') = subscriptions_with 1 Active (db w).
Proof.
  intros event w w'.
  apply (proj1 update_handler_acts_unconditionally event w "active"
           sample_subscription Active);
    try reflexivity.
  intros n. reflexivity.
Defined.

(** C4 as the specification words it fails on the sample world when the
    provisioning system already reports the target: the event carries
    "past_due", the provisioning system says "suspended", and the handler
    suspends all the same. *)
Lemma update_handler_acts_when_already_at_target :
  let event :=
    subscription_event "evt_1" "customer.subscription.updated" "sub_1"
      "past_due" in
  let w := sample_world "past_due" "suspended" in
  Spec.target "past_due" = Some Suspended
  /\ enhance_subscription_status (env w) "enh_sub_1" = status_name Suspended
  /\ calls_since w (after (Webhook.handleSubscriptionUpdated event) w)
     = [DbFindSubscriptionByStripeId (Some "sub_1");
        EnhanceSuspendSubscription "enh_sub_1";
        DbUpdateSubscriptionStatus 1 Suspended].
Proof. repeat split. Qed.

(** ** The retry executor, attempt by attempt *)

Lemma backoff_run (baseDelay attempt : Z) (w : World) :
  ErrorHandler.backoff baseDelay attempt w
  = (Returned tt,
     mkWorld (db w) (env w) (trace w)
       (sleeps w
        ++ [(inject_Z (baseDelay * 2 ^ (attempt - 1))
             + random (env w) (randoms_drawn w) * 1000)%Q])
       (S (randoms_drawn w)) (invocations w)).
Proof. reflexivity. Qed.

Lemma attempts_succeed {T} (operation : M T) (maxRetries baseDelay : Z) (v : T)
    (k : nat) (attempt : Z) (w w' : World) :
  FailsThenSucceeds operation baseDelay v k attempt w w' ->
  forall remaining lastError,
    (k < remaining)%nat ->
    attempt + Z.of_nat remaining = maxRetries + 1 ->
    ErrorHandler.attempts operation maxRetries baseDelay remaining attempt
      lastError w
    = (Returned v, w').
Proof.
  induction 1 as [attempt w w' Hop | k attempt w e w1 w2 w' Hop Hr Hb _ IH];
    intros remaining lastError Hk Ha;
    (destruct remaining as [|remaining]; [lia|]); cbn [ErrorHandler.attempts].
  - now apply try_returned.
  - rewrite (try_thrown _ _ _ _ _ Hop), Hr. cbn [negb].
    destruct (Z.eqb_spec attempt maxRetries) as [->|_]; [lia|].
    rewrite (bind_returned _ _ _ tt w2).
    + apply IH; lia.
    + rewrite backoff_run. f_equal. rewrite <- Hb. unfold after. now rewrite backoff_run.
Qed.

Lemma attempts_exhaust {T} (operation : M T) (maxRetries baseDelay : Z)
    (n : nat) (attempt : Z) (w w' : World) (e : JsError) :
  KeepsFailing operation baseDelay n attempt w e w' ->
  forall lastError,
    attempt + Z.of_nat n = maxRetries + 1 ->
    ErrorHandler.attempts operation maxRetries baseDelay n attempt lastError w
    = (Thrown (IsAppError (ErrorHandler.categorizeError e
                             [("attempts", CtxNumber maxRetries)])), w').
Proof.
  induction 1 as [attempt w e w' Hop Hr
                 | n attempt w e1 w1 w2 e w' Hop Hr Hb Hrest IH];
    intros lastError Ha; cbn [ErrorHandler.attempts];
    rewrite (try_thrown _ _ _ _ _ Hop), Hr; cbn [negb].
  - destruct (Z.eqb_spec attempt maxRetries) as [_|ne]; [reflexivity | lia].
  - assert (n <> 0)%nat by (inversion Hrest; lia).
    destruct (Z.eqb_spec attempt maxRetries) as [->|_]; [lia|].
    rewrite (bind_returned _ _ _ tt w2).
    + apply IH; lia.
    + rewrite backoff_run. f_equal. rewrite <- Hb. unfold after. now rewrite backoff_run.
Qed.


Lemma jitter_bounds (x r : Q) :
  (0 <= r /\ r < 1)%Q -> (x <= x + r * 1000 /\ x + r * 1000 <= x + 1000)%Q.
Proof. intros [H0 H1]. split; lra. Qed.

Lemma invoke_bookkeeping {T} (operation : M T) (w : World) o w1 :
  Steps SameBookkeeping operation ->
  ErrorHandler.invoke operation w = (o, w1) ->
  env w1 = env w /\ sleeps w1 = sleeps w /\ randoms_drawn w1 = randoms_drawn w
  /\ invocations w1 = S (invocations w).
Proof.
  intros Hf H. rewrite invoke_run in H.
  specialize (Hf (mkWorld (db w) (env w) (trace w) (sleeps w) (randoms_drawn w)
                    (S (invocations w)))).
  unfold after in Hf. rewrite H in Hf. exact Hf.
Qed.

Lemma fails_then_succeeds_bookkeeping {T} (operation : M T) (baseDelay : Z)
    (v : T) (k : nat) (attempt : Z) (w w' : World) :
  Steps SameBookkeeping operation ->
  FailsThenSucceeds operation baseDelay v k attempt w w' ->
  random_in_unit_interval w ->
  invocations w' = (invocations w + k + 1)%nat
  /\ exists delays,
       sleeps w' = (sleeps w ++ delays)%list /\ length delays = k
       /\ forall j d, nth_error delays j = Some d ->
                      delay_from baseDelay attempt j d.
Proof.
  intros Hf. induction 1 as [attempt w w' Hop | k attempt w e w1 w2 w' Hop Hr Hb _ IH];
    intros Hrand.
  - destruct (invoke_bookkeeping _ _ _ _ Hf Hop) as (He & Hs & Hd & Hi).
    split; [lia|]. exists []. rewrite app_nil_r. split; [assumption|]. split; [reflexivity|].
    intros [|j] dl; discriminate.
  - destruct (invoke_bookkeeping _ _ _ _ Hf Hop) as (He & Hs & Hd & Hi).
    unfold after in Hb. rewrite backoff_run in Hb. cbn [snd] in Hb. subst w2.
    destruct IH as [IHi [delays (IHs & IHl & IHb)]].
    { intros n. cbn [env]. rewrite He. apply Hrand. }
    cbn [invocations sleeps env] in *.
    split; [lia|].
    eexists (_ :: delays). split; [|split].
    + rewrite IHs, Hs, <- app_assoc. reflexivity.
    + cbn. now rewrite IHl.
    + intros [|j] dl; cbn [nth_error].
      * intros [= <-]. unfold delay_from. rewrite Z.add_0_r.
        apply jitter_bounds. rewrite He. apply Hrand.
      * intros Hj. apply IHb in Hj. unfold delay_from in *.
        replace (attempt + Z.of_nat (S j) - 1) with (attempt + 1 + Z.of_nat j - 1)
          by lia.
        exact Hj.
Qed.

Lemma keeps_failing_bookkeeping {T} (operation : M T) (baseDelay : Z)
    (n : nat) (attempt : Z) (w w' : World) (e : JsError) :
  Steps SameBookkeeping operation ->
  KeepsFailing operation baseDelay n attempt w e w' ->
  random_in_unit_interval w ->
  invocations w' = (invocations w + n)%nat
  /\ exists delays,
       sleeps w' = (sleeps w ++ delays)%list /\ S (length delays) = n
       /\ forall j d, nth_error delays j = Some d ->
                      delay_from baseDelay attempt j d.
Proof.
  intros Hf. induction 1 as [attempt w e w' Hop Hr
                            | n attempt w e1 w1 w2 e w' Hop Hr Hb _ IH];
    intros Hrand.
  - destruct (invoke_bookkeeping _ _ _ _ Hf Hop) as (He & Hs & Hd & Hi).
    split; [lia|]. exists []. rewrite app_nil_r. split; [assumption|]. split; [reflexivity|].
    intros [|j] dl; discriminate.
  - destruct (invoke_bookkeeping _ _ _ _ Hf Hop) as (He & Hs & Hd & Hi).
    unfold after in Hb. rewrite backoff_run in Hb. cbn [snd] in Hb. subst w2.
    destruct IH as [IHi [delays (IHs & IHl & IHb)]].
    { intros m. cbn [env]. rewrite He. apply Hrand. }
    cbn [invocations sleeps env] in *.
    split; [lia|].
    eexists (_ :: delays). split; [|split].
    + rewrite IHs, Hs, <- app_assoc. reflexivity.
    + cbn. now rewrite IHl.
    + intros [|j] dl; cbn [nth_error].
      * intros [= <-]. unfold delay_from. rewrite Z.add_0_r.
        apply jitter_bounds. rewrite He. apply Hrand.
      * intros Hj. apply IHb in Hj. unfold delay_from in *.
        replace (attempt + Z.of_nat (S j) - 1) with (attempt + 1 + Z.of_nat j - 1)
          by lia.
        exact Hj.
Qed.

Lemma delays_since_app (w w' : World) (delays : list Q) :
  sleeps w' = (sleeps w ++ delays)%list -> delays_since w w' = delays.
Proof.
  unfold delays_since. intros ->.
  rewrite skipn_app, skipn_all, Nat.sub_diag. reflexivity.
Qed.

Lemma delay_from_first (baseDelay : Z) (delays : list Q) :
  (forall j d, nth_error delays j = Some d -> delay_from baseDelay 1 j d) ->
  delays_in_bounds baseDelay delays.
Proof.
  intros H j d Hj. apply H in Hj. unfold delay_from, delay_in_bounds in *.
  replace (Z.of_nat (S j) - 1) with (1 + Z.of_nat j - 1) by lia. exact Hj.
Qed.

Lemma remote_bookkeeping {A} (c : Call) (answer : Environment -> nat -> A) :
  Steps SameBookkeeping (remote c answer).
Proof.
  intros w. unfold after, remote, request.
  destruct (faults _ _); repeat split.
Qed.

(** C3, as the code has it.  Take an operation that leaves the executor's
    own bookkeeping alone, and a source of random numbers in [0, 1).  If the
    operation fails [k] times with retryable errors and then returns [v],
    and [maxAttempts > k], then [withRetry] returns [v] after exactly
    [k + 1] invocations.  If it fails [maxAttempts >= 1] times in a row with
    retryable errors, then [withRetry] throws the classification of the last
    error after exactly [maxAttempts] invocations.  In both cases it sleeps
    once between two attempts and not after the last one, and the delay
    between attempt [i] and attempt [i + 1] lies between
    [baseDelay * 2^(i-1)] and [baseDelay * 2^(i-1) + 1000]. *)
Theorem withRetry_retryable_failures {T} (operation : M T)
    (maxAttempts baseDelay : Z) :
  Steps SameBookkeeping operation ->
  (forall (k : nat) (v : T) (w w' : World),
     FailsThenSucceeds operation baseDelay v k 1 w w' ->
     Z.of_nat k < maxAttempts ->
     random_in_unit_interval w ->
     ErrorHandler.withRetry operation maxAttempts baseDelay w = (Returned v, w')
     /\ invocations w' = (invocations w + (k + 1))%nat
     /\ length (delays_since w w') = k
     /\ delays_in_bounds baseDelay (delays_since w w'))
  /\
  (forall (e : JsError) (w w' : World),
     KeepsFailing operation baseDelay (Z.to_nat maxAttempts) 1 w e w' ->
     random_in_unit_interval w ->
     ErrorHandler.withRetry operation maxAttempts baseDelay w
     = (Thrown (IsAppError (ErrorHandler.categorizeError e
                              [("attempts", CtxNumber maxAttempts)])), w')
     /\ invocations w' = (invocations w + Z.to_nat maxAttempts)%nat
     /\ S (length (delays_since w w')) = Z.to_nat maxAttempts
     /\ delays_in_bounds baseDelay (delays_since w w')).
Proof.
  intros Hframe. split.
  - intros k v w w' Hrun Hk Hrand.
    split.
    + unfold ErrorHandler.withRetry.
      eapply attempts_succeed; [eassumption | lia | lia].
    + destruct (fails_then_succeeds_bookkeeping _ _ _ _ _ _ _ Hframe Hrun Hrand)
        as [Hi [delays (Hs & Hl & Hb)]].
      rewrite (delays_since_app _ _ _ Hs).
      split; [lia|]. split; [assumption|]. now apply delay_from_first.
  - intros e w w' Hrun Hrand.
    assert (0 < maxAttempts) by (inversion Hrun; lia).
    split.
    + unfold ErrorHandler.withRetry.
      eapply attempts_exhaust; [eassumption | lia].
    + destruct (keeps_failing_bookkeeping _ _ _ _ _ _ _ Hframe Hrun Hrand)
        as [Hi [delays (Hs & Hl & Hb)]].
      rewrite (delays_since_app _ _ _ Hs).
      split; [assumption|]. split; [assumption|]. now apply delay_from_first.
Qed.

Lemma withRetry_retryable_failures_witness :
  let operation := EnhanceService.suspendSubscription "enh_sub_1" in
  let w := flaky_world [PlainError "network timeout"] in
  exists w',
    ErrorHandler.withRetry operation 3 1000 w = (Returned tt, w')
    /\ invocations w' = (invocations w + (1 + 1))%nat
    /\ length (delays_since w w') = 1%nat
    /\ delays_in_bounds 1000 (delays_since w w').
Proof.
  intros operation w. eexists.
  apply (proj1 (withRetry_retryable_failures operation 3 1000
                  (remote_bookkeeping _ _)) 1%nat tt w).
  - eapply fails_first;
      [reflexivity | reflexivity | reflexivity | apply succeeds_now; reflexivity].
  - lia.
  - intros n. split; [discriminate | reflexivity].
Defined.

(** C3 as the specification words it fails twice on the sample world.  An
    operation that fails once, with an error that is not retryable, and
    would then succeed, is not invoked again although [maxAttempts = 3 > 1]:
    [withRetry] throws after one invocation.  And with [maxAttempts = 0]
    [withRetry] throws a TypeError, not a classified error. *)
Lemma withRetry_gives_up_on_validation_error :
  let operation := EnhanceService.suspendSubscription "enh_sub_1" in
  let rejected := PlainError "validation failed: subscription id is required" in
  let w := flaky_world [rejected] in
  outcome operation w = Thrown rejected
  /\ outcome operation (after operation w) = Returned tt
  /\ outcome (ErrorHandler.withRetry operation 3 1000) w
     = Thrown (IsAppError
                 (mkAppError "validation failed: subscription id is required"
                    VALIDATION LOW false []))
  /\ invocations (after (ErrorHandler.withRetry operation 3 1000) w) = 1%nat
  /\ outcome (ErrorHandler.withRetry operation 0 1000) w
     = Thrown (PlainError
                 "Cannot read properties of undefined (reading 'message')")
  /\ invocations (after (ErrorHandler.withRetry operation 0 1000) w) = 0%nat.
Proof. repeat split. Qed.

(** ** The ledger while an event is processed *)

Lemma row_step_update (key : string) (st : WebhookStatus)
    (msg : option string) (l : list WebhookLog) :
  Forall2 (row_step key) l
    (map (fun r => if String.eqb (idempotency_key r) key
                   then DatabaseService.with_log_status st msg r else r) l).
Proof.
  induction l as [|r l IH]; constructor; [|assumption].
  destruct (String.eqb_spec (idempotency_key r) key); split; auto.
  congruence.
Qed.

Lemma LedgerStep_insert (key : string) (w : World) (row : WebhookLog) :
  existsb (fun r => String.eqb (idempotency_key r) key) (webhook_logs (db w))
  = false ->
  idempotency_key row = key ->
  LedgerStep key w (set_db (add_webhook_log row (db w)) w).
Proof.
  intros Hfresh Hkey. exists [row]. split; [apply row_step_refl|].
  right. split; [assumption|]. now exists row.
Qed.

Lemma LedgerStep_update (key : string) (st : WebhookStatus)
    (msg : option string) (w : World) :
  LedgerStep key w
    (set_db (set_webhook_logs
               (map (fun r => if String.eqb (idempotency_key r) key
                              then DatabaseService.with_log_status st msg r
                              else r)
                  (webhook_logs (db w)))
               (db w)) w).
Proof.
  exists []. rewrite app_nil_r. split; [apply row_step_update | now left].
Qed.

Ltac ledger_leaf key :=
  first
    [ intro; apply LedgerStep_same; reflexivity
    | let H := fresh in
      intros ? ? ? H;
      first
        [ injection H as <- <-; apply LedgerStep_update
        | match type of H with
          | context [existsb ?f ?l] =>
            let E := fresh in
            destruct (existsb f l) eqn:E; [discriminate H|];
            injection H as <- <-; apply LedgerStep_insert; [exact E | reflexivity]
          end
        | apply LedgerStep_same;
          repeat match type of H with
                 | context [match ?x with _ => _ end] => destruct x
                 end;
          first [ discriminate H | injection H as <- <-; reflexivity ] ] ].

Ltac unfold_handlers :=
  unfold Webhook.processVerified, Webhook.processRecorded, Webhook.dispatch,
    Webhook.handleCheckoutCompleted, Webhook.handleSubscriptionDeleted,
    Webhook.handleSubscriptionUpdated, Webhook.checkoutCompleted,
    Webhook.subscriptionDeleted, Webhook.subscriptionUpdated,
    Webhook.resolvePlanMapping, Webhook.name_or_local_part,
    ErrorHandler.handleWebhookError.

Lemma processVerified_LedgerStep (event : StripeWebhookEvent) :
  Steps (LedgerStep (Webhook.idempotencyKey event)) (Webhook.processVerified event).
Proof.
  unfold_handlers. unfold_services.
  follow (Stepwise_LedgerStep (Webhook.idempotencyKey event))
    ltac:(ledger_leaf (Webhook.idempotencyKey event)).
Qed.

Lemma POST_accepted (request : Request) (w : World) (event : StripeWebhookEvent) :
  accepted request w event ->
  Webhook.POST request w
  = try_catch (Webhook.processVerified event) Webhook.respondToError w.
Proof.
  intros (signature & Hs & Hne & Hc). unfold Webhook.POST. rewrite Hs.
  destruct signature as [|c signature]; [contradiction|].
  unfold try_catch, bind, StripeService.verifyWebhookSignature.
  now rewrite Hc.
Qed.

Lemma after_respondToError (m : M Response) (w : World) :
  after (try_catch m Webhook.respondToError) w = after m w.
Proof.
  unfold after, try_catch. destruct (m w) as [[r|e] w1]; reflexivity.
Qed.

Lemma POST_not_accepted (request : Request) (w : World) :
  (forall event, ~ accepted request w event) ->
  after (Webhook.POST request) w = w.
Proof.
  intros H. unfold Webhook.POST. rewrite after_respondToError.
  destruct (stripe_signature request) as [[|c signature]|] eqn:Hs;
    try reflexivity.
  unfold after, try_catch, bind, StripeService.verifyWebhookSignature.
  destruct (constructEvent _ _ _) as [err|event] eqn:Hc; [reflexivity|].
  exfalso. apply (H event). exists (String c signature). now repeat split.
Qed.

Lemma has_row_filter (key : string) (d : Database) :
  (0 <? length (filter (fun r => String.eqb (idempotency_key r) key)
                  (webhook_logs d)))%nat
  = has_row key d.
Proof.
  unfold has_row. induction (webhook_logs d) as [|r l IH]; [reflexivity|].
  cbn. destruct (String.eqb _ _); cbn; auto.
Qed.

(** An event that the ledger has seen: one lookup, nothing else. *)
Lemma processVerified_seen (event : StripeWebhookEvent) (w : World) :
  has_row (Webhook.idempotencyKey event) (db w) = true ->
  after (Webhook.processVerified event) w
  = record (DbWebhookExists (Webhook.idempotencyKey event)) w
  /\ (answers w ->
      outcome (Webhook.processVerified event) w
      = Returned (mkResponse 200 (ReceivedBody (Some "Event already processed")))).
Proof.
  intros Hrow. unfold after, outcome, Webhook.processVerified.
  unfold DatabaseService.webhookExists, bind, query, request, answers.
  destruct (faults _ _); cbn [fst snd]; [split; [reflexivity | discriminate]|].
  cbn [db record]. rewrite has_row_filter, Hrow. now split.
Qed.

Lemma processRecorded_LedgerStep (event : StripeWebhookEvent) :
  Steps (LedgerStep (Webhook.idempotencyKey event)) (Webhook.processRecorded event).
Proof.
  unfold_handlers. unfold_services.
  follow (Stepwise_LedgerStep (Webhook.idempotencyKey event))
    ltac:(ledger_leaf (Webhook.idempotencyKey event)).
Qed.

Lemma has_row_keys (key : string) (d : Database) :
  has_row key d
  = existsb (fun k => String.eqb k key) (map idempotency_key (webhook_logs d)).
Proof. apply existsb_key_map. Qed.

Lemma LedgerStep_has_row (key : string) (w w' : World) :
  LedgerStep key w w' ->
  has_row key (db w) = true -> has_row key (db w') = true.
Proof.
  intros [added [F _]]. rewrite !has_row_keys, (row_step_keys _ _ _ F).
  rewrite map_app, existsb_app. now intros ->.
Qed.

Lemma LedgerStep_unique (key : string) (w w' : World) :
  LedgerStep key w w' ->
  ledger_keys_unique (db w) -> ledger_keys_unique (db w').
Proof.
  unfold ledger_keys_unique. intros [added [F C]] U.
  rewrite (row_step_keys _ _ _ F), map_app.
  destruct C as [->|[fresh [r [-> K]]]]; cbn [map]; [now rewrite app_nil_r|].
  apply NoDup_app; [assumption | repeat constructor; intros [] |].
  intros k Hin [<-|[]]. rewrite existsb_key_map in fresh.
  assert (existsb (fun k => String.eqb k key) (map idempotency_key (webhook_logs (db w))) = true)
    as E; [|congruence].
  apply existsb_exists. exists (idempotency_key r). split; [assumption|].
  rewrite K. apply String.eqb_refl.
Qed.

Lemma unique_one_row (key : string) (d : Database) :
  ledger_keys_unique d -> has_row key d = true ->
  length (rows_for key d) = 1%nat.
Proof.
  unfold ledger_keys_unique, has_row, rows_for.
  induction (webhook_logs d) as [|r l IH]; cbn; [discriminate|].
  intros U. inversion U as [|k ks Hnotin U']; subst.
  destruct (String.eqb_spec (idempotency_key r) key) as [E|NE]; cbn.
  - intros _. f_equal.
    assert (filter (fun r0 => String.eqb (idempotency_key r0) key) l = []) as ->;
      [|reflexivity].
    clear IH U U'. induction l as [|a l IHl]; [reflexivity|]. cbn.
    destruct (String.eqb_spec (idempotency_key a) key) as [Ea|_].
    + exfalso. apply Hnotin. left. congruence.
    + apply IHl. intros Hin. apply Hnotin. now right.
  - auto.
Qed.

Lemma accepted_or_not (request : Request) (w : World) :
  (exists event, accepted request w event)
  \/ (forall event, ~ accepted request w event).
Proof.
  unfold accepted.
  destruct (stripe_signature request) as [[|c signature]|] eqn:Hs.
  - right. intros event (s & [= <-] & Hne & _). now apply Hne.
  - destruct (constructEvent (env w) (request_body request) (String c signature))
      as [err|event] eqn:Hc.
    + right. intros event (s & [= <-] & _ & Hc'). congruence.
    + left. exists event, (String c signature). now repeat split.
  - right. intros event (s & [=] & _).
Qed.

Lemma processVerified_same_env (event : StripeWebhookEvent) :
  Steps (Continues (fun _ => true)) (Webhook.processVerified event).
Proof.
  unfold_handlers. unfold_services.
  follow (Stepwise_Continues (fun _ => true)) allowed_request.
Qed.

Lemma POST_same_env (request : Request) (w : World) :
  env (after (Webhook.POST request) w) = env w.
Proof.
  destruct (accepted_or_not request w) as [[event H]|H].
  - unfold after. rewrite (POST_accepted _ _ _ H).
    fold (after (try_catch (Webhook.processVerified event) Webhook.respondToError) w).
    rewrite after_respondToError. apply processVerified_same_env.
  - now rewrite POST_not_accepted.
Qed.

Lemma POST_LedgerStep (request : Request) (w : World) (event : StripeWebhookEvent) :
  accepted request w event ->
  LedgerStep (Webhook.idempotencyKey event) w (after (Webhook.POST request) w).
Proof.
  intros H. unfold after. rewrite (POST_accepted _ _ _ H).
  fold (after (try_catch (Webhook.processVerified event) Webhook.respondToError) w).
  rewrite after_respondToError. apply processVerified_LedgerStep.
Qed.

Lemma processVerified_fresh_run (event : StripeWebhookEvent) (w : World) :
  has_row (Webhook.idempotencyKey event) (db w) = false ->
  fault_free w ->
  Webhook.processVerified event w
  = Webhook.processRecorded event
      (mkWorld (add_webhook_log (received_row event (db w)) (db w)) (env w)
         (trace w ++ [DbWebhookExists (Webhook.idempotencyKey event);
                      DbLogWebhook (Webhook.idempotencyKey event) Received])
         (sleeps w) (randoms_drawn w) (S (invocations w))).
Proof.
  intros Hfresh Hff. unfold Webhook.processVerified.
  unfold DatabaseService.webhookExists.
  rewrite (bind_returned _ _ _ _ _ (query_run _ _ w (Hff _))).
  rewrite has_row_filter, Hfresh.
  erewrite bind_returned; [reflexivity|].
  apply withRetry_first_try; [lia|]. rewrite invoke_run.
  unfold DatabaseService.logWebhook.
  erewrite bind_returned; [reflexivity|].
  erewrite statement_run; [ | apply Hff | ].
  - unfold ret, record, set_db, received_row. cbn [db env trace sleeps randoms_drawn invocations].
    rewrite <- app_assoc. reflexivity.
  - cbn [db record]. unfold has_row in Hfresh. rewrite Hfresh. reflexivity.
Qed.

Lemma POST_records_the_event (request : Request) (w : World)
    (event : StripeWebhookEvent) :
  accepted request w event -> fault_free w ->
  has_row (Webhook.idempotencyKey event) (db (after (Webhook.POST request) w))
  = true.
Proof.
  intros H Hff. unfold after. rewrite (POST_accepted _ _ _ H).
  fold (after (try_catch (Webhook.processVerified event) Webhook.respondToError) w).
  rewrite after_respondToError.
  destruct (has_row (Webhook.idempotencyKey event) (db w)) eqn:Hrow.
  - now rewrite (proj1 (processVerified_seen event w Hrow)).
  - unfold after. rewrite (processVerified_fresh_run event w Hrow Hff).
    eapply LedgerStep_has_row; [apply processRecorded_LedgerStep|].
    cbn [db]. unfold has_row, add_webhook_log. cbn [webhook_logs].
    rewrite existsb_app. cbn. now rewrite String.eqb_refl, !orb_true_r.
Qed.

(** ** An update for a subscription that the database does not know *)

Lemma handleSubscriptionUpdated_unknown_run (event : StripeWebhookEvent)
    (w : World) :
  event_type event = "customer.subscription.updated" ->
  subscription_of (obj_id (data_object event)) (db w) = None ->
  fault_free w ->
  Webhook.handleSubscriptionUpdated event w
  = (Returned tt,
     mkWorld (db w) (env w)
       (trace w ++ [DbFindSubscriptionByStripeId (obj_id (data_object event))])
       (sleeps w) (randoms_drawn w) (S (invocations w))).
Proof.
  intros Ht Hsub Hff.
  unfold Webhook.handleSubscriptionUpdated.
  apply withRetry_first_try; [lia|].
  rewrite invoke_run.
  unfold Webhook.subscriptionUpdated, StripeService.extractSubscriptionData.
  rewrite Ht. cbn [String.eqb Ascii.eqb Bool.eqb orb status stripeSubscriptionId].
  unfold_run.
  unfold subscription_of in Hsub. unfold fault_free in Hff.
  cbn [env db trace record set_db]. rewrite Hff, Hsub. reflexivity.
Qed.

Lemma update_fresh (key : string) (st : WebhookStatus) (msg : option string)
    (l : list WebhookLog) :
  existsb (fun r => String.eqb (idempotency_key r) key) l = false ->
  map (fun r => if String.eqb (idempotency_key r) key
                then DatabaseService.with_log_status st msg r else r) l
  = l.
Proof.
  induction l as [|r l IH]; cbn; [reflexivity|].
  intros H. apply orb_false_iff in H as [-> Hl]. now rewrite IH.
Qed.

Lemma POST_unknown_subscription_run (request : Request) (w : World)
    (event : StripeWebhookEvent) :
  accepted request w event ->
  event_type event = "customer.subscription.updated" ->
  has_row (Webhook.idempotencyKey event) (db w) = false ->
  subscription_of (obj_id (data_object event)) (db w) = None ->
  fault_free w ->
  let key := Webhook.idempotencyKey event in
  Webhook.POST request w
  = (Returned (mkResponse 200 (ReceivedBody None)),
     mkWorld
       (mkDatabase (customers (db w)) (subscriptions (db w))
          (plan_mappings (db w))
          (webhook_logs (db w)
           ++ [DatabaseService.with_log_status Success None
                 (received_row event (db w))])
          (customers_seq (db w)) (subscriptions_seq (db w))
          (webhook_logs_seq (db w) + 1))
       (env w)
       (trace w ++ [DbWebhookExists key; DbLogWebhook key Received;
                    DbUpdateWebhookStatus key Processing None;
                    DbFindSubscriptionByStripeId (obj_id (data_object event));
                    DbUpdateWebhookStatus key Success None])
       (sleeps w) (randoms_drawn w) (S (S (invocations w)))).
Proof.
  intros Hacc Ht Hfresh Hsub Hff key.
  rewrite (POST_accepted _ _ _ Hacc).
  apply try_returned.
  rewrite (processVerified_fresh_run event w Hfresh Hff).
  unfold Webhook.processRecorded. fold key.
  unfold DatabaseService.updateWebhookStatus at 1.
  erewrite bind_returned; [|apply statement_run; [apply Hff | reflexivity]].
  apply try_returned.
  unfold Webhook.dispatch. rewrite Ht.
  cbn [String.eqb Ascii.eqb Bool.eqb].
  erewrite bind_returned;
    [|apply handleSubscriptionUpdated_unknown_run;
      [assumption | exact Hsub | exact Hff]].
  unfold DatabaseService.updateWebhookStatus.
  erewrite bind_returned; [|apply statement_run; [apply Hff | reflexivity]].
  unfold ret, set_db, record, set_webhook_logs, add_webhook_log.
  cbn [db env trace sleeps randoms_drawn invocations customers subscriptions
       plan_mappings webhook_logs customers_seq subscriptions_seq
       webhook_logs_seq].
  rewrite !map_app, <- !app_assoc.
  unfold has_row in Hfresh. rewrite !(update_fresh _ _ _ _ Hfresh).
  cbn [map app received_row idempotency_key]. fold key.
  rewrite String.eqb_refl.
  cbn [DatabaseService.with_log_status idempotency_key]. rewrite String.eqb_refl.
  reflexivity.
Qed.

(** C10.  A subscription-updated event whose subscription id matches no
    internal Subscription is skipped, not failed.  When every request is
    answered, the handler makes the lookup, nothing else, and returns; and
    the whole of [POST], for an event that the ledger has not seen, answers
    200, makes no provisioning request and no write to the customers or
    subscriptions table, and leaves the event's ledger row in state success. *)
Theorem unknown_subscription_update_is_skipped :
  (forall event w,
     event_type event = "customer.subscription.updated" ->
     subscription_of (obj_id (data_object event)) (db w) = None ->
     fault_free w ->
     let w' := after (Webhook.handleSubscriptionUpdated event) w in
     outcome (Webhook.handleSubscriptionUpdated event) w = Returned tt
     /\ calls_since w w'
        = [DbFindSubscriptionByStripeId (obj_id (data_object event))]
     /\ db w' = db w)
  /\
  (forall request w event,
     accepted request w event ->
     event_type event = "customer.subscription.updated" ->
     has_row (Webhook.idempotencyKey event) (db w) = false ->
     subscription_of (obj_id (data_object event)) (db w) = None ->
     fault_free w ->
     let key := Webhook.idempotencyKey event in
     let w' := after (Webhook.POST request) w in
     outcome (Webhook.POST request) w
     = Returned (mkResponse 200 (ReceivedBody None))
     /\ calls_since w w'
        = [DbWebhookExists key; DbLogWebhook key Received;
           DbUpdateWebhookStatus key Processing None;
           DbFindSubscriptionByStripeId (obj_id (data_object event));
           DbUpdateWebhookStatus key Success None]
     /\ customers (db w') = customers (db w)
     /\ subscriptions (db w') = subscriptions (db w)
     /\ webhook_logs (db w')
        = (webhook_logs (db w)
           ++ [DatabaseService.with_log_status Success None
                 (received_row event (db w))])%list).
Proof.
  split.
  - intros event w Ht Hsub Hff w'. subst w'. unfold outcome, after.
    rewrite (handleSubscriptionUpdated_unknown_run event w Ht Hsub Hff).
    cbn [fst snd db]. split; [reflexivity|]. split; [|reflexivity].
    apply calls_since_mkWorld.
  - intros request w event Hacc Ht Hfresh Hsub Hff key w'. subst w'.
    unfold outcome, after.
    rewrite (POST_unknown_subscription_run request w event Hacc Ht Hfresh Hsub Hff).
    cbn [fst snd db customers subscriptions webhook_logs].
    split; [reflexivity|]. split; [|now repeat split].
    apply calls_since_mkWorld.
Qed.

Lemma unknown_subscription_update_is_skipped_witness :
  let w := sample_world "past_due" "active" in
  let w' := after (Webhook.POST sample_request) w in
  outcome (Webhook.POST sample_request) w
  = Returned (mkResponse 200 (ReceivedBody None))
  /\ calls_since w w'
     = [DbWebhookExists "stripe_evt_1"; DbLogWebhook "stripe_evt_1" Received;
        DbUpdateWebhookStatus "stripe_evt_1" Processing None;
        DbFindSubscriptionByStripeId (Some "sub_9");
        DbUpdateWebhookStatus "stripe_evt_1" Success None]
  /\ customers (db w') = customers (db w)
  /\ subscriptions (db w') = subscriptions (db w)
  /\ webhook_logs (db w')
     = [mkWebhookLog 1 "stripe_evt_1" "stripe" "customer.subscription.updated"
          Success
          (subscription_event "evt_1" "customer.subscription.updated" "sub_9"
             "past_due")
          None].
Proof.
  intros w w'.
  apply (proj2 unknown_subscription_update_is_skipped sample_request w
           (subscription_event "evt_1" "customer.subscription.updated" "sub_9"
              "past_due")).
  - exists "good". repeat split. discriminate.
  - reflexivity.
  - reflexivity.
  - reflexivity.
  - intros n. reflexivity.
Defined.

(** An accepted event that the ledger has seen: one lookup, nothing else. *)
Lemma POST_seen (request : Request) (w : World) (event : StripeWebhookEvent) :
  accepted request w event ->
  has_row (Webhook.idempotencyKey event) (db w) = true ->
  after (Webhook.POST request) w
  = record (DbWebhookExists (Webhook.idempotencyKey event)) w
  /\ (answers w ->
      outcome (Webhook.POST request) w
      = Returned (mkResponse 200 (ReceivedBody (Some "Event already processed")))).
Proof.
  intros Hacc Hrow.
  destruct (processVerified_seen event w Hrow) as [Ha Ho].
  unfold after, outcome. rewrite (POST_accepted _ _ _ Hacc). split.
  - fold (after (try_catch (Webhook.processVerified event)
                   Webhook.respondToError) w).
    now rewrite after_respondToError.
  - intros Hans. specialize (Ho Hans). unfold outcome in Ho.
    unfold try_catch.
    destruct (Webhook.processVerified event w) as [[r|e] w1];
      cbn [fst] in Ho; [now rewrite Ho | discriminate].
Qed.

(** C5.  An event whose idempotency key already has a ledger row, in any
    state, is short-circuited: [POST] makes the ledger lookup and nothing
    else, so that the database is as before, and answers 200 when the
    lookup is answered.  Hence, when a first delivery has left a row (which
    it does when every request is answered), a second delivery of the same
    event makes the lookup only, and the ledger, whose keys were unique to
    begin with, holds exactly one row for the key. *)
Theorem duplicate_event_is_short_circuited :
  (forall request w event,
     accepted request w event ->
     has_row (Webhook.idempotencyKey event) (db w) = true ->
     let key := Webhook.idempotencyKey event in
     after (Webhook.POST request) w = record (DbWebhookExists key) w
     /\ (answers w ->
         outcome (Webhook.POST request) w
         = Returned (mkResponse 200
                       (ReceivedBody (Some "Event already processed")))))
  /\
  (forall request w event,
     accepted request w event ->
     ledger_keys_unique (db w) ->
     let key := Webhook.idempotencyKey event in
     let w1 := after (Webhook.POST request) w in
     let w2 := after (Webhook.POST request) w1 in
     (fault_free w -> has_row key (db w1) = true)
     /\ (has_row key (db w1) = true ->
         calls_since w1 w2 = [DbWebhookExists key]
         /\ db w2 = db w1
         /\ length (rows_for key (db w2)) = 1%nat)).
Proof.
  split; [exact POST_seen|].
  intros request w event Hacc Hu key w1 w2.
  split; [intros Hff; now apply POST_records_the_event|].
  intros Hrow.
  assert (accepted request w1 event) as Hacc1.
  { destruct Hacc as (s & Hs & Hne & Hc). exists s. repeat split; auto.
    subst w1. now rewrite POST_same_env. }
  destruct (POST_seen request w1 event Hacc1 Hrow) as [Hw2 _].
  fold w2 in Hw2. rewrite Hw2. cbn [db record].
  split; [now apply calls_since_app|]. split; [reflexivity|].
  apply unique_one_row; [|exact Hrow].
  eapply LedgerStep_unique; [|exact Hu].
  exact (POST_LedgerStep request w event Hacc).
Qed.

Lemma duplicate_event_is_short_circuited_witness :
  after (Webhook.POST sample_request) processed_world
  = record (DbWebhookExists "stripe_evt_1") processed_world
  /\ outcome (Webhook.POST sample_request) processed_world
     = Returned (mkResponse 200 (ReceivedBody (Some "Event already processed"))).
Proof.
  destruct (proj1 duplicate_event_is_short_circuited sample_request
              processed_world
              (subscription_event "evt_1" "customer.subscription.updated"
                 "sub_9" "past_due"))
    as [unchanged answered].
  - exists "good". repeat split. discriminate.
  - reflexivity.
  - split; [exact unchanged | apply answered; reflexivity].
Defined.

(** ** The lifecycle of a ledger entry *)

Lemma dispatch_SameLedger (event : StripeWebhookEvent) :
  Steps SameLedger (Webhook.dispatch event).
Proof.
  unfold_handlers. unfold_services. follow Stepwise_SameLedger untouched.
Qed.

Lemma apply_updates_key updates (r : WebhookLog) :
  idempotency_key (apply_updates updates r) = idempotency_key r.
Proof.
  revert r. induction updates as [|u updates IH]; intros r; [reflexivity|].
  cbn. now rewrite IH.
Qed.

Lemma ledger_after_nil (key : string) (l : list WebhookLog) :
  ledger_after key [] l = l.
Proof.
  unfold ledger_after. rewrite <- (map_id l) at 2. apply map_ext.
  intros r. now destruct (String.eqb _ _).
Qed.

Lemma ledger_after_snoc (key : string) updates st msg (l : list WebhookLog) :
  map (fun r => if String.eqb (idempotency_key r) key
                then DatabaseService.with_log_status st msg r else r)
    (ledger_after key updates l)
  = ledger_after key (updates ++ [(st, msg)]) l.
Proof.
  unfold ledger_after. rewrite map_map. apply map_ext. intros r.
  destruct (String.eqb (idempotency_key r) key) eqn:E.
  - rewrite apply_updates_key, E. unfold apply_updates.
    now rewrite fold_left_app.
  - now rewrite E.
Qed.

Lemma ledger_after_fresh (key : string) updates (l : list WebhookLog) :
  existsb (fun r => String.eqb (idempotency_key r) key) l = false ->
  ledger_after key updates l = l.
Proof.
  unfold ledger_after. induction l as [|r l IH]; cbn; [reflexivity|].
  intros H. apply orb_false_iff in H as [-> Hl]. now rewrite IH.
Qed.

Lemma answered_updates_app failing (key : string) (n : nat)
    (a b : list Call) :
  answered_updates failing key n (a ++ b)
  = (answered_updates failing key n a
     ++ answered_updates failing key (n + length a) b)%list.
Proof.
  revert n. induction a as [|c a IH]; intros n; cbn [app answered_updates length].
  - now rewrite Nat.add_0_r.
  - rewrite IH, <- app_assoc. now rewrite Nat.add_succ_r.
Qed.

Lemma answered_updates_none failing (key : string) (n : nat)
    (calls : list Call) :
  forallb (fun c => negb (is_ledger_update c)) calls = true ->
  answered_updates failing key n calls = [].
Proof.
  revert n. induction calls as [|c calls IH]; intros n H; [reflexivity|].
  cbn in H. apply andb_true_iff in H as [Hc H].
  cbn [answered_updates]. rewrite (IH _ H).
  destruct c; try reflexivity. discriminate Hc.
Qed.

Lemma ledger_after_app (key : string) a b (l : list WebhookLog) :
  ledger_after key (a ++ b) l = ledger_after key b (ledger_after key a l).
Proof.
  unfold ledger_after. rewrite map_map. apply map_ext. intros r.
  destruct (String.eqb (idempotency_key r) key) eqn:E.
  - rewrite apply_updates_key, E. unfold apply_updates.
    now rewrite fold_left_app.
  - now rewrite E.
Qed.

Lemma ledger_updates_trans (k : string) (w w1 w2 : World) :
  env w1 = env w ->
  (exists c1, trace w1 = (trace w ++ c1)%list) ->
  (exists c2, trace w2 = (trace w1 ++ c2)%list) ->
  ledger_updates k w w2
  = (ledger_updates k w w1 ++ ledger_updates k w1 w2)%list.
Proof.
  intros E [c1 T1] [c2 T2]. unfold ledger_updates.
  assert (trace w2 = (trace w ++ (c1 ++ c2))%list) as T
    by now rewrite T2, T1, app_assoc.
  rewrite (calls_since_app _ _ _ T1), (calls_since_app _ _ _ T2),
    (calls_since_app _ _ _ T), answered_updates_app.
  now rewrite E, T1, length_app.
Qed.

Lemma ledger_updates_quiet (k : string) (w w' : World) :
  Continues (fun c => negb (is_ledger_update c)) w w' ->
  ledger_updates k w w' = [].
Proof.
  intros [_ [calls [T A]]]. unfold ledger_updates.
  rewrite (calls_since_app _ _ _ T). now apply answered_updates_none.
Qed.

Lemma Wrote_trans (key : string) a b (w w1 w2 : World) :
  Wrote key a w w1 -> Wrote key b w1 w2 -> Wrote key (a ++ b) w w2.
Proof.
  intros (E1 & [c1 T1] & U1 & L1) (E2 & [c2 T2] & U2 & L2).
  split; [congruence|]. split.
  { exists (c1 ++ c2)%list. now rewrite T2, T1, app_assoc. }
  split.
  - intros k. rewrite (ledger_updates_trans k w w1 w2 E1) by eauto.
    rewrite U1, U2. now destruct (String.eqb key k).
  - rewrite L2, L1. symmetry. apply ledger_after_app.
Qed.

Lemma Wrote_quiet (key : string) (w w' : World) :
  Continues (fun c => negb (is_ledger_update c)) w w' ->
  SameLedger w w' -> Wrote key [] w w'.
Proof.
  intros C L. split; [apply C|]. split.
  { destruct C as [_ [calls [T _]]]. now exists calls. }
  split.
  - intros k. rewrite (ledger_updates_quiet k w w' C).
    now destruct (String.eqb key k).
  - now rewrite ledger_after_nil.
Qed.

Lemma updateWebhookStatus_Wrote (key : string) (st : WebhookStatus)
    (msg : option string) (w : World) :
  match DatabaseService.updateWebhookStatus key st msg w with
  | (Returned _, w') => Wrote key [(st, msg)] w w'
  | (Thrown _, w') => Wrote key [] w w'
  end.
Proof.
  unfold DatabaseService.updateWebhookStatus, statement, request.
  destruct (faults (env w) (length (trace w))) as [e|] eqn:F.
  - split; [reflexivity|]. split; [now exists [DbUpdateWebhookStatus key st msg]|].
    split.
    + intros k. unfold ledger_updates.
      rewrite (calls_since_app _ (record _ w) [DbUpdateWebhookStatus key st msg])
        by reflexivity.
      cbn [answered_updates]. rewrite F. now destruct (String.eqb key k).
    + now rewrite ledger_after_nil.
  - cbn [db record]. split; [reflexivity|].
    split; [now exists [DbUpdateWebhookStatus key st msg]|]. split.
    + intros k. unfold ledger_updates.
      rewrite (calls_since_app _ _ [DbUpdateWebhookStatus key st msg])
        by reflexivity.
      cbn [answered_updates env set_db]. rewrite F. now rewrite app_nil_r.
    + cbn [db set_db webhook_logs set_webhook_logs record].
      rewrite <- (ledger_after_nil key (webhook_logs (db w))) at 1.
      exact (ledger_after_snoc key [] st msg _).
Qed.

Lemma dispatch_makes_no_ledger_update (event : StripeWebhookEvent) :
  Steps (Continues (fun c => negb (is_ledger_update c)))
    (Webhook.dispatch event).
Proof.
  unfold_handlers. unfold_services.
  follow (Stepwise_Continues (fun c => negb (is_ledger_update c)))
    allowed_request.
Qed.

(** The updates that [processRecorded] makes to the entries of its key, as
    far as they are answered: processing first, and then success or
    error. *)
Lemma processRecorded_updates (event : StripeWebhookEvent) (w : World) :
  exists us,
    Wrote (Webhook.idempotencyKey event) us w
      (after (Webhook.processRecorded event) w)
    /\ In (map fst us)
         [[]; [Processing]; [Processing; Success]; [Processing; Error]].
Proof.
  set (key := Webhook.idempotencyKey event).
  unfold after, Webhook.processRecorded. fold key.
  unfold bind at 1.
  pose proof (updateWebhookStatus_Wrote key Processing None w) as U1.
  destruct (DatabaseService.updateWebhookStatus key Processing None w)
    as [[[]|e1] w1]; cbn [snd].
  2:{ exists []. split; [exact U1 | cbn; auto]. }
  assert (forall e w2,
            Wrote key [] w1 w2 ->
            exists us,
              Wrote key us w
                (snd (bind (ErrorHandler.handleWebhookError e key
                              (event_type event))
                        (fun _ => @throw Response e) w2))
              /\ In (map fst us)
                   [[]; [Processing]; [Processing; Success];
                    [Processing; Error]]) as handler.
  { intros e w2 Q. unfold ErrorHandler.handleWebhookError, bind.
    match goal with
    | |- context [DatabaseService.updateWebhookStatus key Error ?m w2] =>
      pose proof (updateWebhookStatus_Wrote key Error m w2) as U3;
      destruct (DatabaseService.updateWebhookStatus key Error m w2)
        as [[[]|e3] w3]; cbn [snd]
    end.
    - eexists. split.
      + exact (Wrote_trans key _ _ w w1 w3 U1
                 (Wrote_trans key _ _ w1 w2 w3 Q U3)).
      + cbn. auto.
    - eexists. split.
      + exact (Wrote_trans key _ _ w w1 w3 U1
                 (Wrote_trans key _ _ w1 w2 w3 Q U3)).
      + cbn. auto. }
  unfold try_catch. unfold bind at 1.
  pose proof (dispatch_SameLedger event w1) as D.
  pose proof (dispatch_makes_no_ledger_update event w1) as C.
  unfold after in D, C.
  destruct (Webhook.dispatch event w1) as [[[]|e] w2]; cbn [snd] in D, C.
  - unfold bind.
    pose proof (updateWebhookStatus_Wrote key Success None w2) as U2.
    destruct (DatabaseService.updateWebhookStatus key Success None w2)
      as [[[]|e2] w3]; cbn [snd].
    + eexists. split.
      * exact (Wrote_trans key _ _ w w1 w3 U1
                 (Wrote_trans key _ _ w1 w2 w3 (Wrote_quiet key _ _ C D) U2)).
      * cbn. auto.
    + apply handler.
      apply (Wrote_trans key [] [] w1 w2 w3 (Wrote_quiet key _ _ C D) U2).
  - apply handler. now apply Wrote_quiet.
Qed.

(** Recording the event, with retries: either the row is inserted, or the
    database is as before. *)
Lemma attempts_logWebhook (event : StripeWebhookEvent) :
  let key := Webhook.idempotencyKey event in
  let operation :=
    bind (DatabaseService.logWebhook key "stripe" (event_type event) event
            (Some Received))
      (fun _ => ret tt) in
  forall remaining attempt lastError w,
    has_row key (db w) = false ->
    match ErrorHandler.attempts operation 3 1000 remaining attempt lastError w with
    | (Returned _, w') =>
      db w' = add_webhook_log (received_row event (db w)) (db w)
    | (Thrown _, w') => db w' = db w
    end.
Proof.
  intros key operation.
  induction remaining as [|remaining IH]; intros attempt lastError w Hfresh.
  - destruct lastError; reflexivity.
  - cbn [ErrorHandler.attempts]. unfold try_catch. rewrite invoke_run.
    unfold operation at 1.
    unfold DatabaseService.logWebhook, bind at 1, statement, request.
    cbn [env trace db record].
    destruct (faults (env w) (length (trace w))) as [e|].
    + destruct (negb _); [reflexivity|].
      destruct (attempt =? 3); [reflexivity|].
      unfold bind. rewrite backoff_run.
      specialize (IH (attempt + 1) (Some e)
                    (mkWorld (db w) (env w)
                       (trace w ++ [DbLogWebhook key Received])
                       (sleeps w
                        ++ [(inject_Z (1000 * 2 ^ (attempt - 1))
                             + random (env w) (randoms_drawn w) * 1000)%Q])
                       (S (randoms_drawn w)) (S (invocations w)))
                    Hfresh).
      exact IH.
    + unfold has_row in Hfresh. rewrite Hfresh. reflexivity.
Qed.

Lemma logWebhook_makes_no_ledger_update (event : StripeWebhookEvent) :
  Steps (Continues (fun c => negb (is_ledger_update c)))
    (ErrorHandler.withRetry
       (bind (DatabaseService.logWebhook (Webhook.idempotencyKey event)
                "stripe" (event_type event) event (Some Received))
          (fun _ => ret tt))
       3 1000).
Proof.
  unfold_services.
  follow (Stepwise_Continues (fun c => negb (is_ledger_update c)))
    allowed_request.
Qed.

(** The ledger after an event that it has not seen: the updates that were
    answered are those of the lifecycle, they went to the entry that was
    inserted for the event, and to no other. *)
Lemma processVerified_updates (event : StripeWebhookEvent) (w : World) :
  let key := Webhook.idempotencyKey event in
  let w' := after (Webhook.processVerified event) w in
  has_row key (db w) = false ->
  exists us,
    In (map fst us) [[]; [Processing]; [Processing; Success]; [Processing; Error]]
    /\ (forall k, ledger_updates k w w' = if String.eqb key k then us else [])
    /\ ((us = [] /\ webhook_logs (db w') = webhook_logs (db w))
        \/ webhook_logs (db w')
           = (webhook_logs (db w)
              ++ [apply_updates us (received_row event (db w))])%list).
Proof.
  intros key w' Hfresh. subst w'.
  assert (forall w1,
            Continues (fun c => negb (is_ledger_update c)) w w1 ->
            webhook_logs (db w1) = webhook_logs (db w) ->
            exists us,
              In (map fst us)
                [[]; [Processing]; [Processing; Success]; [Processing; Error]]
              /\ (forall k, ledger_updates k w w1
                            = if String.eqb key k then us else [])
              /\ ((us = [] /\ webhook_logs (db w1) = webhook_logs (db w))
                  \/ webhook_logs (db w1)
                     = (webhook_logs (db w)
                        ++ [apply_updates us (received_row event (db w))])%list))
    as nothing.
  { intros w1 C L. exists []. split; [cbn; auto|]. split; [|now left].
    intros k. rewrite (ledger_updates_quiet k w w1 C).
    now destruct (String.eqb key k). }
  unfold after. remember (Webhook.processVerified event w) as run eqn:Run.
  unfold Webhook.processVerified in Run. fold key in Run.
  unfold DatabaseService.webhookExists, bind at 1, query, request in Run.
  destruct (faults (env w) (length (trace w))) as [e|].
  { subst run. cbn [snd]. apply nothing; [|reflexivity].
    now apply Continues_record. }
  cbn [db record] in Run. rewrite has_row_filter, Hfresh in Run.
  set (w0 := record (DbWebhookExists key) w) in Run.
  assert (Continues (fun c => negb (is_ledger_update c)) w w0) as C0
    by now apply Continues_record.
  unfold bind in Run.
  pose proof (attempts_logWebhook event (Z.to_nat 3) 1 None w0 Hfresh) as L.
  pose proof (logWebhook_makes_no_ledger_update event w0) as C1.
  unfold after, ErrorHandler.withRetry in C1. fold key in L, C1.
  unfold bind in L, C1. unfold ErrorHandler.withRetry in Run.
  destruct (ErrorHandler.attempts _ 3 1000 (Z.to_nat 3) 1 None w0)
    as [[[]|e] w1]; cbn [snd] in C1; subst run.
  - pose proof (Continues_trans _ _ _ _ C0 C1) as C.
    destruct (processRecorded_updates event w1) as [us [W Hu]].
    fold key in W. unfold after in W.
    destruct W as (E & T & U & Lw). exists us. split; [exact Hu|]. split.
    + intros k.
      rewrite (ledger_updates_trans k w w1 _ (proj1 C)); [|..|exact T].
      * now rewrite (ledger_updates_quiet k w w1 C), U.
      * destruct C as [_ [calls [Tc _]]]. now exists calls.
    + right. rewrite Lw, L. subst w0.
      cbn [db record webhook_logs add_webhook_log].
      unfold ledger_after. rewrite map_app.
      fold (ledger_after key us (webhook_logs (db w))).
      unfold has_row in Hfresh. rewrite (ledger_after_fresh _ _ _ Hfresh).
      cbn [map received_row idempotency_key]. fold key.
      now rewrite String.eqb_refl.
  - cbn [snd]. apply nothing.
    + exact (Continues_trans _ _ _ _ C0 C1).
    + now rewrite L.
Qed.

Lemma statement_failed {A} (c : Call)
    (run : Database -> option (A * Database)) (w : World) (e : JsError) :
  faults (env w) (length (trace w)) = Some e ->
  statement c run w = (Thrown e, record c w).
Proof. intros F. unfold statement, request. now rewrite F. Qed.

Lemma calls_since_self (w : World) : calls_since w w = [].
Proof. unfold calls_since. apply skipn_all. Qed.

Lemma lifecycle_of_updates (states : list WebhookStatus) :
  In states [[]; [Processing]; [Processing; Success]; [Processing; Error]] ->
  Spec.lifecycle_path (Received :: states) = true.
Proof.
  intros [<-|[<-|[<-|[<-|[]]]]]; reflexivity.
Qed.

(** C7, as the code has it.  The update operation does not look at the
    state an entry is in.  When the statement is answered, every entry with
    the given key gets the given status and error message, whatever they
    were, and keeps its other columns; every other entry stays as it is, and
    no entry is added or removed.  When the statement fails, the database is
    as before.

    The lifecycle is kept by the handler, the operation's only caller.  A
    request never changes an entry that the ledger held before it, whatever
    state that entry is in, and adds at most one entry.  The updates that
    the request makes and that are answered, in the order in which they are
    made, go to that entry only, which was inserted in state received for
    the event of the request, and the states they write follow the
    lifecycle one step at a time: nothing, or processing, or processing and
    then success, or processing and then error.  A request that adds no
    entry has no update answered. *)
Theorem updateWebhookStatus_overwrites :
  (forall key st msg w,
     let operation := DatabaseService.updateWebhookStatus key st msg in
     (answers w ->
      outcome operation w = Returned tt
      /\ Forall2 (fun r r' => if String.eqb (idempotency_key r) key
                              then overwritten st msg r r' else r' = r)
           (webhook_logs (db w)) (webhook_logs (db (after operation w))))
     /\ (forall e, faults (env w) (length (trace w)) = Some e ->
         outcome operation w = Thrown e /\ db (after operation w) = db w))
  /\
  (forall request w,
     let w' := after (Webhook.POST request) w in
     exists added,
       webhook_logs (db w') = (webhook_logs (db w) ++ added)%list
       /\ ((added = [] /\ forall key, ledger_updates key w w' = [])
           \/ exists event,
                let key := Webhook.idempotencyKey event in
                accepted request w event
                /\ added = [apply_updates (ledger_updates key w w')
                              (received_row event (db w))]
                /\ Spec.lifecycle_path
                     (Received :: map fst (ledger_updates key w w')) = true
                /\ forall other, other <> key ->
                                 ledger_updates other w w' = [])).
Proof.
  split.
  - intros key st msg w operation. subst operation. split.
    + intros Hans. unfold outcome, after.
      unfold DatabaseService.updateWebhookStatus.
      erewrite statement_run; [|exact Hans | reflexivity].
      split; [reflexivity|].
      cbn [snd db set_db webhook_logs set_webhook_logs].
      induction (webhook_logs (db w)) as [|r l IH]; constructor; [|exact IH].
      destruct (String.eqb (idempotency_key r) key); [|reflexivity].
      now repeat split.
    + intros e F. unfold outcome, after.
      unfold DatabaseService.updateWebhookStatus.
      rewrite (statement_failed _ _ _ _ F). now split.
  - intros request w w'. subst w'.
    assert (forall k, ledger_updates k w w = []) as quiet
      by (intros k; unfold ledger_updates; now rewrite calls_since_self).
    destruct (accepted_or_not request w) as [[event Hacc]|Hno].
    + destruct (has_row (Webhook.idempotencyKey event) (db w)) eqn:Hrow.
      * rewrite (proj1 (POST_seen request w event Hacc Hrow)).
        exists []. rewrite app_nil_r. split; [reflexivity|]. left.
        split; [reflexivity|]. intros k. apply ledger_updates_quiet.
        now apply Continues_record.
      * unfold after. rewrite (POST_accepted _ _ _ Hacc).
        fold (after (try_catch (Webhook.processVerified event)
                       Webhook.respondToError) w).
        rewrite after_respondToError.
        destruct (processVerified_updates event w Hrow)
          as [us [Hu [U [[-> L]|L]]]].
        -- exists []. rewrite app_nil_r. split; [exact L|]. left.
           split; [reflexivity|]. intros k. rewrite U.
           now destruct (String.eqb _ k).
        -- eexists. split; [exact L|]. right. exists event.
           cbn zeta. split; [exact Hacc|].
           rewrite (U (Webhook.idempotencyKey event)), String.eqb_refl.
           split; [reflexivity|]. split; [now apply lifecycle_of_updates|].
           intros other Hne. rewrite U.
           destruct (String.eqb_spec (Webhook.idempotencyKey event) other);
             [congruence | reflexivity].
    + rewrite (POST_not_accepted request w Hno).
      exists []. rewrite app_nil_r. split; [reflexivity|]. left. now split.
Qed.

Lemma updateWebhookStatus_overwrites_witness :
  answers processed_world
  /\ outcome (DatabaseService.updateWebhookStatus "stripe_evt_1" Error
                (Some "system: boom")) processed_world
     = Returned tt
  /\ Forall2 (fun r r' => if String.eqb (idempotency_key r) "stripe_evt_1"
                          then overwritten Error (Some "system: boom") r r'
                          else r' = r)
       (webhook_logs (db processed_world))
       (webhook_logs
          (db (after (DatabaseService.updateWebhookStatus "stripe_evt_1" Error
                        (Some "system: boom")) processed_world))).
Proof.
  split; [reflexivity|].
  apply (proj1 (proj1 updateWebhookStatus_overwrites "stripe_evt_1" Error
                  (Some "system: boom") processed_world)).
  reflexivity.
Defined.

(** The delivery of "evt_1" to a ledger that has not seen it: the two
    updates of its entry, in the order in which they were made; written the
    other way round they would not be a path of the lifecycle. *)
Example updates_of_a_delivery :
  let w := sample_world "active" "active" in
  let w' := after (Webhook.POST sample_request) w in
  ledger_updates "stripe_evt_1" w w' = [(Processing, None); (Success, None)]
  /\ map log_status (webhook_logs (db w')) = [Success]
  /\ Spec.lifecycle_path [Received; Processing; Success] = true
  /\ Spec.lifecycle_path [Received; Success; Processing] = false.
Proof. repeat split. Qed.

(** C7 as the specification words it fails on the sample ledger: the entry
    of "evt_1" is in the terminal state success, and the update operation
    moves it back to processing, which is not a forward move. *)
Lemma updateWebhookStatus_moves_a_terminal_entry_back :
  map log_status (webhook_logs (db processed_world)) = [Success]
  /\ outcome (DatabaseService.updateWebhookStatus "stripe_evt_1" Processing None)
       processed_world
     = Returned tt
  /\ map log_status
       (webhook_logs
          (db (after (DatabaseService.updateWebhookStatus "stripe_evt_1"
                        Processing None) processed_world)))
     = [Processing]
  /\ Spec.lifecycle_step Success Processing = false.
Proof. repeat split. Qed.

(** ** A plan that the mapping table does not have *)

(** The scenario of section 8: the checkout of a new customer for a mapped
    price creates one customer and one active subscription with the mapped
    plan. *)
Example checkout_of_a_new_customer :
  let w' := after (Webhook.handleCheckoutCompleted new_customer_checkout)
              new_customer_world in
  outcome (Webhook.handleCheckoutCompleted new_customer_checkout)
    new_customer_world = Returned tt
  /\ customers (db w')
     = [mkCustomer 1 "enh_new" (Some "cus_7") "bob@example.com" None false]
  /\ subscriptions (db w')
     = [mkSubscription 1 1 "enh_new" (Some "sub_7") "pro-hosting-plan" Active]
  /\ calls_since new_customer_world w'
     = [DbFindCustomerByStripeId (Some "cus_7");
        EnhanceCreateCustomer (Some "bob@example.com");
        DbCreateCustomer "enh_new" (Some "cus_7") (Some "bob@example.com");
        DbFindPlanMapping "stripe" (Some "price_pro_monthly");
        EnhanceCreateSubscription "enh_new" "pro-hosting-plan";
        DbCreateSubscription "enh_new" (Some "sub_7") Active].
Proof. repeat split. Qed.

Section NeverReturns.

Variable I : World -> Prop.

Lemma throws_bind_l {A B} (m : M A) (k : A -> M B) (w : World) :
  throws m w -> throws (bind m k) w.
Proof.
  intros [e H]. exists e. unfold bind.
  destruct (m w) as [[a|e'] w1]; cbn [fst] in *; congruence.
Qed.

Lemma throws_bind_r {A B} (m : M A) (k : A -> M B) (w : World) :
  (forall w', I w' -> I (after m w')) ->
  (forall a w', I w' -> throws (k a) w') ->
  I w -> throws (bind m k) w.
Proof.
  intros Hm Hk Hw. specialize (Hm w Hw). unfold after in Hm.
  unfold throws, bind.
  destruct (m w) as [[a|e] w1]; cbn [fst snd] in *; [|now exists e].
  now apply Hk.
Qed.

Hypothesis I_database : forall w w', db w' = db w -> I w -> I w'.

Lemma attempts_never_return {T} (operation : M T) (maxRetries baseDelay : Z) :
  (forall w, I w -> I (after operation w)) ->
  (forall w, I w -> throws operation w) ->
  forall remaining attempt lastError w,
    I w ->
    throws (ErrorHandler.attempts operation maxRetries baseDelay remaining
              attempt lastError) w.
Proof.
  intros Hkeep Hthrows.
  induction remaining as [|remaining IH]; intros attempt lastError w Hw.
  - destruct lastError; eexists; reflexivity.
  - cbn [ErrorHandler.attempts]. unfold throws, try_catch.
    rewrite invoke_run.
    set (w0 := mkWorld _ _ _ _ _ _).
    assert (I w0) as Hw0 by (apply (I_database w); [reflexivity | assumption]).
    destruct (Hthrows w0 Hw0) as [e He].
    specialize (Hkeep w0 Hw0). unfold after in Hkeep.
    destruct (operation w0) as [[a|e'] w1]; cbn [fst snd] in *; [discriminate|].
    destruct (negb _); [eexists; reflexivity|].
    destruct (attempt =? maxRetries); [eexists; reflexivity|].
    unfold bind. rewrite backoff_run.
    apply IH. apply (I_database w1); [reflexivity | assumption].
Qed.

End NeverReturns.

Lemma plan_mapping_of_same (provider : string) (planId : option string)
    (w w' : World) :
  SamePlanMappings w w' ->
  plan_mapping_of provider planId (db w')
  = plan_mapping_of provider planId (db w).
Proof. unfold SamePlanMappings, plan_mapping_of. now intros ->. Qed.

Lemma resolvePlanMapping_missing (priceId : option string) (w : World) :
  plan_mapping_of "stripe" priceId (db w) = None ->
  throws (Webhook.resolvePlanMapping priceId) w
  /\ (answers w ->
      Webhook.resolvePlanMapping priceId w
      = (Thrown (IsAppError
                   (newAppError ("No plan mapping found for Stripe price: "
                                 ++ Js.show priceId)
                      BUSINESS_LOGIC HIGH)),
         record (DbFindPlanMapping "stripe" priceId) w)).
Proof.
  intros Hnone. unfold throws, Webhook.resolvePlanMapping.
  unfold DatabaseService.findPlanMapping, bind, query, request, answers.
  unfold plan_mapping_of in Hnone.
  destruct (faults _ _).
  - split; [eexists; reflexivity | discriminate].
  - cbn [db record]. rewrite Hnone. split; [eexists|]; reflexivity.
Qed.

Lemma checkoutCompleted_never_returns (event : StripeWebhookEvent) (w : World) :
  event_type event = "checkout.session.completed" ->
  plan_mapping_of "stripe" (line_items_price (data_object event)) (db w) = None ->
  throws (Webhook.checkoutCompleted event) w.
Proof.
  intros Ht Hnone.
  unfold Webhook.checkoutCompleted, StripeService.extractCustomerData,
    StripeService.extractSubscriptionData.
  rewrite Ht. cbn [String.eqb Ascii.eqb Bool.eqb stripePriceId].
  set (I := fun w => plan_mapping_of "stripe" (line_items_price (data_object event))
                       (db w) = None).
  assert (forall A (m : M A), Steps SamePlanMappings m ->
                              forall w', I w' -> I (after m w')) as keep.
  { intros A m Hm w' Hw'. unfold I. now rewrite (plan_mapping_of_same _ _ _ _ (Hm w')). }
  apply (throws_bind_r I); [ | | exact Hnone].
  - apply keep. unfold_services. follow Stepwise_SamePlanMappings untouched.
  - intros found w1 Hw1.
    apply (throws_bind_r I); [ | | exact Hw1].
    + apply keep. unfold Webhook.name_or_local_part. unfold_services.
      follow Stepwise_SamePlanMappings untouched.
    + intros customer w2 Hw2. apply throws_bind_l.
      now apply resolvePlanMapping_missing.
Qed.

Lemma checkoutCompleted_SamePlanMappings (event : StripeWebhookEvent) :
  Steps SamePlanMappings (Webhook.checkoutCompleted event).
Proof.
  unfold Webhook.checkoutCompleted, Webhook.resolvePlanMapping,
    Webhook.name_or_local_part.
  unfold_services. follow Stepwise_SamePlanMappings untouched.
Qed.

Lemma handleCheckoutCompleted_never_returns (event : StripeWebhookEvent)
    (w : World) :
  event_type event = "checkout.session.completed" ->
  plan_mapping_of "stripe" (line_items_price (data_object event)) (db w) = None ->
  throws (Webhook.handleCheckoutCompleted event) w.
Proof.
  intros Ht Hnone. unfold Webhook.handleCheckoutCompleted, ErrorHandler.withRetry.
  apply (attempts_never_return
           (fun w => plan_mapping_of "stripe"
                       (line_items_price (data_object event)) (db w) = None)).
  - intros w1 w2 E. now rewrite E.
  - intros w1 H1.
    now rewrite (plan_mapping_of_same _ _ _ _
                   (checkoutCompleted_SamePlanMappings event w1)).
  - intros w1 H1. now apply checkoutCompleted_never_returns.
  - exact Hnone.
Qed.

Lemma handleCheckoutCompleted_known_customer_run (event : StripeWebhookEvent)
    (w : World) (customer : Customer) :
  event_type event = "checkout.session.completed" ->
  customer_of (obj_customer (data_object event)) (db w) = Some customer ->
  plan_mapping_of "stripe" (line_items_price (data_object event)) (db w) = None ->
  fault_free w ->
  Webhook.handleCheckoutCompleted event w
  = (Thrown (IsAppError
               (newAppError ("No plan mapping found for Stripe price: "
                             ++ Js.show (line_items_price (data_object event)))
                  BUSINESS_LOGIC HIGH)),
     mkWorld (db w) (env w)
       (trace w ++ [DbFindCustomerByStripeId (obj_customer (data_object event));
                    DbFindPlanMapping "stripe"
                      (line_items_price (data_object event))])
       (sleeps w) (randoms_drawn w) (S (invocations w))).
Proof.
  intros Ht Hcust Hnone Hff.
  unfold Webhook.handleCheckoutCompleted.
  refine (withRetry_not_retryable _ 3 2000 w _
            (IsAppError
               (newAppError ("No plan mapping found for Stripe price: "
                             ++ Js.show (line_items_price (data_object event)))
                  BUSINESS_LOGIC HIGH)) _ _ _); [lia | | reflexivity].
  rewrite invoke_run.
  unfold Webhook.checkoutCompleted, StripeService.extractCustomerData,
    StripeService.extractSubscriptionData.
  rewrite Ht.
  cbn [String.eqb Ascii.eqb Bool.eqb stripePriceId cd_stripeCustomerId].
  unfold DatabaseService.findCustomerByStripeId.
  erewrite bind_returned; [|apply query_run, Hff].
  unfold customer_of in Hcust. cbn [db]. rewrite Hcust.
  erewrite bind_returned; [|reflexivity].
  erewrite bind_thrown;
    [|refine (proj2 (resolvePlanMapping_missing _ _ _) _);
      [exact Hnone | apply Hff]].
  unfold record. cbn [db env trace sleeps randoms_drawn invocations].
  now rewrite <- app_assoc.
Qed.

Lemma changePlan_missing_run (id price : string) (w : World)
    (sub : Subscription) :
  subscription_of (Some id) (db w) = Some sub ->
  plan_mapping_of "stripe" (Some price) (db w) = None ->
  fault_free w ->
  SubscriptionManager.changePlan id price w
  = (Thrown (PlainError ("No plan mapping found for Stripe price: " ++ price)),
     mkWorld (db w) (env w)
       (trace w ++ [DbFindSubscriptionByStripeId (Some id);
                    DbFindPlanMapping "stripe" (Some price)])
       (sleeps w) (randoms_drawn w) (invocations w)).
Proof.
  intros Hsub Hnone Hff.
  unfold SubscriptionManager.changePlan. unfold_run.
  unfold subscription_of in Hsub. unfold plan_mapping_of in Hnone.
  unfold fault_free in Hff.
  cbn [env db trace record set_db]. rewrite Hff, Hsub.
  cbn [env db trace record set_db]. rewrite Hff, Hnone.
  unfold record. cbn [db env trace sleeps randoms_drawn invocations].
  now rewrite <- app_assoc.
Qed.

(** C8, as the code has it.  Let the plan-mapping table have no entry for
    a price.  The checkout-completion handler never completes for an event
    with that price; its plan-mapping step, once its lookup is answered,
    throws an error that is pre-classified BusinessLogic and not retryable,
    and for a known customer, when every request is answered, the handler
    throws that error after a single invocation.  The plan-change operation
    throws a plain error, "No plan mapping found for Stripe price: ...": it
    is not pre-classified, and the classifier never makes a plain error a
    BusinessLogic error.  Neither path makes a provisioning action. *)
Theorem missing_plan_mapping_failures :
  (forall event w,
     event_type event = "checkout.session.completed" ->
     plan_mapping_of "stripe" (line_items_price (data_object event)) (db w)
     = None ->
     throws (Webhook.handleCheckoutCompleted event) w)
  /\
  (forall priceId w,
     plan_mapping_of "stripe" priceId (db w) = None ->
     answers w ->
     exists ae,
       outcome (Webhook.resolvePlanMapping priceId) w = Thrown (IsAppError ae)
       /\ category ae = BUSINESS_LOGIC /\ retryable ae = false)
  /\
  (forall event w customer,
     event_type event = "checkout.session.completed" ->
     customer_of (obj_customer (data_object event)) (db w) = Some customer ->
     plan_mapping_of "stripe" (line_items_price (data_object event)) (db w)
     = None ->
     fault_free w ->
     let w' := after (Webhook.handleCheckoutCompleted event) w in
     exists ae,
       outcome (Webhook.handleCheckoutCompleted event) w = Thrown (IsAppError ae)
       /\ category ae = BUSINESS_LOGIC /\ retryable ae = false
       /\ invocations w' = S (invocations w)
       /\ existsb is_provisioning_action (calls_since w w') = false)
  /\
  (forall id price w sub,
     subscription_of (Some id) (db w) = Some sub ->
     plan_mapping_of "stripe" (Some price) (db w) = None ->
     fault_free w ->
     let w' := after (SubscriptionManager.changePlan id price) w in
     let msg := "No plan mapping found for Stripe price: " ++ price in
     outcome (SubscriptionManager.changePlan id price) w = Thrown (PlainError msg)
     /\ (forall ctx,
           category (ErrorHandler.categorizeError (PlainError msg) ctx)
           <> BUSINESS_LOGIC)
     /\ db w' = db w
     /\ existsb is_provisioning_action (calls_since w w') = false).
Proof.
  split; [exact handleCheckoutCompleted_never_returns|].
  split; [|split].
  - intros priceId w Hnone Hans. eexists. unfold outcome.
    rewrite (proj2 (resolvePlanMapping_missing priceId w Hnone) Hans).
    now repeat split.
  - intros event w customer Ht Hcust Hnone Hff w'. subst w'. eexists.
    unfold outcome, after.
    rewrite (handleCheckoutCompleted_known_customer_run event w customer
               Ht Hcust Hnone Hff).
    cbn [fst snd invocations]. rewrite calls_since_mkWorld. now repeat split.
  - intros id price w sub Hsub Hnone Hff w' msg. subst w' msg.
    unfold outcome, after.
    rewrite (changePlan_missing_run id price w sub Hsub Hnone Hff).
    cbn [fst snd db]. rewrite calls_since_mkWorld.
    split; [reflexivity|]. split; [|now split].
    intros ctx. apply categorizeError_plain_not_business_logic.
Qed.

Lemma missing_plan_mapping_failures_witness :
  let event := checkout_event "evt_3" "price_unknown" in
  let w := sample_world "active" "active" in
  let w' := after (Webhook.handleCheckoutCompleted event) w in
  exists ae,
    outcome (Webhook.handleCheckoutCompleted event) w = Thrown (IsAppError ae)
    /\ category ae = BUSINESS_LOGIC /\ retryable ae = false
    /\ invocations w' = S (invocations w)
    /\ existsb is_provisioning_action (calls_since w w') = false.
Proof.
  intros event w w'.
  apply (proj1 (proj2 (proj2 missing_plan_mapping_failures)) event w
           sample_customer);
    try reflexivity.
  intros n. reflexivity.
Defined.

(** C8 as the specification words it fails for the plan-change operation on
    the sample world: for a price without a mapping it throws a plain error,
    which the classifier makes a System error, and even a retryable
    ExternalApi error when the price id happens to contain a keyword. *)
Lemma changePlan_error_is_not_business_logic :
  let w := sample_world "active" "active" in
  plan_mapping_of "stripe" (Some "price_unknown") (db w) = None
  /\ outcome (SubscriptionManager.changePlan "sub_1" "price_unknown") w
     = Thrown (PlainError "No plan mapping found for Stripe price: price_unknown")
  /\ ErrorHandler.categorizeError
       (PlainError "No plan mapping found for Stripe price: price_unknown") []
     = mkAppError "No plan mapping found for Stripe price: price_unknown"
         SYSTEM MEDIUM false []
  /\ plan_mapping_of "stripe" (Some "price_network_pro") (db w) = None
  /\ outcome (SubscriptionManager.changePlan "sub_1" "price_network_pro") w
     = Thrown (PlainError
                 "No plan mapping found for Stripe price: price_network_pro")
  /\ ErrorHandler.categorizeError
       (PlainError "No plan mapping found for Stripe price: price_network_pro")
       []
     = mkAppError "No plan mapping found for Stripe price: price_network_pro"
         EXTERNAL_API HIGH true [].
Proof. repeat split. Qed.

(** * Further properties of the code *)

(** ** The webhook route: requests that are not processed *)

(** X1.  A request without a signature header, or with an empty one, is
    answered 400 with the message "Missing stripe-signature header"; a
    request whose signature the Stripe library rejects is answered 500 with
    an authentication message.  Neither is retryable, and neither makes any
    request or changes anything. *)
Theorem POST_rejects_unsigned_requests :
  (forall request w,
     Js.truthy (stripe_signature request) = false ->
     Webhook.POST request w
     = (Returned
          (mkResponse 400
             (FailureBody "Webhook processing failed"
                "Missing stripe-signature header" false)), w))
  /\
  (forall request w signature rejection,
     stripe_signature request = Some signature ->
     signature <> "" ->
     constructEvent (env w) (request_body request) signature = inl rejection ->
     Webhook.POST request w
     = (Returned
          (mkResponse 500
             (FailureBody "Webhook processing failed"
                ("Webhook signature verification failed: "
                 ++ show_error
                      (PlainError ("Webhook signature verification failed: "
                                   ++ show_error rejection)))
                false)), w)).
Proof.
  split.
  - intros request w H. unfold Webhook.POST.
    destruct (stripe_signature request) as [[|c s]|]; try discriminate H;
      reflexivity.
  - intros request w signature rejection Hs Hne Hc. unfold Webhook.POST.
    rewrite Hs. destruct signature as [|c s]; [contradiction|].
    unfold try_catch, bind, StripeService.verifyWebhookSignature.
    rewrite Hc. reflexivity.
Qed.

Lemma POST_rejects_unsigned_requests_witness :
  Webhook.POST (mkRequest "past_due" None) (sample_world "active" "active")
  = (Returned
       (mkResponse 400
          (FailureBody "Webhook processing failed"
             "Missing stripe-signature header" false)),
     sample_world "active" "active").
Proof.
  apply (proj1 POST_rejects_unsigned_requests). reflexivity.
Defined.

(** What a computation returns, it returns at the end of a run of its
    parts. *)
Lemma bind_returns {A B} (m : M A) (k : A -> M B) (w w' : World) (b : B) :
  bind m k w = (Returned b, w') ->
  exists a w1, m w = (Returned a, w1) /\ k a w1 = (Returned b, w').
Proof.
  unfold bind. destruct (m w) as [[a|e] w1]; [eauto | discriminate].
Qed.

Lemma try_catch_returns {A} (m : M A) (h : JsError -> M A) (w w' : World)
    (a : A) :
  try_catch m h w = (Returned a, w') ->
  m w = (Returned a, w')
  \/ exists e w1, m w = (Thrown e, w1) /\ h e w1 = (Returned a, w').
Proof.
  unfold try_catch. destruct (m w) as [[a'|e] w1]; [now left | eauto].
Qed.

Lemma processVerified_returns (event : StripeWebhookEvent) (w w' : World)
    (response : Response) :
  Webhook.processVerified event w = (Returned response, w') ->
  exists note, response = mkResponse 200 (ReceivedBody note).
Proof.
  unfold Webhook.processVerified. intros H.
  apply bind_returns in H as (seen & w1 & _ & H).
  destruct seen; [injection H as <- _; eauto|].
  apply bind_returns in H as (_ & w2 & _ & H).
  unfold Webhook.processRecorded in H.
  apply bind_returns in H as (_ & w3 & _ & H).
  apply try_catch_returns in H as [H|(e & w4 & _ & H)].
  - apply bind_returns in H as (_ & w4 & _ & H).
    apply bind_returns in H as (_ & w5 & _ & H).
    injection H as <- _; eauto.
  - apply bind_returns in H as (_ & w5 & _ & H). discriminate H.
Qed.

Lemma failure_response_to (error : JsError) (w : World) :
  failure_response error w = response_to error.
Proof.
  unfold failure_response, response_to.
  destruct error as [msg|ae]; cbn; [|reflexivity].
  repeat match goal with
         | |- context [if ?c then _ else _] => destruct c
         end; reflexivity.
Qed.

(** X2.  [POST] never throws: it answers every request, with status 200,
    400 or 500.  What its [try] block returns is what it answers, and that
    is always 200 with [{ received: true }].  What its [try] block throws is
    answered by the failure body for that very error: the message and the
    retryability of its classification, with status 400 when the
    classification is a validation error and 500 otherwise.  The error is
    the missing-header error when the request has no signature, the
    authentication error when the Stripe library rejects the signature, and
    otherwise the error that the processing of the event throws. *)
Theorem POST_always_answers (request : Request) (w : World) :
  exists response,
    outcome (Webhook.POST request) w = Returned response
    /\ In (http_status response) [200; 400; 500]
    /\ match stripe_signature request with
       | Some (String _ _ as signature) =>
         match constructEvent (env w) (request_body request) signature with
         | inr event =>
           match outcome (Webhook.processVerified event) w with
           | Returned processed =>
             response = processed
             /\ exists note, processed = mkResponse 200 (ReceivedBody note)
           | Thrown error => response = response_to error
           end
         | inl rejection =>
           response
           = response_to
               (IsAppError
                  (newAppError
                     ("Webhook signature verification failed: "
                      ++ show_error
                           (PlainError
                              ("Webhook signature verification failed: "
                               ++ show_error rejection)))
                     AUTHENTICATION HIGH))
         end
       | _ =>
         response
         = response_to
             (IsAppError
                (newAppError "Missing stripe-signature header" VALIDATION LOW))
       end.
Proof.
  assert (forall error, In (http_status (response_to error)) [200; 400; 500])
    as statuses.
  { intros error. unfold response_to. cbn [http_status].
    destruct (category _); cbn; auto. }
  unfold outcome, Webhook.POST.
  destruct (stripe_signature request) as [[|c s]|] eqn:Hs.
  - eexists. split; [reflexivity|]. split; [cbn; auto | reflexivity].
  - unfold try_catch, bind, StripeService.verifyWebhookSignature.
    destruct (constructEvent _ _ _) as [rejection|event] eqn:Hc.
    + eexists. split; [reflexivity|]. split; [cbn; auto | reflexivity].
    + destruct (Webhook.processVerified event w) as [[processed|error] w1] eqn:R;
        cbn [fst snd].
      * exists processed. split; [reflexivity|].
        destruct (processVerified_returns _ _ _ _ R) as [note ->].
        split; [cbn; auto|]. split; [reflexivity | eauto].
      * exists (response_to error).
        unfold Webhook.respondToError, ret. cbn [fst].
        split; [exact (f_equal Returned (failure_response_to error w1))|].
        split; [apply statuses | reflexivity].
  - eexists. split; [reflexivity|]. split; [cbn; auto | reflexivity].
Qed.

(** The three kinds of answer on the sample world: a request without a
    signature is a validation error, answered 400; a signature that is
    rejected is an authentication error, answered 500; a delivery that is
    processed is answered 200. *)
Example POST_answers_by_category :
  let w := sample_world "active" "active" in
  map (fun request => option_map http_status
                        (match outcome (Webhook.POST request) w with
                         | Returned response => Some response
                         | Thrown _ => None
                         end))
    [mkRequest "past_due" None; mkRequest "past_due" (Some "bad");
     sample_request]
  = [Some 400; Some 500; Some 200].
Proof. reflexivity. Qed.

(** ** The webhook route: what it never asks for *)

Lemma processVerified_stays_in_its_lane (event : StripeWebhookEvent) :
  Steps (Continues (fun c => negb (is_foreign_to_webhooks c)))
    (Webhook.processVerified event).
Proof.
  unfold_handlers. unfold_services.
  follow (Stepwise_Continues (fun c => negb (is_foreign_to_webhooks c)))
    allowed_request.
Qed.

(** X3.  Whatever the request and whatever fails, [POST] never issues a
    hard cancel or a plan change to the provisioning system, never asks the
    provisioning system or the payments system for a subscription's status,
    and never changes the plan of an internal subscription. *)
Theorem webhook_route_never_cancels (request : Request) (w : World) :
  existsb is_foreign_to_webhooks (calls_since w (after (Webhook.POST request) w))
  = false.
Proof.
  assert (forall calls,
            forallb (fun c => negb (is_foreign_to_webhooks c)) calls = true ->
            existsb is_foreign_to_webhooks calls = false) as none.
  { induction calls as [|c calls IH]; [reflexivity|]. cbn.
    intros H. apply andb_true_iff in H as [H1 H2].
    apply negb_true_iff in H1. rewrite H1. now apply IH. }
  destruct (accepted_or_not request w) as [[event Hacc]|Hno].
  - unfold after. rewrite (POST_accepted _ _ _ Hacc).
    fold (after (try_catch (Webhook.processVerified event)
                   Webhook.respondToError) w).
    rewrite after_respondToError. apply none.
    apply (Continues_calls_since _ _ _ (processVerified_stays_in_its_lane event w)).
  - rewrite (POST_not_accepted request w Hno). unfold calls_since.
    now rewrite skipn_all.
Qed.

(** ** The webhook route: the ledger and the response *)

(** The classification of an error does not look at the context that the
    caller passes, the context itself apart. *)
Lemma categorizeError_context (error : JsError) (ctx ctx' : Context) :
  let a := ErrorHandler.categorizeError error ctx in
  let b := ErrorHandler.categorizeError error ctx' in
  message a = message b /\ category a = category b
  /\ severity a = severity b /\ retryable a = retryable b.
Proof.
  destruct error as [msg|ae]; cbn; [|auto].
  repeat match goal with
         | |- context [if ?c then _ else _] => destruct c
         end; cbn; auto.
Qed.

Lemma failure_response_env (error : JsError) (w w' : World) :
  env w' = env w -> failure_response error w' = failure_response error w.
Proof. unfold failure_response. now intros ->. Qed.

Lemma respondToError_run (error : JsError) (w : World) :
  Webhook.respondToError error w = (Returned (failure_response error w), w).
Proof. reflexivity. Qed.

Lemma dispatch_same_env (event : StripeWebhookEvent) :
  Steps (Continues (fun _ => true)) (Webhook.dispatch event).
Proof.
  unfold_handlers. unfold_services.
  follow (Stepwise_Continues (fun _ => true)) allowed_request.
Qed.

Lemma fault_free_env (w w' : World) :
  env w' = env w -> fault_free w -> fault_free w'.
Proof. unfold fault_free. now intros ->. Qed.

Lemma updateWebhookStatus_run (key : string) (st : WebhookStatus)
    (msg : option string) (w : World) :
  answers w ->
  DatabaseService.updateWebhookStatus key st msg w
  = (Returned tt,
     set_db (set_webhook_logs
               (map (fun r => if String.eqb (idempotency_key r) key
                              then DatabaseService.with_log_status st msg r
                              else r)
                  (webhook_logs (db w)))
               (db w))
       (record (DbUpdateWebhookStatus key st msg) w)).
Proof.
  intros H. unfold DatabaseService.updateWebhookStatus.
  now rewrite (statement_run _ _ w tt _ H eq_refl).
Qed.

(** The ledger once the row of a new event has been moved to a state. *)
Lemma ledger_of_new_event (key : string) (l : list WebhookLog) (r : WebhookLog)
    (st : WebhookStatus) (msg : option string) :
  existsb (fun r => String.eqb (idempotency_key r) key) l = false ->
  idempotency_key r = key ->
  map (fun r => if String.eqb (idempotency_key r) key
                then DatabaseService.with_log_status st msg r else r)
    (l ++ [r])
  = (l ++ [DatabaseService.with_log_status st msg r])%list.
Proof.
  intros H K. rewrite map_app, (update_fresh _ _ _ _ H). cbn.
  now rewrite K, String.eqb_refl.
Qed.

(** What [POST] does with a new event when every request is answered, in
    terms of what the handler does. *)
Lemma POST_fresh_run (request : Request) (w : World)
    (event : StripeWebhookEvent) :
  accepted request w event ->
  has_row (Webhook.idempotencyKey event) (db w) = false ->
  fault_free w ->
  let key := Webhook.idempotencyKey event in
  let started :=
    mkWorld
      (mkDatabase (customers (db w)) (subscriptions (db w))
         (plan_mappings (db w))
         (webhook_logs (db w)
          ++ [DatabaseService.with_log_status Processing None
                (received_row event (db w))])
         (customers_seq (db w)) (subscriptions_seq (db w))
         (webhook_logs_seq (db w) + 1))
      (env w)
      (trace w ++ [DbWebhookExists key; DbLogWebhook key Received;
                   DbUpdateWebhookStatus key Processing None])
      (sleeps w) (randoms_drawn w) (S (invocations w)) in
  let settle st msg (w2 : World) :=
    set_db (set_webhook_logs
              (webhook_logs (db w)
               ++ [DatabaseService.with_log_status st msg
                     (received_row event (db w))])
              (db w2))
      (record (DbUpdateWebhookStatus key st msg) w2) in
  forall o w2,
    Webhook.dispatch event started = (o, w2) ->
    Webhook.POST request w
    = match o with
      | Returned _ =>
        (Returned (mkResponse 200 (ReceivedBody None)), settle Success None w2)
      | Thrown e =>
        (Returned (failure_response e w),
         settle Error (Some (ledger_message e)) w2)
      end.
Proof.
  intros Hacc Hfresh Hff key started settle o w2 Hd.
  rewrite (POST_accepted _ _ _ Hacc). unfold try_catch at 1.
  rewrite (processVerified_fresh_run _ _ Hfresh Hff).
  unfold Webhook.processRecorded. fold key.
  match goal with
  | |- context [bind _ _ ?w0] =>
    assert (answers w0) as Ha0 by apply Hff
  end.
  rewrite (bind_returned _ _ _ _ _ (updateWebhookStatus_run _ _ _ _ Ha0)).
  unfold set_db, record, set_webhook_logs, add_webhook_log.
  cbn [db env trace sleeps randoms_drawn invocations webhook_logs customers
       subscriptions plan_mappings customers_seq subscriptions_seq
       webhook_logs_seq].
  rewrite <- app_assoc. cbn [app].
  rewrite (ledger_of_new_event key (webhook_logs (db w))
             (received_row event (db w)) Processing None Hfresh eq_refl).
  fold started.
  pose proof (dispatch_same_env event started) as [Henv _].
  pose proof (dispatch_SameLedger event started) as Hledger.
  unfold after, SameLedger in *. rewrite Hd in *. cbn [snd] in *.
  assert (answers w2) as Ha2 by (unfold answers; rewrite Henv; apply Hff).
  unfold try_catch at 1.
  destruct o as [[]|e].
  - rewrite (bind_returned _ _ _ _ _ Hd).
    rewrite (bind_returned _ _ _ _ _ (updateWebhookStatus_run _ _ _ _ Ha2)).
    unfold ret, settle. rewrite Hledger. cbn [started db webhook_logs].
    now rewrite (ledger_of_new_event key (webhook_logs (db w))
                   (DatabaseService.with_log_status Processing None
                      (received_row event (db w)))
                   Success None Hfresh eq_refl).
  - rewrite (bind_thrown _ _ _ _ _ Hd).
    unfold ErrorHandler.handleWebhookError.
    rewrite (bind_returned _ _ _ _ _ (updateWebhookStatus_run _ _ _ _ Ha2)).
    unfold throw. rewrite respondToError_run.
    destruct (categorizeError_context e
                [("webhookId", CtxString key)] [])
      as (-> & -> & _).
    fold (ledger_message e). unfold settle. rewrite Hledger.
    cbn [started db webhook_logs].
    rewrite (ledger_of_new_event key (webhook_logs (db w))
               (DatabaseService.with_log_status Processing None
                  (received_row event (db w)))
               Error (Some (ledger_message e)) Hfresh eq_refl).
    f_equal. f_equal. apply failure_response_env. cbn [env set_db record].
    now rewrite Henv.
Qed.

(** X4.  An event of a type that the route has no handler for is
    acknowledged: when it is new and every request is answered, [POST]
    answers 200 with [{ received: true }] after four ledger requests and no
    other, and the event's ledger entry ends as a success. *)
Theorem unhandled_event_type_is_acknowledged (request : Request) (w : World)
    (event : StripeWebhookEvent) :
  accepted request w event ->
  event_type event <> "checkout.session.completed" ->
  event_type event <> "customer.subscription.deleted" ->
  event_type event <> "customer.subscription.updated" ->
  has_row (Webhook.idempotencyKey event) (db w) = false ->
  fault_free w ->
  let key := Webhook.idempotencyKey event in
  let w' := after (Webhook.POST request) w in
  outcome (Webhook.POST request) w
  = Returned (mkResponse 200 (ReceivedBody None))
  /\ calls_since w w'
     = [DbWebhookExists key; DbLogWebhook key Received;
        DbUpdateWebhookStatus key Processing None;
        DbUpdateWebhookStatus key Success None]
  /\ customers (db w') = customers (db w)
  /\ subscriptions (db w') = subscriptions (db w)
  /\ webhook_logs (db w')
     = (webhook_logs (db w)
        ++ [DatabaseService.with_log_status Success None
              (received_row event (db w))])%list.
Proof.
  intros Hacc n1 n2 n3 Hfresh Hff key w'.
  apply String.eqb_neq in n1, n2, n3.
  pose proof (POST_fresh_run request w event Hacc Hfresh Hff) as H.
  cbv zeta beta in H.
  assert (forall s, Webhook.dispatch event s = (Returned tt, s)) as Hd
    by (intros s; unfold Webhook.dispatch; now rewrite n1, n2, n3).
  unfold w', outcome, after. rewrite (H _ _ (Hd _)).
  cbn [fst snd]. split; [reflexivity|].
  split.
  { unfold calls_since. cbn [trace set_db record].
    rewrite <- app_assoc, skipn_app, skipn_all, Nat.sub_diag. reflexivity. }
  now cbn.
Qed.

Lemma unhandled_event_type_is_acknowledged_witness :
  let event := subscription_event "evt_5" "invoice.paid" "sub_1" "active" in
  let w := world_receiving event in
  outcome (Webhook.POST sample_request) w
  = Returned (mkResponse 200 (ReceivedBody None))
  /\ calls_since w (after (Webhook.POST sample_request) w)
     = [DbWebhookExists "stripe_evt_5"; DbLogWebhook "stripe_evt_5" Received;
        DbUpdateWebhookStatus "stripe_evt_5" Processing None;
        DbUpdateWebhookStatus "stripe_evt_5" Success None].
Proof.
  intros event w.
  assert (accepted sample_request w event) as Hacc.
  { exists "good". repeat split; [discriminate]. }
  destruct (unhandled_event_type_is_acknowledged sample_request w event Hacc)
    as (O & C & _); try discriminate; try reflexivity.
  - intros n; reflexivity.
  - split; [exact O | exact C].
Defined.



(** ** The retry executor, for any operation *)

(** The loop from attempt [attempt] on, when [remaining] iterations are
    exactly those up to [maxRetries]: it invokes the operation at least once
    and at most [remaining] times, and sleeps once less often than that. *)
Lemma attempts_bookkeeping {T} (operation : M T) (maxRetries baseDelay : Z) :
  Steps SameBookkeeping operation ->
  forall remaining attempt lastError w,
    attempt + Z.of_nat remaining = maxRetries + 1 ->
    random_in_unit_interval w ->
    let w' := after (ErrorHandler.attempts operation maxRetries baseDelay
                       remaining attempt lastError) w in
    env w' = env w
    /\ exists n delays,
         invocations w' = (invocations w + n)%nat
         /\ (n <= remaining)%nat
         /\ (remaining <> 0%nat -> n <> 0%nat)
         /\ sleeps w' = (sleeps w ++ delays)%list
         /\ length delays = pred n
         /\ forall j d, nth_error delays j = Some d ->
                        delay_from baseDelay attempt j d.
Proof.
  intros Hf. induction remaining as [|remaining IH];
    intros attempt lastError w Hsum Hrand w'.
  - assert (w' = w) as -> by (unfold w'; now destruct lastError).
    split; [reflexivity|]. exists 0%nat, []. rewrite app_nil_r.
    split; [lia|]. split; [lia|]. split; [congruence|].
    split; [reflexivity|]. split; [reflexivity|].
    intros [|j] d; discriminate.
  - unfold w', after. cbn [ErrorHandler.attempts]. unfold try_catch.
    destruct (ErrorHandler.invoke operation w) as [[v|e] w1] eqn:Hop;
      destruct (invoke_bookkeeping _ _ _ _ Hf Hop) as (He & Hs & Hd & Hi).
    { cbn [snd]. split; [assumption|]. exists 1%nat, [].
      rewrite app_nil_r. split; [lia|]. split; [lia|]. split; [lia|].
      split; [assumption|]. split; [reflexivity|].
      intros [|j] d; discriminate. }
    destruct (negb _).
    { unfold throw. cbn [snd]. split; [assumption|]. exists 1%nat, [].
      rewrite app_nil_r. split; [lia|]. split; [lia|]. split; [lia|].
      split; [assumption|]. split; [reflexivity|].
      intros [|j] d; discriminate. }
    destruct (Z.eqb_spec attempt maxRetries) as [Heq|Hne].
    { unfold ErrorHandler.exhausted, throw. cbn [snd]. split; [assumption|]. exists 1%nat, [].
      rewrite app_nil_r. split; [lia|]. split; [lia|]. split; [lia|].
      split; [assumption|]. split; [reflexivity|].
      intros [|j] d; discriminate. }
    unfold bind. rewrite backoff_run.
    match goal with
    | |- context [ErrorHandler.attempts _ _ _ _ _ _ ?w2] =>
      specialize (IH (attempt + 1) (Some e) w2)
    end.
    destruct IH as (IHe & n & delays & IHi & IHn & IHpos & IHs & IHl & IHb);
      [lia | intros m; cbn [env]; rewrite He; apply Hrand |].
    unfold after in *. cbn [env invocations sleeps] in *.
    split; [congruence|].
    exists (S n). eexists (_ :: delays).
    split; [lia|]. split; [lia|]. split; [lia|].
    split; [rewrite IHs, Hs, <- app_assoc; reflexivity|].
    split; [cbn; rewrite IHl; lia|].
    intros [|j] dl; cbn [nth_error].
    + intros [= <-]. unfold delay_from. rewrite Z.add_0_r.
      apply jitter_bounds. rewrite He. apply Hrand.
    + intros Hj. apply IHb in Hj. unfold delay_from in *.
      replace (attempt + Z.of_nat (S j) - 1) with (attempt + 1 + Z.of_nat j - 1)
        by lia.
      exact Hj.
Qed.

(** X6.  Whatever the operation does, as long as it leaves the executor's
    own bookkeeping alone: [withRetry] invokes it at most [maxRetries]
    times, and at least once when [maxRetries] is positive; it sleeps exactly
    once between two invocations and never after the last one; and every
    delay is within the bounds of its attempt. *)
Theorem withRetry_bounds {T} (operation : M T) (maxRetries baseDelay : Z)
    (w : World) :
  Steps SameBookkeeping operation ->
  random_in_unit_interval w ->
  let w' := after (ErrorHandler.withRetry operation maxRetries baseDelay) w in
  exists n,
    invocations w' = (invocations w + n)%nat
    /\ (n <= Z.to_nat maxRetries)%nat
    /\ (0 < maxRetries -> (1 <= n)%nat)
    /\ length (delays_since w w') = pred n
    /\ delays_in_bounds baseDelay (delays_since w w').
Proof.
  intros Hf Hrand w'. unfold w', ErrorHandler.withRetry.
  destruct (Z_le_gt_dec maxRetries 0) as [Hle|Hgt].
  - replace (Z.to_nat maxRetries) with 0%nat by lia. cbn [ErrorHandler.attempts].
    assert (after (@ErrorHandler.exhausted T None maxRetries) w = w) as ->
      by reflexivity.
    exists 0%nat. unfold delays_since. rewrite skipn_all.
    split; [lia|]. split; [lia|]. split; [lia|]. split; [reflexivity|].
    intros [|j] d; discriminate.
  - destruct (attempts_bookkeeping operation maxRetries baseDelay Hf
                (Z.to_nat maxRetries) 1 None w)
      as (_ & n & delays & Hi & Hn & Hpos & Hs & Hl & Hb); [lia | assumption |].
    exists n. rewrite (delays_since_app _ _ _ Hs).
    split; [assumption|]. split; [assumption|]. split; [lia|].
    split; [assumption|]. now apply delay_from_first.
Qed.

Lemma withRetry_bounds_witness :
  let operation := EnhanceService.suspendSubscription "enh_sub_1" in
  let w := flaky_world [PlainError "network timeout"; PlainError "fetch failed"] in
  let w' := after (ErrorHandler.withRetry operation 3 1000) w in
  exists n,
    invocations w' = (invocations w + n)%nat
    /\ (n <= Z.to_nat 3)%nat
    /\ (0 < 3 -> (1 <= n)%nat)
    /\ length (delays_since w w') = pred n
    /\ delays_in_bounds 1000 (delays_since w w').
Proof.
  intros operation w.
  apply (withRetry_bounds operation 3 1000 w).
  - apply remote_bookkeeping.
  - intros n. cbn. split; [discriminate | reflexivity].
Defined.

(** What the loop ends with: a value that the operation has just returned,
    or the classification of the error that it has just thrown. *)
Lemma attempts_outcome {T} (operation : M T) (maxRetries baseDelay : Z) :
  forall remaining attempt lastError w,
    remaining <> 0%nat ->
    attempt + Z.of_nat remaining = maxRetries + 1 ->
    match ErrorHandler.attempts operation maxRetries baseDelay remaining attempt
            lastError w with
    | (Returned v, w') =>
      exists w0, ErrorHandler.invoke operation w0 = (Returned v, w')
    | (Thrown error, w') =>
      exists e0 w0 ctx,
        ErrorHandler.invoke operation w0 = (Thrown e0, w')
        /\ error = IsAppError (ErrorHandler.categorizeError e0 ctx)
    end.
Proof.
  induction remaining as [|remaining IH]; intros attempt lastError w Hpos Hsum;
    [congruence|].
  cbn [ErrorHandler.attempts]. unfold try_catch.
  destruct (ErrorHandler.invoke operation w) as [[v|e] w1] eqn:Hop; [eauto|].
  destruct (negb _); [unfold throw; eauto|].
  destruct (Z.eqb_spec attempt maxRetries) as [Heq|Hne];
    [unfold ErrorHandler.exhausted, throw; eauto|].
  unfold bind. rewrite backoff_run. apply IH; lia.
Qed.

(** X7.  With a positive number of attempts, [withRetry] returns only what
    its operation has just returned, and throws only [AppError]s: the
    classification of the error that the operation has just thrown.  With
    no attempt allowed it does not invoke the operation at all and fails
    with a TypeError, because there is no last error to classify. *)
Theorem withRetry_outcomes {T} (operation : M T) (maxRetries baseDelay : Z)
    (w : World) :
  (0 < maxRetries ->
   match ErrorHandler.withRetry operation maxRetries baseDelay w with
   | (Returned v, w') =>
     exists w0, ErrorHandler.invoke operation w0 = (Returned v, w')
   | (Thrown error, w') =>
     exists e0 w0 ctx,
       ErrorHandler.invoke operation w0 = (Thrown e0, w')
       /\ error = IsAppError (ErrorHandler.categorizeError e0 ctx)
   end)
  /\
  (maxRetries <= 0 ->
   ErrorHandler.withRetry operation maxRetries baseDelay w
   = (Thrown (PlainError
                "Cannot read properties of undefined (reading 'message')"), w)).
Proof.
  split; intros H; unfold ErrorHandler.withRetry.
  - apply attempts_outcome; lia.
  - now replace (Z.to_nat maxRetries) with 0%nat by lia.
Qed.

Lemma withRetry_outcomes_witness :
  let operation := EnhanceService.suspendSubscription "enh_sub_1" in
  let w := flaky_world [PlainError "network timeout"; PlainError "fetch failed"] in
  match ErrorHandler.withRetry operation 3 1000 w with
  | (Returned v, w') =>
    exists w0, ErrorHandler.invoke operation w0 = (Returned v, w')
  | (Thrown error, w') =>
    exists e0 w0 ctx,
      ErrorHandler.invoke operation w0 = (Thrown e0, w')
      /\ error = IsAppError (ErrorHandler.categorizeError e0 ctx)
  end.
Proof.
  intros operation w.
  apply (proj1 (withRetry_outcomes operation 3 1000 w)). reflexivity.
Defined.

(** ** Following the retry executor while an invariant holds *)

Lemma Stepwise_and (R1 R2 : World -> World -> Prop) :
  Stepwise R1 -> Stepwise R2 -> Stepwise (fun w w' => R1 w w' /\ R2 w w').
Proof.
  intros (r1 & t1 & o1) (r2 & t2 & o2).
  split; [|split].
  - intros w. split; [apply r1 | apply r2].
  - intros w1 w2 w3 [a1 a2] [b1 b2]. split; [eapply t1 | eapply t2]; eassumption.
  - intros w w1 w2 D E T [a1 a2]. split; [eapply o1 | eapply o2]; eassumption.
Qed.

Section UnderInvariant.

Variable R : World -> World -> Prop.
Hypothesis R_stepwise : Stepwise R.

(** The invariant looks at the database only, and every step keeps it. *)
Variable I : World -> Prop.
Hypothesis I_database : forall w w', db w' = db w -> I w -> I w'.
Hypothesis I_step : forall w w', R w w' -> I w -> I w'.

Lemma attempts_under_invariant {T} (operation : M T)
    (maxRetries baseDelay : Z) :
  (forall w, I w -> R w (after operation w)) ->
  forall remaining attempt lastError w,
    I w ->
    R w (after (ErrorHandler.attempts operation maxRetries baseDelay remaining
                  attempt lastError) w).
Proof.
  destruct R_stepwise as (R_refl & R_trans & R_obs).
  intros Hop. induction remaining as [|remaining IH];
    intros attempt lastError w HI.
  - unfold after. destruct lastError; apply R_refl.
  - unfold after. cbn [ErrorHandler.attempts]. unfold try_catch.
    rewrite invoke_run.
    match goal with
    | |- context [operation ?w0] =>
      assert (R w w0) as Hw0
        by (eapply R_obs; [| | |apply R_refl]; reflexivity);
      assert (I w0) as HI0 by (apply (I_database w); [reflexivity | assumption]);
      pose proof (Hop w0 HI0) as H1; unfold after in H1;
      destruct (operation w0) as [[v|e] w1]
    end; cbn [snd] in *.
    + eapply R_trans; eassumption.
    + assert (R w w1) as Hw1 by (eapply R_trans; eassumption).
      destruct (negb _); [exact Hw1|].
      destruct (attempt =? maxRetries); [exact Hw1|].
      unfold bind. rewrite backoff_run.
      match goal with
      | |- context [ErrorHandler.attempts _ _ _ _ _ _ ?w2] =>
        assert (R w w2) as Hw2
          by (eapply R_obs; [| | |exact Hw1]; reflexivity);
        specialize (IH (attempt + 1) (Some e) w2)
      end.
      unfold after in IH.
      eapply R_trans; [exact Hw2|]. apply IH.
      eapply I_database; [|eapply I_step; [exact H1 | exact HI0]]. reflexivity.
Qed.

End UnderInvariant.

(** ** Events for a subscription that the database does not know *)

Lemma forallb_lookup_of_self (id : option string) :
  is_lookup_of id (DbFindSubscriptionByStripeId id) = true.
Proof. destruct id; cbn; [apply String.eqb_refl | reflexivity]. Qed.

Lemma subscriptionDeleted_unknown (event : StripeWebhookEvent) (w : World) :
  event_type event = "customer.subscription.deleted" ->
  subscription_of (obj_id (data_object event)) (db w) = None ->
  SameDatabase w (after (Webhook.subscriptionDeleted event) w)
  /\ Continues (is_lookup_of (obj_id (data_object event))) w
       (after (Webhook.subscriptionDeleted event) w).
Proof.
  intros Ht Hnone. unfold Webhook.subscriptionDeleted, after.
  unfold StripeService.extractSubscriptionData. rewrite Ht.
  cbn [String.eqb Ascii.eqb Bool.eqb orb status stripeSubscriptionId].
  unfold_run. unfold subscription_of in Hnone.
  destruct (faults _ _); cbn [snd db env trace record].
  - split; [reflexivity|]. apply Continues_record, forallb_lookup_of_self.
  - rewrite Hnone. cbn [snd]. split; [reflexivity|].
    apply Continues_record, forallb_lookup_of_self.
Qed.

Lemma handleSubscriptionDeleted_unknown_run (event : StripeWebhookEvent)
    (w : World) :
  event_type event = "customer.subscription.deleted" ->
  subscription_of (obj_id (data_object event)) (db w) = None ->
  fault_free w ->
  Webhook.handleSubscriptionDeleted event w
  = (Returned tt,
     mkWorld (db w) (env w)
       (trace w ++ [DbFindSubscriptionByStripeId (obj_id (data_object event))])
       (sleeps w) (randoms_drawn w) (S (invocations w))).
Proof.
  intros Ht Hnone Hff. unfold Webhook.handleSubscriptionDeleted.
  apply withRetry_first_try; [lia|]. rewrite invoke_run.
  unfold Webhook.subscriptionDeleted, StripeService.extractSubscriptionData.
  rewrite Ht. cbn [String.eqb Ascii.eqb Bool.eqb orb status stripeSubscriptionId].
  unfold_run.
  unfold subscription_of in Hnone. unfold fault_free in Hff.
  cbn [env db trace record set_db]. rewrite Hff, Hnone. reflexivity.
Qed.

(** X8.  A deletion event for a subscription that the database does not
    know changes nothing, whatever fails: every request that the handler
    makes is the lookup of that subscription, and the database stays as it
    is.  When every request is answered the handler returns after one
    lookup, so the event is recorded as a success. *)
Theorem deletion_of_unknown_subscription (event : StripeWebhookEvent)
    (w : World) :
  event_type event = "customer.subscription.deleted" ->
  subscription_of (obj_id (data_object event)) (db w) = None ->
  let w' := after (Webhook.handleSubscriptionDeleted event) w in
  db w' = db w
  /\ forallb (is_lookup_of (obj_id (data_object event))) (calls_since w w') = true
  /\ (fault_free w ->
      outcome (Webhook.handleSubscriptionDeleted event) w = Returned tt
      /\ calls_since w w'
         = [DbFindSubscriptionByStripeId (obj_id (data_object event))]).
Proof.
  intros Ht Hnone w'.
  pose (R := fun w w' : World =>
               SameDatabase w w'
               /\ Continues (is_lookup_of (obj_id (data_object event))) w w').
  assert (R w w') as [Hdb Hc].
  { unfold w', Webhook.handleSubscriptionDeleted, ErrorHandler.withRetry.
    apply (attempts_under_invariant R
             (Stepwise_and _ _ Stepwise_SameDatabase (Stepwise_Continues _))
             (fun w => subscription_of (obj_id (data_object event)) (db w) = None)).
    - intros w0 w1 E. now rewrite E.
    - intros w0 w1 [E _]. unfold SameDatabase in E. now rewrite E.
    - intros w0 H0. now apply subscriptionDeleted_unknown.
    - exact Hnone. }
  split; [exact Hdb|].
  split; [apply (Continues_calls_since _ _ _ Hc)|].
  intros Hff. unfold w', outcome, after.
  rewrite (handleSubscriptionDeleted_unknown_run _ _ Ht Hnone Hff).
  cbn [fst snd]. split; [reflexivity | apply calls_since_mkWorld].
Qed.

Lemma deletion_of_unknown_subscription_witness :
  let event :=
    subscription_event "evt_1" "customer.subscription.deleted" "sub_9"
      "canceled" in
  let w := flaky_world [PlainError "network timeout"] in
  let w' := after (Webhook.handleSubscriptionDeleted event) w in
  db w' = db w
  /\ forallb (is_lookup_of (Some "sub_9")) (calls_since w w') = true.
Proof.
  intros event w.
  destruct (deletion_of_unknown_subscription event w eq_refl eq_refl)
    as (D & C & _).
  split; [exact D | exact C].
Defined.

(** ** What the webhook route leaves alone *)

Lemma keeps_ids_and_plan_refl (s : Subscription) : keeps_ids_and_plan s s.
Proof. now repeat split. Qed.

Lemma keeps_ids_and_plan_trans (s1 s2 s3 : Subscription) :
  keeps_ids_and_plan s1 s2 -> keeps_ids_and_plan s2 s3 ->
  keeps_ids_and_plan s1 s3.
Proof.
  unfold keeps_ids_and_plan.
  intros (A1 & A2 & A3 & A4 & A5) (B1 & B2 & B3 & B4 & B5).
  repeat split; congruence.
Qed.

Lemma keeps_ids_and_plan_list_refl (l : list Subscription) :
  Forall2 keeps_ids_and_plan l l.
Proof. induction l; constructor; auto using keeps_ids_and_plan_refl. Qed.

Lemma keeps_ids_and_plan_list_trans (l1 l2 l3 : list Subscription) :
  Forall2 keeps_ids_and_plan l1 l2 -> Forall2 keeps_ids_and_plan l2 l3 ->
  Forall2 keeps_ids_and_plan l1 l3.
Proof.
  intros H; revert l3; induction H as [|a b l1 l2 Hab _ IH]; intros l3 H3;
    inversion H3 as [|b' c l2' l3' Hbc H3']; subst; constructor; auto.
  eapply keeps_ids_and_plan_trans; eassumption.
Qed.

Lemma keeps_ids_and_plan_update (id : Z) (st : SubscriptionStatus)
    (l : list Subscription) :
  Forall2 keeps_ids_and_plan l
    (map (fun s => if subscription_pk s =? id
                   then DatabaseService.with_status st s else s) l).
Proof.
  induction l as [|s l IH]; constructor; [|exact IH].
  destruct (subscription_pk s =? id); now repeat split.
Qed.

Lemma Stepwise_RouteStep : Stepwise RouteStep.
Proof.
  unfold Stepwise, Observational, RouteStep. split; [|split].
  - intros w. split; [reflexivity|]. split; exists []; rewrite app_nil_r;
      [reflexivity | apply keeps_ids_and_plan_list_refl].
  - intros w1 w2 w3 (P1 & [c1 C1] & [s1 S1]) (P2 & [c2 C2] & [s2 S2]).
    split; [congruence|]. split.
    + exists (c1 ++ c2)%list. now rewrite C2, C1, app_assoc.
    + exists (s1 ++ s2)%list.
      apply Forall2_app_inv_l in S2 as (l3 & n3 & F3 & G3 & ->).
      rewrite app_assoc. apply Forall2_app; [|assumption].
      eapply keeps_ids_and_plan_list_trans; eassumption.
  - intros w w1 w2 D _ _ H. now rewrite D.
Qed.

Lemma RouteStep_record (c : Call) (w : World) : RouteStep w (record c w).
Proof.
  split; [reflexivity|]. split; exists []; rewrite app_nil_r;
    [reflexivity | apply keeps_ids_and_plan_list_refl].
Qed.

Lemma RouteStep_add_customer (row : Customer) (w : World) :
  RouteStep w (set_db (add_customer row (db w)) w).
Proof.
  split; [reflexivity|]. split; [now exists [row]|].
  exists []. rewrite app_nil_r. apply keeps_ids_and_plan_list_refl.
Qed.

Lemma RouteStep_add_subscription (row : Subscription) (w : World) :
  RouteStep w (set_db (add_subscription row (db w)) w).
Proof.
  split; [reflexivity|]. split; [exists []; now rewrite app_nil_r|].
  exists [row]. apply keeps_ids_and_plan_list_refl.
Qed.

Lemma RouteStep_update_status (id : Z) (st : SubscriptionStatus) (w : World) :
  RouteStep w
    (set_db (set_subscriptions
               (map (fun s => if subscription_pk s =? id
                              then DatabaseService.with_status st s else s)
                  (subscriptions (db w)))
               (db w)) w).
Proof.
  split; [reflexivity|]. split; [exists []; now rewrite app_nil_r|].
  exists []. rewrite app_nil_r. apply keeps_ids_and_plan_update.
Qed.

Lemma RouteStep_ledger (l : list WebhookLog) (n : Z) (w : World) :
  RouteStep w
    (set_db (mkDatabase (customers (db w)) (subscriptions (db w))
               (plan_mappings (db w)) l (customers_seq (db w))
               (subscriptions_seq (db w)) n) w).
Proof.
  split; [reflexivity|]. split; exists []; rewrite app_nil_r;
    [reflexivity | apply keeps_ids_and_plan_list_refl].
Qed.

Ltac route_leaf :=
  first
    [ intro; apply RouteStep_record
    | let H := fresh in
      intros ? ? ? H;
      repeat match type of H with
             | context [match ?x with _ => _ end] => destruct x
             end;
      first
        [ discriminate H
        | injection H as <- <-;
          first [ apply RouteStep_add_customer
                | apply RouteStep_add_subscription
                | apply RouteStep_update_status
                | apply RouteStep_ledger ] ] ].

Lemma processVerified_RouteStep (event : StripeWebhookEvent) :
  Steps RouteStep (Webhook.processVerified event).
Proof.
  unfold_handlers. unfold_services.
  follow Stepwise_RouteStep route_leaf.
Qed.

(** X9.  Whatever the request and whatever fails, [POST] leaves the plan
    mappings as they are, only adds rows to the customers, and only adds
    rows to the subscriptions or updates the status of existing ones: no
    customer and no subscription is deleted, the rows of the customers that
    were there are as before, and every subscription that was there keeps
    its [id], [customer_id], [enhance_subscription_id],
    [stripe_subscription_id] and [enhance_plan_id].  (Of a subscription the
    route writes [status] and, in the same statement, the timestamp
    [updated_at], which the embedding does not keep.) *)
Theorem webhook_route_frame (request : Request) (w : World) :
  let w' := after (Webhook.POST request) w in
  plan_mappings (db w') = plan_mappings (db w)
  /\ (exists added, customers (db w') = (customers (db w) ++ added)%list)
  /\ (exists added,
        Forall2 keeps_ids_and_plan (subscriptions (db w) ++ added)%list
          (subscriptions (db w'))).
Proof.
  intros w'. change (RouteStep w w'). unfold w'.
  destruct (accepted_or_not request w) as [[event Hacc]|Hno].
  - unfold after. rewrite (POST_accepted _ _ _ Hacc).
    fold (after (try_catch (Webhook.processVerified event)
                   Webhook.respondToError) w).
    rewrite after_respondToError. apply processVerified_RouteStep.
  - rewrite (POST_not_accepted request w Hno).
    apply (proj1 Stepwise_RouteStep).
Qed.

(** ** Checkout of a customer that the database knows *)

Lemma first_row_In {A} (f : A -> bool) (l : list A) (a : A) :
  DatabaseService.first_row (filter f l) = Some a -> In a l /\ f a = true.
Proof.
  unfold DatabaseService.first_row. intros H.
  assert (In a (filter f l)) as Hin
    by (destruct (filter f l); [discriminate | injection H as ->; now left]).
  now apply filter_In in Hin.
Qed.

Lemma customer_of_referenced (id : option string) (d : Database) (c : Customer) :
  customer_of id d = Some c ->
  existsb (fun c' => customer_pk c' =? customer_pk c) (customers d) = true.
Proof.
  intros H. apply first_row_In in H as [Hin _].
  apply existsb_exists. exists c. split; [assumption | apply Z.eqb_refl].
Qed.

Lemma remote_run {A} (c : Call) (answer : Environment -> nat -> A) (w : World) :
  answers w ->
  remote c answer w
  = (Returned (answer (env w) (S (length (trace w)))), record c w).
Proof.
  intros H. unfold remote. rewrite request_answered by assumption.
  unfold record. cbn [env trace]. now rewrite length_app, Nat.add_1_r.
Qed.

Lemma statement_rejected {A} (c : Call)
    (run : Database -> option (A * Database)) (w : World) :
  answers w -> run (db w) = None ->
  statement c run w = (Thrown (constraint_violation (env w)), record c w).
Proof.
  intros H E. unfold statement. rewrite request_answered by assumption.
  cbn [db record]. now rewrite E.
Qed.

(** One run of the checkout operation for a known customer and a mapped
    price, when its first three requests are answered: the subscription is
    created in the provisioning system first, and then the insertion fails,
    or the row is inserted or rejected. *)
Lemma checkoutCompleted_known_customer_steps (event : StripeWebhookEvent)
    (w : World) (customer : Customer) (mapping : PlanMapping) :
  event_type event = "checkout.session.completed" ->
  customer_of (obj_customer (data_object event)) (db w) = Some customer ->
  plan_mapping_of "stripe" (line_items_price (data_object event)) (db w)
  = Some mapping ->
  answers w ->
  faults (env w) (length (trace w) + 1) = None ->
  faults (env w) (length (trace w) + 2) = None ->
  let enhanceId := enhance_new_id (env w) (length (trace w) + 3) in
  let stripeId := obj_subscription (data_object event) in
  let row :=
    mkSubscription (subscriptions_seq (db w)) (customer_pk customer) enhanceId
      stripeId (mapped_enhance_plan_id mapping) Active in
  let calls := known_customer_checkout_calls event customer mapping enhanceId in
  let stopped :=
    mkWorld (db w) (env w) (trace w ++ calls) (sleeps w) (randoms_drawn w)
      (invocations w) in
  Webhook.checkoutCompleted event w
  = match faults (env w) (length (trace w) + 3) with
    | Some e => (Thrown e, stopped)
    | None =>
      if subscription_ids_free enhanceId stripeId (db w)
      then (Returned tt,
            mkWorld (add_subscription row (db w)) (env w) (trace w ++ calls)
              (sleeps w) (randoms_drawn w) (invocations w))
      else (Thrown (constraint_violation (env w)), stopped)
    end.
Proof.
  intros Ht Hcust Hmap H0 H1 H2 enhanceId stripeId row calls stopped.
  unfold Webhook.checkoutCompleted, StripeService.extractCustomerData,
    StripeService.extractSubscriptionData.
  rewrite Ht.
  cbn [String.eqb Ascii.eqb Bool.eqb stripePriceId cd_stripeCustomerId
       stripeSubscriptionId].
  unfold DatabaseService.findCustomerByStripeId.
  erewrite bind_returned; [|apply query_run, H0].
  pose proof (customer_of_referenced _ _ _ Hcust) as Href.
  unfold customer_of in Hcust. cbn [db]. rewrite Hcust.
  erewrite bind_returned; [|reflexivity].
  unfold Webhook.resolvePlanMapping, DatabaseService.findPlanMapping.
  assert (forall c, length (trace (record c w)) = (length (trace w) + 1)%nat)
    as Hlen1 by (intros c; cbn [record trace]; now rewrite length_app).
  erewrite bind_returned;
    [|erewrite bind_returned;
      [|apply query_run; unfold answers; cbn [env record]; rewrite Hlen1;
        exact H1];
      unfold plan_mapping_of in Hmap; cbn [db record]; rewrite Hmap;
      reflexivity].
  unfold EnhanceService.createSubscription.
  erewrite bind_returned;
    [|apply remote_run; unfold answers; cbn [env record trace];
      rewrite !length_app; cbn [length]; rewrite <- Nat.add_assoc; exact H2].
  unfold DatabaseService.createSubscription.
  cbn [record env trace db]. rewrite !length_app. cbn [length].
  replace (S (length (trace w) + 1 + 1)) with (length (trace w) + 3)%nat by lia.
  fold enhanceId. fold stripeId.
  unfold statement, request, bind.
  cbn [record env trace db]. rewrite !length_app. cbn [length].
  replace (length (trace w) + 1 + 1 + 1)%nat with (length (trace w) + 3)%nat
    by lia.
  unfold stopped, calls, known_customer_checkout_calls.
  destruct (faults (env w) (length (trace w) + 3)).
  - unfold record. cbn [db env trace sleeps randoms_drawn invocations].
    now rewrite <- !app_assoc.
  - cbn [db]. rewrite Href. unfold subscription_ids_free.
    destruct (existsb _ (subscriptions (db w))); cbn [negb andb];
      unfold ret, set_db, record;
      cbn [db env trace sleeps randoms_drawn invocations];
      now rewrite <- !app_assoc.
Qed.

Lemma checkoutCompleted_known_customer_run (event : StripeWebhookEvent)
    (w : World) (customer : Customer) (mapping : PlanMapping) :
  event_type event = "checkout.session.completed" ->
  customer_of (obj_customer (data_object event)) (db w) = Some customer ->
  plan_mapping_of "stripe" (line_items_price (data_object event)) (db w)
  = Some mapping ->
  fault_free w ->
  let enhanceId := enhance_new_id (env w) (length (trace w) + 3) in
  let stripeId := obj_subscription (data_object event) in
  let row :=
    mkSubscription (subscriptions_seq (db w)) (customer_pk customer) enhanceId
      stripeId (mapped_enhance_plan_id mapping) Active in
  let calls := known_customer_checkout_calls event customer mapping enhanceId in
  Webhook.checkoutCompleted event w
  = if subscription_ids_free enhanceId stripeId (db w)
    then (Returned tt,
          mkWorld (add_subscription row (db w)) (env w) (trace w ++ calls)
            (sleeps w) (randoms_drawn w) (invocations w))
    else (Thrown (constraint_violation (env w)),
          mkWorld (db w) (env w) (trace w ++ calls)
            (sleeps w) (randoms_drawn w) (invocations w)).
Proof.
  intros Ht Hcust Hmap Hff.
  pose proof (checkoutCompleted_known_customer_steps event w customer mapping
                Ht Hcust Hmap (Hff _) (Hff _) (Hff _)) as H.
  cbv zeta in *. now rewrite Hff in H.
Qed.

(** X10.  A completed checkout of a customer that the database knows, for a
    price that has a plan mapping, when every request is answered and no
    subscription has the two new ids yet: the handler creates the
    subscription in the provisioning system under the customer's Enhance id
    and the mapped plan, then inserts one active row that carries that
    plan, and leaves the customers alone. *)
Theorem checkout_of_known_customer (event : StripeWebhookEvent) (w : World)
    (customer : Customer) (mapping : PlanMapping) :
  event_type event = "checkout.session.completed" ->
  customer_of (obj_customer (data_object event)) (db w) = Some customer ->
  plan_mapping_of "stripe" (line_items_price (data_object event)) (db w)
  = Some mapping ->
  fault_free w ->
  let enhanceId := enhance_new_id (env w) (length (trace w) + 3) in
  let stripeId := obj_subscription (data_object event) in
  subscription_ids_free enhanceId stripeId (db w) = true ->
  let w' := after (Webhook.handleCheckoutCompleted event) w in
  outcome (Webhook.handleCheckoutCompleted event) w = Returned tt
  /\ calls_since w w'
     = known_customer_checkout_calls event customer mapping enhanceId
  /\ customers (db w') = customers (db w)
  /\ subscriptions (db w')
     = (subscriptions (db w)
        ++ [mkSubscription (subscriptions_seq (db w)) (customer_pk customer)
              enhanceId stripeId (mapped_enhance_plan_id mapping) Active])%list.
Proof.
  intros Ht Hcust Hmap Hff enhanceId stripeId Hfree w'.
  assert (Webhook.handleCheckoutCompleted event w
          = (Returned tt,
             mkWorld
               (add_subscription
                  (mkSubscription (subscriptions_seq (db w))
                     (customer_pk customer) enhanceId stripeId
                     (mapped_enhance_plan_id mapping) Active) (db w))
               (env w)
               (trace w ++ known_customer_checkout_calls event customer mapping
                             enhanceId)
               (sleeps w) (randoms_drawn w) (S (invocations w)))) as Hrun.
  { unfold Webhook.handleCheckoutCompleted.
    apply withRetry_first_try; [lia|]. rewrite invoke_run.
    match goal with
    | |- Webhook.checkoutCompleted event ?w0 = _ =>
      rewrite (checkoutCompleted_known_customer_run event w0 customer mapping
                 Ht Hcust Hmap Hff)
    end.
    cbn [db env trace sleeps randoms_drawn invocations].
    fold enhanceId. fold stripeId. now rewrite Hfree. }
  unfold w', outcome, after. rewrite Hrun. cbn [fst snd].
  split; [reflexivity|]. split; [apply calls_since_mkWorld|].
  split; reflexivity.
Qed.

Lemma checkout_of_known_customer_witness :
  let event := checkout_event "evt_2" "price_basic_monthly" in
  let w := sample_world "active" "active" in
  let w' := after (Webhook.handleCheckoutCompleted event) w in
  outcome (Webhook.handleCheckoutCompleted event) w = Returned tt
  /\ calls_since w w'
     = [DbFindCustomerByStripeId (Some "cus_1");
        DbFindPlanMapping "stripe" (Some "price_basic_monthly");
        EnhanceCreateSubscription "enh_cus_1" "basic-hosting-plan";
        DbCreateSubscription "enh_new" (Some "sub_2") Active]
  /\ subscriptions (db w')
     = [sample_subscription;
        mkSubscription 2 1 "enh_new" (Some "sub_2") "basic-hosting-plan" Active].
Proof.
  intros event w.
  destruct (checkout_of_known_customer event w sample_customer
              (mkPlanMapping "stripe" "price_basic_monthly" "basic-hosting-plan")
              eq_refl eq_refl eq_refl (fun n => eq_refl) eq_refl)
    as (O & C & _ & S).
  split; [exact O|]. split; [exact C | exact S].
Defined.

(** ** Checkout of a subscription that the database already has *)

Lemma recorded_subscription_blocks (enhanceId : string)
    (stripeId : option string) (d : Database) (sub : Subscription) :
  subscription_of stripeId d = Some sub ->
  subscription_ids_free enhanceId stripeId d = false.
Proof.
  intros H. apply first_row_In in H as [Hin Heq].
  unfold subscription_ids_free. apply negb_false_iff, existsb_exists.
  exists sub. split; [assumption|]. now rewrite Heq, orb_true_r.
Qed.

Lemma checkoutCompleted_recorded_run (event : StripeWebhookEvent)
    (w : World) (customer : Customer) (mapping : PlanMapping)
    (sub : Subscription) :
  event_type event = "checkout.session.completed" ->
  customer_of (obj_customer (data_object event)) (db w) = Some customer ->
  plan_mapping_of "stripe" (line_items_price (data_object event)) (db w)
  = Some mapping ->
  subscription_of (obj_subscription (data_object event)) (db w) = Some sub ->
  fault_free w ->
  ErrorHandler.invoke (Webhook.checkoutCompleted event) w
  = (Thrown (constraint_violation (env w)),
     mkWorld (db w) (env w)
       (trace w
        ++ known_customer_checkout_calls event customer mapping
             (enhance_new_id (env w) (length (trace w) + 3)))
       (sleeps w) (randoms_drawn w) (S (invocations w))).
Proof.
  intros Ht Hcust Hmap Hsub Hff. rewrite invoke_run.
  match goal with
  | |- Webhook.checkoutCompleted event ?w0 = _ =>
    rewrite (checkoutCompleted_known_customer_run event w0 customer mapping
               Ht Hcust Hmap Hff)
  end.
  cbn [db env trace sleeps randoms_drawn invocations].
  now rewrite (recorded_subscription_blocks _ _ _ _ Hsub).
Qed.

(** X11.  A completed checkout for a subscription that the database already
    has, of a known customer and a mapped price, when every request is
    answered: every attempt creates a subscription in the provisioning
    system before the insertion is rejected, so the handler throws the
    classified constraint violation, the four tables hold the rows that
    they held before, and one subscription has been created in the
    provisioning system for each attempt: three when the classifier takes
    the constraint violation for a retryable error, one otherwise. *)
Theorem checkout_of_recorded_subscription (event : StripeWebhookEvent)
    (w : World) (customer : Customer) (mapping : PlanMapping)
    (sub : Subscription) :
  event_type event = "checkout.session.completed" ->
  customer_of (obj_customer (data_object event)) (db w) = Some customer ->
  plan_mapping_of "stripe" (line_items_price (data_object event)) (db w)
  = Some mapping ->
  subscription_of (obj_subscription (data_object event)) (db w) = Some sub ->
  fault_free w ->
  let w' := after (Webhook.handleCheckoutCompleted event) w in
  let violation :=
    ErrorHandler.categorizeError (constraint_violation (env w)) [] in
  outcome (Webhook.handleCheckoutCompleted event) w
  = Thrown (IsAppError
              (ErrorHandler.categorizeError (constraint_violation (env w))
                 (if retryable violation
                  then [("attempts", CtxNumber 3)] else [])))
  /\ same_rows (db w) (db w')
  /\ length (filter is_subscription_creation (calls_since w w'))
     = (if retryable violation then 3 else 1)%nat.
Proof.
  intros Ht Hcust Hmap Hsub Hff w' violation.
  pose proof (fun w0 (D : db w0 = db w) (E : env w0 = env w) =>
                checkoutCompleted_recorded_run event w0 customer mapping sub Ht
                  (eq_ind_r (fun d => customer_of _ d = _) Hcust D)
                  (eq_ind_r (fun d => plan_mapping_of _ _ d = _) Hmap D)
                  (eq_ind_r (fun d => subscription_of _ d = _) Hsub D)
                  (fault_free_env w w0 E Hff)) as Hrun.
  unfold w', outcome, after, Webhook.handleCheckoutCompleted.
  destruct (retryable violation) eqn:Hr.
  - pose proof (Hrun w eq_refl eq_refl) as H1.
    unfold ErrorHandler.withRetry.
    erewrite (attempts_exhaust (Webhook.checkoutCompleted event) 3 2000 3 1 w);
      [| |reflexivity].
    2:{ eapply fails_again; [exact H1 | exact Hr | reflexivity|].
        eapply fails_again; [apply Hrun; reflexivity | exact Hr | reflexivity|].
        eapply fails_once; [apply Hrun; reflexivity | exact Hr]. }
    unfold after, ErrorHandler.backoff, ErrorHandler.Math_random,
      ErrorHandler.setTimeout, bind.
    cbn [fst snd db env trace sleeps randoms_drawn invocations].
    split; [reflexivity|]. split; [now repeat split|].
    rewrite <- !app_assoc, calls_since_mkWorld. reflexivity.
  - rewrite (withRetry_not_retryable _ 3 2000 w _ _ ltac:(lia)
               (Hrun w eq_refl eq_refl) Hr).
    cbn [fst snd db]. split; [reflexivity|]. split; [now repeat split|].
    rewrite calls_since_mkWorld. reflexivity.
Qed.

Lemma checkout_of_recorded_subscription_witness :
  let event :=
    mkEvent "evt_8" "checkout.session.completed"
      (mkEventObject (Some "cs_8") (Some "cus_1") (Some "sub_1")
         (Some "complete") None None (Some "price_pro_monthly") None) 0 in
  let w := sample_world "active" "active" in
  let w' := after (Webhook.handleCheckoutCompleted event) w in
  outcome (Webhook.handleCheckoutCompleted event) w
  = Thrown (IsAppError
              (mkAppError "duplicate key value violates unique constraint"
                 SYSTEM MEDIUM false []))
  /\ same_rows (db w) (db w')
  /\ length (filter is_subscription_creation (calls_since w w')) = 1%nat.
Proof.
  intros event w.
  apply (checkout_of_recorded_subscription event w sample_customer
           (mkPlanMapping "stripe" "price_pro_monthly" "pro-hosting-plan")
           sample_subscription eq_refl eq_refl eq_refl eq_refl
           (fun n => eq_refl)).
Defined.

(** ** Checkout of a customer without an email *)

Lemma handleCheckoutCompleted_no_email_run (event : StripeWebhookEvent)
    (w : World) (name_ : option string) :
  event_type event = "checkout.session.completed" ->
  customer_of (obj_customer (data_object event)) (db w) = None ->
  Js.truthy (checkout_email event) = false ->
  stripe_customer (env w) (obj_customer (data_object event)) = (None, name_) ->
  Js.truthy name_ = false ->
  fault_free w ->
  Webhook.handleCheckoutCompleted event w
  = (Thrown (IsAppError
               (mkAppError "Cannot read properties of null (reading 'split')"
                  SYSTEM MEDIUM false [])),
     mkWorld (db w) (env w)
       (trace w ++ [DbFindCustomerByStripeId (obj_customer (data_object event));
                    StripeGetCustomer (obj_customer (data_object event))])
       (sleeps w) (randoms_drawn w) (S (invocations w))).
Proof.
  intros Ht Hcust Hemail Hstripe Hname Hff.
  unfold Webhook.handleCheckoutCompleted.
  refine (withRetry_not_retryable _ 3 2000 w _
            (PlainError "Cannot read properties of null (reading 'split')")
            _ _ _); [lia | | reflexivity].
  rewrite invoke_run.
  unfold checkout_email in Hemail.
  unfold Webhook.checkoutCompleted, StripeService.extractSubscriptionData.
  unfold StripeService.extractCustomerData in *.
  rewrite Ht in *.
  cbn [String.eqb Ascii.eqb Bool.eqb stripePriceId cd_stripeCustomerId
       stripeSubscriptionId cd_email cd_name] in *.
  unfold DatabaseService.findCustomerByStripeId.
  erewrite bind_returned; [|apply query_run, Hff].
  unfold customer_of in Hcust. cbn [db]. rewrite Hcust.
  rewrite Hemail. cbn [negb].
  unfold StripeService.getCustomer.
  erewrite bind_thrown; [reflexivity|].
  erewrite bind_returned;
    [|erewrite bind_returned; [|apply remote_run, Hff]; reflexivity].
  cbn [record env]. rewrite Hstripe. cbn [fst snd cd_name cd_email].
  unfold Webhook.name_or_local_part, Js.or_else. rewrite Hname. cbn [Js.truthy].
  unfold bind, throw, record.
  cbn [db env trace sleeps randoms_drawn invocations].
  now rewrite <- app_assoc.
Qed.

(** X12.  A completed checkout of a customer that the database does not
    know, when neither the event nor Stripe has an email or a name for the
    customer and every request is answered: the handler fails on the first
    attempt with the TypeError of [split] read from a missing email, before
    any request to the provisioning system.  The message of the TypeError
    names what the email was, [null] or [undefined]; the embedding has one
    value for the two, so that the statement leaves open which of the two
    messages it is.  Whichever it is, [POST] answers 500 with that message
    and not retryable, the ledger entry of the event ends as the system
    error with that message, and customers and subscriptions are as
    before. *)
Theorem checkout_without_email (request : Request) (w : World)
    (event : StripeWebhookEvent) (name_ : option string) :
  accepted request w event ->
  event_type event = "checkout.session.completed" ->
  has_row (Webhook.idempotencyKey event) (db w) = false ->
  customer_of (obj_customer (data_object event)) (db w) = None ->
  Js.truthy (checkout_email event) = false ->
  stripe_customer (env w) (obj_customer (data_object event)) = (None, name_) ->
  Js.truthy name_ = false ->
  fault_free w ->
  let w' := after (Webhook.POST request) w in
  exists msg,
    (msg = "Cannot read properties of null (reading 'split')"
     \/ msg = "Cannot read properties of undefined (reading 'split')")
    /\ outcome (Webhook.POST request) w
       = Returned (mkResponse 500
                     (FailureBody "Webhook processing failed" msg false))
    /\ webhook_logs (db w')
       = (webhook_logs (db w)
          ++ [DatabaseService.with_log_status Error
                (Some ("system: " ++ msg)%string)
                (received_row event (db w))])%list
    /\ existsb is_provisioning_action (calls_since w w') = false
    /\ customers (db w') = customers (db w)
    /\ subscriptions (db w') = subscriptions (db w).
Proof.
  intros Hacc Ht Hfresh Hcust Hemail Hstripe Hname Hff w'.
  pose proof (POST_fresh_run request w event Hacc Hfresh Hff) as H.
  cbv zeta beta in H.
  match type of H with
  | forall o w2, Webhook.dispatch event ?s = _ -> _ =>
    pose proof (handleCheckoutCompleted_no_email_run event s name_ Ht Hcust
                  Hemail Hstripe Hname Hff) as Hrun
  end.
  exists "Cannot read properties of null (reading 'split')".
  split; [now left|].
  unfold w', outcome, after.
  rewrite (H _ _ ltac:(unfold Webhook.dispatch; rewrite Ht; exact Hrun)).
  cbn [fst snd]. split; [reflexivity|]. split; [reflexivity|].
  split; [|split; reflexivity].
  unfold calls_since. cbn [trace set_db record].
  rewrite <- !app_assoc, skipn_app, skipn_all, Nat.sub_diag. reflexivity.
Qed.

Lemma checkout_without_email_witness :
  let w := anonymous_world in
  exists msg,
    outcome (Webhook.POST sample_request) w
    = Returned (mkResponse 500
                  (FailureBody "Webhook processing failed" msg false))
    /\ webhook_logs (db (after (Webhook.POST sample_request) w))
       = [mkWebhookLog 1 "stripe_evt_6" "stripe" "checkout.session.completed"
            Error anonymous_checkout (Some ("system: " ++ msg)%string)].
Proof.
  intros w.
  assert (accepted sample_request w anonymous_checkout) as Hacc.
  { exists "good". repeat split; discriminate. }
  destruct (checkout_without_email sample_request w anonymous_checkout None
              Hacc eq_refl eq_refl eq_refl eq_refl eq_refl eq_refl
              (fun n => eq_refl))
    as (msg & _ & O & L & _).
  exists msg. split; [exact O | exact L].
Defined.

(** ** The sync path, whatever fails *)

Lemma syncSingleSubscription_requests (id : string) :
  Steps (Continues is_sync_request)
    (SubscriptionManager.syncSingleSubscription id).
Proof.
  unfold SubscriptionManager.syncSingleSubscription. unfold_services.
  follow (Stepwise_Continues is_sync_request) allowed_request.
Qed.

Lemma syncSingleSubscription_database (id : string) (w : World) :
  let w' := after (SubscriptionManager.syncSingleSubscription id) w in
  db w' = db w
  \/ exists sub t,
       subscription_of (Some id) (db w) = Some sub
       /\ SubscriptionManager.targetStatus (stripe_subscription_status (env w) id)
          = Some t
       /\ subscription_status sub <> t
       /\ db w' = set_subscriptions
                    (subscriptions_with (subscription_pk sub) t (db w)) (db w).
Proof.
  unfold SubscriptionManager.syncSingleSubscription, after. unfold_run.
  destruct (faults (env w) (length (trace w))); cbn [snd fst]; [now left|].
  cbn [db record].
  destruct (subscription_of (Some id) (db w)) as [sub|] eqn:Hsub;
    pose proof Hsub as Hsub'; unfold subscription_of in Hsub'; rewrite Hsub';
    [|now left].
  cbn [env trace record].
  destruct (faults _ _); cbn [snd fst]; [now left|].
  cbn [env trace record].
  destruct (faults _ _); cbn [snd fst]; [now left|].
  cbn [env trace record].
  destruct (SubscriptionManager.targetStatus _) as [t|] eqn:Ht; [|now left].
  destruct (negb (String.eqb (enhance_subscription_status _ _) _));
    destruct (String.eqb (status_name (subscription_status sub)) (status_name t))
      eqn:Hst;
    cbn [negb]; destruct t;
    repeat (cbn [env trace record db snd fst set_db];
            try match goal with
                | |- context [match faults ?e ?n with _ => _ end] =>
                  destruct (faults e n)
                end);
    try (now left);
    right; exists sub; eexists; (split; [reflexivity|]);
    (split; [reflexivity|]); (split; [|reflexivity]);
    intros E; rewrite E in Hst; discriminate Hst.
Qed.

Lemma subscriptions_with_rows (id : Z) (t : SubscriptionStatus)
    (d : Database) :
  Forall2 (fun s s' => if subscription_pk s =? id
                       then subscription_status s' = t
                            /\ keeps_ids_and_plan s s'
                       else s' = s)
    (subscriptions d) (subscriptions_with id t d).
Proof.
  unfold subscriptions_with.
  induction (subscriptions d) as [|s l IH]; constructor; [|exact IH].
  destruct (subscription_pk s =? id); [now repeat split | reflexivity].
Qed.

(** X13.  Whatever fails, one run of [syncSingleSubscription] calls the
    services at most five times, with calls of the sync path only, and never
    goes through [withRetry]; and it either leaves the database as it is, or
    it has found the subscription, Stripe reports a status whose target is
    not the status of the row, and the row with the primary key of that
    subscription now has the target as its status, with its ids and its
    plan as before, while every other row of the four tables is as before.
    (A call to the provisioning system is one request of the embedding: the
    attempts and the pauses of [makeRequest] are inside it, and nothing is
    said of them here.  Nor is anything said of the timestamp [updated_at],
    which the update sets too and the embedding does not keep.) *)
Theorem sync_changes_one_status (id : string) (w : World) :
  let w' := after (SubscriptionManager.syncSingleSubscription id) w in
  forallb is_sync_request (calls_since w w') = true
  /\ (length (calls_since w w') <= 5)%nat
  /\ invocations w' = invocations w
  /\ (db w' = db w
      \/ exists sub t,
           subscription_of (Some id) (db w) = Some sub
           /\ SubscriptionManager.targetStatus
                (stripe_subscription_status (env w) id) = Some t
           /\ subscription_status sub <> t
           /\ customers (db w') = customers (db w)
           /\ plan_mappings (db w') = plan_mappings (db w)
           /\ webhook_logs (db w') = webhook_logs (db w)
           /\ Forall2 (fun s s' =>
                         if subscription_pk s =? subscription_pk sub
                         then subscription_status s' = t
                              /\ keeps_ids_and_plan s s'
                         else s' = s)
                (subscriptions (db w)) (subscriptions (db w'))).
Proof.
  intros w'.
  split; [apply (Continues_calls_since _ _ _
                   (syncSingleSubscription_requests id w))|].
  split; [|split].
  3:{ destruct (syncSingleSubscription_database id w)
        as [H|(sub & t & Hsub & Ht & Hne & H)]; [now left|].
      right. exists sub, t. fold w' in H. rewrite H.
      cbn [customers plan_mappings webhook_logs subscriptions
           set_subscriptions].
      repeat (split; [assumption || reflexivity|]).
      apply subscriptions_with_rows. }
  all: unfold w', SubscriptionManager.syncSingleSubscription, after, calls_since;
    unfold_run;
    repeat (cbn [env trace record db snd fst set_db sleeps invocations];
            try match goal with
                | |- context [match faults ?e ?n with _ => _ end] =>
                  destruct (faults e n)
                | |- context [match DatabaseService.first_row ?l with _ => _ end] =>
                  destruct (DatabaseService.first_row l)
                | |- context [match SubscriptionManager.targetStatus ?s with _ => _ end] =>
                  destruct (SubscriptionManager.targetStatus s) as [[]|]
                | |- context [if negb ?b then _ else _] => destruct b; cbn [negb]
                end);
    try reflexivity;
    rewrite <- ?app_assoc, skipn_app, skipn_all, Nat.sub_diag;
    cbn [skipn app length]; lia.
Qed.

(** ** The sync path, run twice *)

Lemma status_name_refl (t : SubscriptionStatus) :
  String.eqb (status_name t) (status_name t) = true.
Proof. apply String.eqb_refl. Qed.

(** X14.  The sync path settles: when every request is answered, a run of
    [syncSingleSubscription] for a subscription that the database knows
    returns, and a second run right after it makes no write to the
    database. *)
Theorem sync_settles (id : string) (w : World) (sub : Subscription) :
  subscription_of (Some id) (db w) = Some sub ->
  fault_free w ->
  let sync := SubscriptionManager.syncSingleSubscription id in
  let w1 := after sync w in
  let w2 := after sync w1 in
  outcome sync w = Returned tt
  /\ outcome sync w1 = Returned tt
  /\ db w2 = db w1
  /\ existsb is_record_write (calls_since w1 w2) = false.
Proof.
  intros Hsub Hff sync w1 w2.
  destruct (Spec.target (stripe_subscription_status (env w) id)) as [t|] eqn:Ht.
  - pose proof (syncSingleSubscription_run id w t sub Hsub Ht Hff) as H1.
    cbv zeta in H1.
    assert (env w1 = env w) as He by (unfold w1, sync, after; now rewrite H1).
    assert (exists sub1, subscription_of (Some id) (db w1) = Some sub1
                         /\ subscription_status sub1 = t) as (sub1 & Hsub1 & Hst).
    { unfold w1, sync, after. rewrite H1. cbn [snd db].
      destruct (String.eqb (status_name (subscription_status sub)) (status_name t))
        eqn:E; cbn [negb].
      - exists sub. split; [assumption|]. now apply status_name_injective.
      - exists (DatabaseService.with_status t sub).
        split; [now apply subscription_of_after_update | reflexivity]. }
    assert (fault_free w1) as Hff1 by (now apply (fault_free_env w)).
    assert (Spec.target (stripe_subscription_status (env w1) id) = Some t)
      as Ht1 by (now rewrite He).
    pose proof (syncSingleSubscription_run id w1 t sub1 Hsub1 Ht1 Hff1) as H2.
    cbv zeta in H2. rewrite Hst, status_name_refl in H2. cbn [negb] in H2.
    split; [unfold outcome, sync; now rewrite H1|].
    split; [unfold outcome, sync; now rewrite H2|].
    unfold w2, sync, after. rewrite H2. cbn [snd db].
    split; [reflexivity|]. rewrite calls_since_mkWorld.
    match goal with |- context [negb ?b] => destruct b end; destruct t;
      reflexivity.
  - pose proof (syncSingleSubscription_outside_table id w Ht) as [[He _] Hdb].
    fold sync in He, Hdb. fold w1 in He, Hdb. unfold SameDatabase in Hdb.
    assert (fault_free w1) as Hff1 by (now apply (fault_free_env w)).
    assert (Spec.target (stripe_subscription_status (env w1) id) = None)
      as Ht1 by (now rewrite He).
    pose proof (syncSingleSubscription_outside_table id w1 Ht1) as [Hc1 Hdb1].
    fold sync in Hc1, Hdb1. fold w2 in Hc1, Hdb1.
    split; [now apply (syncSingleSubscription_skips id w sub)|].
    split; [apply (syncSingleSubscription_skips id w1 sub); trivial;
            now rewrite Hdb|].
    split; [exact Hdb1|].
    apply Continues_calls_since in Hc1 as [_ Hread].
    induction (calls_since w1 w2) as [|c l IH]; [reflexivity|].
    cbn in Hread |- *. apply andb_true_iff in Hread as [Hc Hl].
    rewrite (IH Hl), orb_false_r. unfold is_read in Hc.
    apply andb_true_iff in Hc as [Hc _]. apply andb_true_iff in Hc as [_ Hc].
    now apply negb_true_iff in Hc.
Qed.

Lemma sync_settles_witness :
  let sync := SubscriptionManager.syncSingleSubscription "sub_1" in
  let w := sample_world "past_due" "active" in
  let w1 := after sync w in
  let w2 := after sync w1 in
  outcome sync w = Returned tt
  /\ outcome sync w1 = Returned tt
  /\ db w2 = db w1
  /\ existsb is_record_write (calls_since w1 w2) = false.
Proof.
  intros sync w.
  apply (sync_settles "sub_1" w sample_subscription eq_refl (fun n => eq_refl)).
Defined.

(** ** A change of plan *)

Lemma subscription_of_on_plan (id : option string) (d : Database)
    (sub : Subscription) (plan : string) :
  subscription_of id d = Some sub ->
  subscription_of id
    (set_subscriptions (subscriptions_on_plan (subscription_pk sub) plan d) d)
  = Some (DatabaseService.with_plan plan sub).
Proof.
  unfold subscription_of, subscriptions_on_plan, DatabaseService.first_row.
  cbn [subscriptions set_subscriptions].
  induction (subscriptions d) as [|s l IH]; [discriminate|].
  cbn [filter map].
  destruct (DatabaseService.sql_eq (stripe_subscription_id s) id) eqn:E.
  - cbn [hd_error]. intros [= ->]. rewrite Z.eqb_refl. cbn. now rewrite E.
  - intros H. destruct (subscription_pk s =? subscription_pk sub);
      cbn [DatabaseService.with_plan stripe_subscription_id]; rewrite E; auto.
Qed.

Lemma changePlan_run (id price : string) (w : World) (sub : Subscription)
    (mapping : PlanMapping) :
  subscription_of (Some id) (db w) = Some sub ->
  plan_mapping_of "stripe" (Some price) (db w) = Some mapping ->
  answers w ->
  faults (env w) (length (trace w) + 1) = None ->
  faults (env w) (length (trace w) + 2) = None ->
  let plan := mapped_enhance_plan_id mapping in
  let calls :=
    [DbFindSubscriptionByStripeId (Some id);
     DbFindPlanMapping "stripe" (Some price);
     EnhanceChangeSubscriptionPlan (enhance_subscription_id sub) plan;
     DbUpdateSubscriptionPlan (subscription_pk sub) plan] in
  SubscriptionManager.changePlan id price w
  = match faults (env w) (length (trace w) + 3) with
    | None =>
      (Returned tt,
       mkWorld (set_subscriptions
                  (subscriptions_on_plan (subscription_pk sub) plan (db w))
                  (db w))
         (env w) (trace w ++ calls) (sleeps w) (randoms_drawn w)
         (invocations w))
    | Some e =>
      (Thrown e,
       mkWorld (db w) (env w) (trace w ++ calls) (sleeps w) (randoms_drawn w)
         (invocations w))
    end.
Proof.
  intros Hsub Hmap H0 H1 H2 plan calls.
  unfold SubscriptionManager.changePlan. unfold_run.
  unfold subscription_of in Hsub. unfold plan_mapping_of in Hmap.
  unfold answers in H0.
  cbn [env db trace record set_db]. rewrite H0, Hsub.
  cbn [env db trace record set_db]. rewrite length_app. cbn [length].
  rewrite H1, Hmap.
  cbn [env db trace record set_db]. rewrite !length_app. cbn [length].
  rewrite <- Nat.add_assoc. cbn [Nat.add]. rewrite H2.
  cbn [env db trace record set_db]. rewrite !length_app. cbn [length].
  rewrite <- !Nat.add_assoc. cbn [Nat.add].
  destruct (faults _ _); unfold record, set_db, subscriptions_on_plan, calls;
    cbn [db env trace sleeps randoms_drawn invocations];
    rewrite <- !app_assoc; reflexivity.
Qed.

Lemma subscriptions_on_plan_rows (id : Z) (plan : string) (d : Database) :
  Forall2 (fun s s' => if subscription_pk s =? id
                       then plan_changed plan s s' else s' = s)
    (subscriptions d) (subscriptions_on_plan id plan d).
Proof.
  unfold subscriptions_on_plan.
  induction (subscriptions d) as [|s l IH]; constructor; [|exact IH].
  destruct (subscription_pk s =? id); [now repeat split | reflexivity].
Qed.

(** X15.  A change of plan for a subscription that the database knows, to a
    price that has a plan mapping, asks the provisioning system first and
    writes to the database last.  When every request is answered, the
    lookup of the subscription afterwards finds a row on the mapped plan,
    with the ids, the customer and the status of the row that was found
    before; in the table, the rows with the primary key of that
    subscription are on the mapped plan, with their other columns as
    before, and every other row is as it was, as are the other three
    tables.  When only the last request fails, the error is thrown as it
    is, and the provisioning system has been asked for the new plan while
    the database still has the old one.  (Nothing is said of the timestamp
    [updated_at], which the update sets too and the embedding does not
    keep.) *)
Theorem changePlan_is_not_atomic (id price : string) (w : World)
    (sub : Subscription) (mapping : PlanMapping) :
  subscription_of (Some id) (db w) = Some sub ->
  plan_mapping_of "stripe" (Some price) (db w) = Some mapping ->
  answers w ->
  faults (env w) (length (trace w) + 1) = None ->
  faults (env w) (length (trace w) + 2) = None ->
  let change := SubscriptionManager.changePlan id price in
  let w' := after change w in
  let plan := mapped_enhance_plan_id mapping in
  calls_since w w'
  = [DbFindSubscriptionByStripeId (Some id);
     DbFindPlanMapping "stripe" (Some price);
     EnhanceChangeSubscriptionPlan (enhance_subscription_id sub) plan;
     DbUpdateSubscriptionPlan (subscription_pk sub) plan]
  /\ (faults (env w) (length (trace w) + 3) = None ->
      outcome change w = Returned tt
      /\ (exists sub', subscription_of (Some id) (db w') = Some sub'
                       /\ plan_changed plan sub sub')
      /\ Forall2 (fun s s' => if subscription_pk s =? subscription_pk sub
                              then plan_changed plan s s' else s' = s)
           (subscriptions (db w)) (subscriptions (db w'))
      /\ customers (db w') = customers (db w)
      /\ plan_mappings (db w') = plan_mappings (db w)
      /\ webhook_logs (db w') = webhook_logs (db w))
  /\ (forall e,
        faults (env w) (length (trace w) + 3) = Some e ->
        outcome change w = Thrown e /\ db w' = db w).
Proof.
  intros Hsub Hmap H0 H1 H2 change w' plan.
  pose proof (changePlan_run id price w sub mapping Hsub Hmap H0 H1 H2) as H.
  cbv zeta in H. unfold w', change, outcome, after. rewrite H.
  destruct (faults (env w) (length (trace w) + 3)) as [e|]; cbn [fst snd db].
  - split; [apply calls_since_mkWorld|]. split; [discriminate|].
    intros e' [= <-]. now split.
  - split; [apply calls_since_mkWorld|]. split; [|discriminate].
    intros _. split; [reflexivity|]. split.
    + exists (DatabaseService.with_plan plan sub).
      split; [now apply subscription_of_on_plan | now repeat split].
    + cbn [customers plan_mappings webhook_logs subscriptions
           set_subscriptions].
      split; [apply subscriptions_on_plan_rows | now repeat split].
Qed.

Lemma changePlan_is_not_atomic_witness :
  let lost := PlainError "Connection terminated unexpectedly" in
  let w :=
    mkWorld sample_database
      (sample_environment "active" "active" (failing_at 3 lost)) [] [] 0 0 in
  let change := SubscriptionManager.changePlan "sub_1" "price_basic_monthly" in
  calls_since w (after change w)
  = [DbFindSubscriptionByStripeId (Some "sub_1");
     DbFindPlanMapping "stripe" (Some "price_basic_monthly");
     EnhanceChangeSubscriptionPlan "enh_sub_1" "basic-hosting-plan";
     DbUpdateSubscriptionPlan 1 "basic-hosting-plan"]
  /\ outcome change w = Thrown lost
  /\ db (after change w) = db w.
Proof.
  intros lost w change.
  destruct (changePlan_is_not_atomic "sub_1" "price_basic_monthly" w
              sample_subscription
              (mkPlanMapping "stripe" "price_basic_monthly" "basic-hosting-plan")
              eq_refl eq_refl eq_refl eq_refl eq_refl)
    as (C & _ & F).
  split; [exact C | exact (F lost eq_refl)].
Defined.

(** ** Rows that have just been inserted *)

Lemma filter_none {A} (f g : A -> bool) (l : list A) :
  existsb g l = false -> (forall a, f a = true -> g a = true) ->
  filter f l = [].
Proof.
  intros Hg Hfg. induction l as [|a l IH]; [reflexivity|].
  cbn in Hg |- *. apply orb_false_iff in Hg as [Ha Hl].
  destruct (f a) eqn:E; [apply Hfg in E; congruence | now apply IH].
Qed.

Lemma first_row_of_new {A} (f g : A -> bool) (l : list A) (row : A) :
  existsb g l = false -> (forall a, f a = true -> g a = true) ->
  f row = true ->
  DatabaseService.first_row (filter f (l ++ [row])) = Some row.
Proof.
  intros Hg Hfg Hrow.
  rewrite filter_app, (filter_none f g l Hg Hfg). cbn. now rewrite Hrow.
Qed.

Lemma statement_returns {A} (c : Call)
    (run : Database -> option (A * Database)) (w w1 : World) (a : A) :
  statement c run w = (Returned a, w1) ->
  exists d, run (db w) = Some (a, d) /\ db w1 = d.
Proof.
  unfold statement, request. destruct (faults _ _); [discriminate|].
  cbn [db record]. destruct (run (db w)) as [[a' d]|]; [|discriminate].
  intros [= -> <-]. eauto.
Qed.

(** X16.  A row that an insertion has returned is the row that the lookup
    by its Stripe id finds afterwards, and before the insertion that lookup
    found nothing: a subscription, a customer, and likewise the ledger
    entry of an idempotency key. *)
Theorem inserted_rows_are_found :
  (forall customerId enhanceId stripeId plan st w row w1,
     DatabaseService.createSubscription customerId enhanceId (Some stripeId)
       plan st w = (Returned row, w1) ->
     subscription_of (Some stripeId) (db w) = None
     /\ subscription_of (Some stripeId) (db w1) = Some row
     /\ row = mkSubscription (subscriptions_seq (db w)) customerId enhanceId
                (Some stripeId) plan st)
  /\
  (forall enhanceId stripeId email_ name_ w row w1,
     DatabaseService.createCustomer enhanceId (Some stripeId) email_ name_ w
     = (Returned row, w1) ->
     customer_of (Some stripeId) (db w) = None
     /\ customer_of (Some stripeId) (db w1) = Some row
     /\ Some (email row) = email_)
  /\
  (forall key source_ eventType payload st w row w1,
     DatabaseService.logWebhook key source_ eventType payload st w
     = (Returned row, w1) ->
     has_row key (db w) = false
     /\ rows_for key (db w1) = [row]).
Proof.
  split; [|split].
  - intros customerId enhanceId stripeId plan st w row w1 H.
    apply statement_returns in H as (d & Hrun & ->).
    destruct (existsb _ (customers (db w)) && negb _) eqn:Hc; [|discriminate].
    injection Hrun as <- <-.
    apply andb_true_iff in Hc as [_ Hc]. apply negb_true_iff in Hc.
    unfold subscription_of. cbn [subscriptions add_subscription].
    split; [|split; [|reflexivity]].
    + erewrite filter_none; [reflexivity | exact Hc|].
      intros s E. cbn beta. now rewrite E, orb_true_r.
    + eapply first_row_of_new; [exact Hc | |].
      * intros s E. cbn beta. now rewrite E, orb_true_r.
      * cbn. apply String.eqb_refl.
  - intros enhanceId stripeId email_ name_ w row w1 H.
    apply statement_returns in H as (d & Hrun & ->).
    destruct email_ as [e|]; [|discriminate].
    destruct (DatabaseService.email_check e && negb _) eqn:Hc; [|discriminate].
    injection Hrun as <- <-.
    apply andb_true_iff in Hc as [_ Hc]. apply negb_true_iff in Hc.
    unfold customer_of. cbn [customers add_customer].
    split; [|split; [|reflexivity]].
    + erewrite filter_none; [reflexivity | exact Hc|].
      intros c E. cbn beta. apply andb_true_iff in E as [E _].
      now rewrite E, orb_true_r.
    + eapply first_row_of_new; [exact Hc | |].
      * intros c E. cbn beta. apply andb_true_iff in E as [E _].
        now rewrite E, orb_true_r.
      * cbn. now rewrite String.eqb_refl.
  - intros key source_ eventType payload st w row w1 H.
    apply statement_returns in H as (d & Hrun & ->).
    destruct (existsb _ (webhook_logs (db w))) eqn:Hc; [discriminate|].
    injection Hrun as <- <-.
    split; [exact Hc|].
    unfold rows_for. cbn [webhook_logs add_webhook_log].
    rewrite filter_app, (filter_none _ _ _ Hc (fun r E => E)).
    cbn. now rewrite String.eqb_refl.
Qed.

Lemma inserted_rows_are_found_witness :
  let w := sample_world "active" "active" in
  let insertion :=
    DatabaseService.createSubscription 1 "enh_sub_2" (Some "sub_2")
      "basic-hosting-plan" Active in
  subscription_of (Some "sub_2") (db w) = None
  /\ subscription_of (Some "sub_2") (db (after insertion w))
     = Some (mkSubscription 2 1 "enh_sub_2" (Some "sub_2") "basic-hosting-plan"
               Active).
Proof.
  intros w insertion.
  destruct (proj1 inserted_rows_are_found 1 "enh_sub_2" "sub_2"
              "basic-hosting-plan" Active w _ _ eq_refl)
    as (B & A & _).
  split; [exact B | exact A].
Defined.

(** ** The classifier, beyond its keyword table *)

(** X17.  The classifier is idempotent: an error that is already classified
    passes through as it is, and the context of the second call is
    dropped.  Of a plain error it keeps the message and takes the context;
    it never rates one critical; it rates it retryable exactly when it
    rates it high, which is exactly for the categories external API and
    database; and it does not look at the letter case of the message. *)
Theorem categorizeError_invariants :
  (forall error ctx ctx',
     ErrorHandler.categorizeError
       (IsAppError (ErrorHandler.categorizeError error ctx)) ctx'
     = ErrorHandler.categorizeError error ctx)
  /\
  (forall msg ctx,
     let e := ErrorHandler.categorizeError (PlainError msg) ctx in
     message e = msg /\ context e = ctx
     /\ severity e <> CRITICAL
     /\ (retryable e = true <-> severity e = HIGH)
     /\ (retryable e = true <-> category e = EXTERNAL_API \/ category e = DATABASE))
  /\
  (forall msg msg' ctx,
     Js.toLowerCase msg = Js.toLowerCase msg' ->
     let e := ErrorHandler.categorizeError (PlainError msg) ctx in
     let e' := ErrorHandler.categorizeError (PlainError msg') ctx in
     category e = category e' /\ severity e = severity e'
     /\ retryable e = retryable e').
Proof.
  split; [|split].
  - reflexivity.
  - intros msg ctx. cbn.
    repeat match goal with
           | |- context [if ?c then _ else _] => destruct c
           end; cbn;
      (split; [reflexivity|]); (split; [reflexivity|]);
      (split; [discriminate|]);
      (split; [split; congruence|]);
      (split; [intros; auto; discriminate | intros [H|H]; congruence]).
  - intros msg msg' ctx E. cbn. rewrite E.
    repeat match goal with
           | |- context [if ?c then _ else _] => destruct c
           end; cbn; auto.
Qed.

Lemma categorizeError_invariants_witness :
  let e := ErrorHandler.categorizeError (PlainError "Fetch failed") [] in
  let e' := ErrorHandler.categorizeError (PlainError "FETCH FAILED") [] in
  category e = category e' /\ severity e = severity e'
  /\ retryable e = retryable e'.
Proof.
  intros e e'.
  apply (proj2 (proj2 categorizeError_invariants) "Fetch failed" "FETCH FAILED" []).
  reflexivity.
Defined.

(** ** The sweep over all subscriptions *)

(** The lookup by a NULL id finds no row, whatever the table holds. *)
Lemma null_lookup_finds_nothing (d : Database) : subscription_of None d = None.
Proof.
  unfold subscription_of.
  rewrite (filter_none _ (fun _ => false) (subscriptions d)); [reflexivity | |].
  - induction (subscriptions d) as [|s l IH]; [reflexivity | exact IH].
  - intros s. unfold DatabaseService.sql_eq.
    now destruct (stripe_subscription_id s).
Qed.

Lemma sweep_returns (subscriptions : list Subscription) :
  forall syncedCount errors_ w,
  exists n added,
    outcome (SubscriptionSweep.sweep subscriptions syncedCount errors_) w
    = Returned ((syncedCount + n)%nat, (errors_ ++ added)%list)
    /\ (n + length added = length subscriptions)%nat.
Proof.
  induction subscriptions as [|s rest IH]; intros syncedCount errors_ w.
  - exists 0%nat, []. rewrite Nat.add_0_r, app_nil_r. now split.
  - unfold outcome. cbn [SubscriptionSweep.sweep]. unfold bind at 1, try_catch.
    unfold bind at 1.
    destruct (SubscriptionSweep.syncListed s w) as [[[]|e] w1]; unfold ret.
    + destruct (IH (S syncedCount) errors_ w1) as (n & added & H & L).
      exists (S n), added. unfold outcome in H. rewrite H.
      split; [do 2 f_equal; lia | cbn; lia].
    + match goal with
      | |- context [SubscriptionSweep.sweep rest syncedCount ?l w1] =>
        destruct (IH syncedCount l w1) as (n & added & H & L)
      end.
      exists n. eexists (_ :: added). unfold outcome in H. rewrite H.
      split; [now rewrite <- app_assoc | cbn; lia].
Qed.

(** The two variables of the loop count the runs: one more synced for each
    run that returns, one more message for each run that throws. *)
Lemma sweep_counts (subscriptions : list Subscription) :
  forall syncedCount errors_ w,
    outcome (SubscriptionSweep.sweep subscriptions syncedCount errors_) w
    = Returned
        ((syncedCount
          + length (filter has_returned (sweep_runs subscriptions w)))%nat,
         (errors_ ++ failure_messages (sweep_runs subscriptions w))%list).
Proof.
  induction subscriptions as [|s rest IH]; intros syncedCount errors_ w.
  - cbn. now rewrite Nat.add_0_r, app_nil_r.
  - unfold outcome. cbn [SubscriptionSweep.sweep sweep_runs].
    unfold bind at 1, try_catch. unfold bind at 1.
    destruct (SubscriptionSweep.syncListed s w) as [[[]|e] w1]; unfold ret.
    + specialize (IH (S syncedCount) errors_ w1). unfold outcome in IH.
      rewrite IH. cbn [filter has_returned snd length failure_messages
                       flat_map fst app].
      now rewrite Nat.add_succ_r.
    + match goal with
      | |- context [SubscriptionSweep.sweep rest syncedCount ?l w1] =>
        specialize (IH syncedCount l w1)
      end.
      unfold outcome in IH. rewrite IH.
      cbn [filter has_returned snd length failure_messages flat_map fst app].
      now rewrite <- app_assoc.
Qed.

Lemma sweep_runs_subscriptions (subscriptions : list Subscription) :
  forall w, map fst (sweep_runs subscriptions w) = subscriptions.
Proof.
  induction subscriptions as [|s rest IH]; intros w; [reflexivity|].
  cbn [sweep_runs]. destruct (SubscriptionSweep.syncListed s w) as [o w1].
  cbn [map fst]. now rewrite IH.
Qed.

Lemma failure_messages_count (runs : list (Subscription * Outcome unit)) :
  (length (filter has_returned runs) + length (failure_messages runs)
   = length runs)%nat
  /\ (length (failure_messages runs) = 0%nat
      <-> forallb has_returned runs = true).
Proof.
  induction runs as [|[s [[]|e]] runs [IH1 IH2]]; [now split| |];
    cbn [filter has_returned snd fst failure_messages flat_map forallb
         length app andb].
  - fold (failure_messages runs). split; [lia | exact IH2].
  - fold (failure_messages runs). split; [lia|]. split; [lia | discriminate].
Qed.

(** X18.  [syncAllSubscriptions] never throws.  When the listing fails, the
    result reports the failure and nothing else has been done.  When the
    listing returns, the subscriptions are synchronised one after the
    other, each of them once and in the order of the listing, and the
    result counts exactly what happened: the number of synced
    subscriptions is the number of runs that returned, the errors are the
    messages of the runs that threw, each naming its subscription and its
    error, in the order of the runs, and [success] is true exactly when
    every run returned. *)
Theorem syncAllSubscriptions_never_throws
    (getAllActiveSubscriptions : M (list Subscription)) (w : World) :
  let syncAll := SubscriptionSweep.syncAllSubscriptions getAllActiveSubscriptions in
  match getAllActiveSubscriptions w with
  | (Returned subscriptions, w1) =>
    let runs := sweep_runs subscriptions w1 in
    let syncedCount := length (filter has_returned runs) in
    let result := SubscriptionSweep.summary syncedCount (failure_messages runs) in
    outcome syncAll w = Returned result
    /\ map fst runs = subscriptions
    /\ (syncedCount + length (failure_messages runs)
        = length subscriptions)%nat
    /\ (success result = true <-> forallb has_returned runs = true)
    /\ errors result
       = (if forallb has_returned runs then None
          else Some (failure_messages runs))
  | (Thrown error, w1) =>
    syncAll w
    = (Returned (mkSyncResult false ("Sync failed: " ++ show_error error)
                   (Some [JsMore.error_message error])), w1)
  end.
Proof.
  intros syncAll.
  destruct (getAllActiveSubscriptions w) as [[subscriptions|error] w1] eqn:E;
    unfold syncAll, SubscriptionSweep.syncAllSubscriptions, outcome;
    unfold try_catch, bind; rewrite E; [|reflexivity].
  cbv zeta. set (runs := sweep_runs subscriptions w1).
  pose proof (sweep_counts subscriptions 0 [] w1) as H. unfold outcome in H.
  fold runs in H.
  destruct (SubscriptionSweep.sweep subscriptions 0 [] w1) as [o w2].
  cbn [fst] in H. subst o. cbn [fst snd ret app Nat.add].
  destruct (failure_messages_count runs) as [C Z].
  split; [reflexivity|].
  split; [apply sweep_runs_subscriptions|].
  split.
  { rewrite C, <- (sweep_runs_subscriptions subscriptions w1).
    fold runs. now rewrite length_map. }
  cbn [success errors SubscriptionSweep.summary].
  split.
  - rewrite Nat.eqb_eq. exact Z.
  - destruct (length (failure_messages runs)) as [|n] eqn:L.
    + now rewrite (proj1 Z eq_refl).
    + destruct (forallb has_returned runs); [|reflexivity].
      now specialize (proj2 Z eq_refl).
Qed.

(** A sweep over the sample database when the provisioning system answers
    the status request with 503: the one listed subscription is counted as
    failed, not as synced. *)
Example sweep_counts_a_failure :
  let unavailable :=
    PlainError "Enhance API error (503): Service Unavailable" in
  let w :=
    mkWorld sample_database
      (sample_environment "active" "active" (failing_at 2 unavailable))
      [] [] 0 0 in
  outcome (SubscriptionSweep.syncAllSubscriptions sample_listing) w
  = Returned
      (mkSyncResult false "Synced 0 subscriptions with 1 errors"
         (Some ["Failed to sync subscription sub_1: Error: Enhance API error (503): Service Unavailable"])).
Proof. reflexivity. Qed.

Lemma calls_since_trans (a b : Call -> bool) (w w1 w2 : World) :
  Continues a w w1 -> Continues b w1 w2 ->
  calls_since w w2 = (calls_since w w1 ++ calls_since w1 w2)%list.
Proof.
  intros H1 H2.
  apply Continues_calls_since in H1 as [T1 _], H2 as [T2 _].
  apply calls_since_app. now rewrite T2, T1 at 1; rewrite <- app_assoc.
Qed.

Lemma syncListed_requests (subscription : Subscription) :
  Steps (Continues is_sync_request) (SubscriptionSweep.syncListed subscription).
Proof.
  unfold SubscriptionSweep.syncListed.
  destruct (stripe_subscription_id subscription);
    [apply syncSingleSubscription_requests|].
  unfold_services.
  follow (Stepwise_Continues is_sync_request) allowed_request.
Qed.

(** One run of the sync makes one lookup, for the subscription that it is
    given, whatever fails. *)
Lemma syncListed_lookup (subscription : Subscription) (w : World) :
  filter is_subscription_lookup
    (calls_since w (after (SubscriptionSweep.syncListed subscription) w))
  = [DbFindSubscriptionByStripeId (stripe_subscription_id subscription)].
Proof.
  unfold SubscriptionSweep.syncListed, after, calls_since.
  destruct (stripe_subscription_id subscription) as [id|];
    unfold SubscriptionManager.syncSingleSubscription; unfold_run;
    repeat (cbn [env trace record db snd fst set_db sleeps invocations];
            try match goal with
                | |- context [match faults ?e ?n with _ => _ end] =>
                  destruct (faults e n)
                | |- context [match DatabaseService.first_row ?l with _ => _ end] =>
                  destruct (DatabaseService.first_row l)
                | |- context [match SubscriptionManager.targetStatus ?s with _ => _ end] =>
                  destruct (SubscriptionManager.targetStatus s) as [[]|]
                | |- context [if negb ?b then _ else _] => destruct b; cbn [negb]
                end);
    rewrite <- ?app_assoc, skipn_app, skipn_all, Nat.sub_diag;
    reflexivity.
Qed.

Lemma sweep_requests (subscriptions : list Subscription) :
  forall syncedCount errors_,
    Steps (Continues is_sync_request)
      (SubscriptionSweep.sweep subscriptions syncedCount errors_).
Proof.
  induction subscriptions as [|s rest IH]; intros syncedCount errors_;
    cbn [SubscriptionSweep.sweep].
  - apply (Steps_ret _ (Stepwise_Continues _)).
  - apply (Steps_bind _ (Stepwise_Continues _)).
    + apply (Steps_try_catch _ (Stepwise_Continues _)).
      * apply (Steps_bind _ (Stepwise_Continues _));
          [apply syncListed_requests
          | intros _; apply (Steps_ret _ (Stepwise_Continues _))].
      * intros e. apply (Steps_ret _ (Stepwise_Continues _)).
    + intros [msg|]; apply IH.
Qed.

(** X19.  Whatever fails, the sweep looks up every listed subscription
    exactly once and in the listed order, so a failure for one subscription
    does not keep the sweep from the next; and every request of the sweep
    is a request of the sync path. *)
Theorem sweep_visits_every_subscription (subscriptions : list Subscription)
    (syncedCount : nat) (errors_ : list string) (w : World) :
  let w' := after (SubscriptionSweep.sweep subscriptions syncedCount errors_) w in
  filter is_subscription_lookup (calls_since w w')
  = map (fun s => DbFindSubscriptionByStripeId (stripe_subscription_id s))
      subscriptions
  /\ forallb is_sync_request (calls_since w w') = true.
Proof.
  intros w'. split;
    [|apply (Continues_calls_since _ _ _
               (sweep_requests subscriptions syncedCount errors_ w))].
  unfold w'. clear w'. revert syncedCount errors_ w.
  induction subscriptions as [|s rest IH]; intros syncedCount errors_ w.
  - unfold after, calls_since. cbn. now rewrite skipn_all.
  - pose proof (syncListed_requests s w) as Hc.
    pose proof (syncListed_lookup s w) as Hl.
    unfold after in *. cbn [SubscriptionSweep.sweep].
    unfold bind at 1, try_catch. unfold bind at 1.
    destruct (SubscriptionSweep.syncListed s w) as [[[]|e] w1];
      cbn [snd] in *; unfold ret;
      match goal with
      | |- context [SubscriptionSweep.sweep rest ?n ?l w1] =>
        pose proof (sweep_requests rest n l w1) as Hrest;
        specialize (IH n l w1); unfold after in Hrest, IH;
        rewrite (calls_since_trans _ _ w w1 _ Hc Hrest)
      end;
      rewrite filter_app, Hl; cbn [app map]; f_equal; exact IH.
Qed.

(** ** The admin endpoint for manual synchronization *)

Lemma syncAllSubscriptions_returns
    (getAllActiveSubscriptions : M (list Subscription)) (w : World) :
  exists result,
    outcome (SubscriptionSweep.syncAllSubscriptions getAllActiveSubscriptions) w
    = Returned result.
Proof.
  unfold SubscriptionSweep.syncAllSubscriptions, outcome, try_catch, bind.
  destruct (getAllActiveSubscriptions w) as [[subscriptions|error] w1];
    [|eexists; reflexivity].
  destruct (sweep_returns subscriptions 0 [] w1) as (n & added & H & _).
  unfold outcome in H.
  destruct (SubscriptionSweep.sweep subscriptions 0 [] w1) as [o w2].
  cbn [fst] in H. subst o. eexists; reflexivity.
Qed.

(** X20.  The sync endpoint never throws and answers 200, 401 or 500.  A
    request whose authorization header is not exactly "Bearer " followed by
    the configured key is answered 401 before anything is done; when no key
    is configured, the key reads "undefined".  An authorized request
    without a subscription id is answered 200 whatever the sweep runs
    into. *)
Theorem admin_sync_endpoint (ADMIN_API_KEY : option string)
    (getAllActiveSubscriptions : M (list Subscription))
    (request : AdminRequest) (w : World) :
  let post := AdminSync.POST ADMIN_API_KEY getAllActiveSubscriptions request in
  let expected := "Bearer " ++ Js.show ADMIN_API_KEY in
  (authorization request <> Some expected ->
   post w = (Returned (mkAdminResponse 401 UnauthorizedBody), w))
  /\
  (authorization request = Some expected ->
   forall subscriptionId,
     request_json request = inr subscriptionId ->
     Js.truthy subscriptionId = false ->
     exists result,
       outcome post w = Returned (mkAdminResponse 200 (SweepBody result)))
  /\
  (exists response,
     outcome post w = Returned response
     /\ In (admin_status response) [200; 401; 500]).
Proof.
  intros post expected. unfold post, AdminSync.POST. fold expected.
  split; [|split].
  - intros Hne. unfold try_catch.
    destruct (authorization request) as [[|c h]|]; try reflexivity.
    cbn [Js.truthy Js.show negb orb].
    destruct (String.eqb_spec (String c h) expected) as [E|_];
      [congruence | reflexivity].
  - intros -> subscriptionId -> Hfalsy.
    cbn [Js.truthy Js.show expected append negb orb].
    rewrite String.eqb_refl, Hfalsy. cbn [negb].
    destruct (syncAllSubscriptions_returns getAllActiveSubscriptions w)
      as [result H].
    exists result. unfold outcome, try_catch, bind in *.
    destruct (SubscriptionSweep.syncAllSubscriptions _ w) as [o w1].
    cbn [fst] in H. now subst o.
  - unfold outcome, try_catch.
    match goal with
    | |- context [let (o, w') := ?m w in _] => destruct (m w) as [[r|e] w1] eqn:E
    end; cbn [fst]; [|eexists; split; [reflexivity | cbn; auto]].
    exists r. split; [reflexivity|].
    destruct (negb _ || negb _);
      [injection E as <- _; cbn; auto|].
    destruct (request_json request) as [err|sid]; [discriminate|].
    destruct (Js.truthy sid).
    + apply bind_returns in E as (_ & w2 & _ & E). injection E as <- _.
      cbn; auto.
    + apply bind_returns in E as (res & w2 & _ & E). injection E as <- _.
      cbn; auto.
Qed.

Lemma admin_sync_endpoint_witness :
  let request := mkAdminRequest (Some "Bearer undefined") (inr None) in
  exists result,
    outcome (AdminSync.POST None sample_listing request)
      (sample_world "past_due" "active")
    = Returned (mkAdminResponse 200 (SweepBody result)).
Proof.
  intros request.
  apply (proj1 (proj2 (admin_sync_endpoint None sample_listing request
                         (sample_world "past_due" "active")))
           eq_refl None eq_refl eq_refl).
Defined.

(** ** The request loop of the Enhance client *)

Lemma attemptRequest_bookkeeping {T} (fetch : M HttpResponse)
    (json : string -> M T) :
  Steps SameBookkeeping fetch ->
  (forall text, Steps SameBookkeeping (json text)) ->
  Steps SameBookkeeping (EnhanceHttp.attemptRequest fetch json).
Proof.
  intros Hf Hj w. unfold after, EnhanceHttp.attemptRequest, bind.
  specialize (Hf w). unfold after in Hf.
  destruct (fetch w) as [[response|e] w1]; cbn [snd] in *; [|assumption].
  destruct (negb (ok response)); [assumption|].
  specialize (Hj (response_text response) w1). unfold after in Hj.
  destruct Hf as (E & S & R & I), Hj as (E' & S' & R' & I').
  repeat split; congruence.
Qed.

Lemma requestLoop_run {T} (fetch : M HttpResponse) (json : string -> M T)
    (retries : Z) :
  Steps SameBookkeeping fetch ->
  (forall text, Steps SameBookkeeping (json text)) ->
  forall remaining attempt w,
    remaining <> 0%nat ->
    attempt + Z.of_nat remaining = retries + 1 ->
    exists k,
      (k < remaining)%nat
      /\ sleeps (after (EnhanceHttp.requestLoop fetch json retries remaining
                          attempt) w)
         = (sleeps w
            ++ map (fun i => inject_Z (2 ^ (attempt + Z.of_nat i) * 1000))
                 (seq 0 k))%list
      /\ match EnhanceHttp.requestLoop fetch json retries remaining attempt w
         with
         | (Returned v, w') =>
           exists w0, EnhanceHttp.attemptRequest fetch json w0 = (Returned v, w')
         | (Thrown e, w') =>
           S k = remaining
           /\ exists w0,
                EnhanceHttp.attemptRequest fetch json w0 = (Thrown e, w')
         end.
Proof.
  intros Hf Hj. pose proof (attemptRequest_bookkeeping fetch json Hf Hj) as Hb.
  induction remaining as [|remaining IH]; intros attempt w Hpos Hsum;
    [congruence|].
  unfold after. cbn [EnhanceHttp.requestLoop]. unfold try_catch.
  pose proof (Hb w) as (_ & Hs & _). unfold after in Hs.
  destruct (EnhanceHttp.attemptRequest fetch json w) as [[v|e] w1] eqn:Hop;
    cbn [snd] in *.
  - exists 0%nat. cbn [seq map]. rewrite app_nil_r.
    split; [lia|]. split; [assumption | eauto].
  - destruct (Z.eqb_spec attempt retries) as [Heq|Hne].
    + exists 0%nat. cbn [seq map]. rewrite app_nil_r. unfold throw. cbn [snd].
      split; [lia|]. split; [assumption|]. split; [lia | eauto].
    + unfold bind, ErrorHandler.setTimeout.
      match goal with
      | |- context [EnhanceHttp.requestLoop _ _ _ _ _ ?w2] =>
        destruct (IH (attempt + 1) w2) as (k & Hk & Hsl & Hout); [lia | lia |]
      end.
      unfold after in Hsl. cbn [sleeps] in Hsl.
      exists (S k). split; [lia|]. split.
      * rewrite Hsl, Hs, <- app_assoc. f_equal. cbn [seq map app].
        rewrite Z.add_0_r. f_equal.
        rewrite <- seq_shift, map_map. apply map_ext. intros i.
        do 3 f_equal. lia.
      * destruct (EnhanceHttp.requestLoop _ _ _ _ _ _) as [[v|e'] w'];
          [exact Hout|]. destruct Hout as [Hlast Hraw]. split; [lia | exact Hraw].
Qed.

(** X21.  [makeRequest] retries every failure alike, a response that is not
    ok as well as a failed fetch.  With a positive number of attempts it
    sleeps 2000, 4000, ... milliseconds between two attempts, it returns
    what an attempt returned, and it throws only after the last attempt,
    and then the error of that attempt as it is.  With no attempt allowed
    it fails at once with "All retry attempts failed". *)
Theorem makeRequest_retries {T} (fetch : M HttpResponse) (json : string -> M T)
    (retries : Z) (w : World) :
  Steps SameBookkeeping fetch ->
  (forall text, Steps SameBookkeeping (json text)) ->
  let run := EnhanceHttp.makeRequest fetch json retries in
  (0 < retries ->
   exists k,
     (k < Z.to_nat retries)%nat
     /\ delays_since w (after run w)
        = map (fun i => inject_Z (2 ^ Z.of_nat (S i) * 1000)) (seq 0 k)
     /\ match run w with
        | (Returned v, w') =>
          exists w0, EnhanceHttp.attemptRequest fetch json w0 = (Returned v, w')
        | (Thrown e, w') =>
          S k = Z.to_nat retries
          /\ exists w0,
               EnhanceHttp.attemptRequest fetch json w0 = (Thrown e, w')
        end)
  /\
  (retries <= 0 ->
   run w = (Thrown (PlainError "All retry attempts failed"), w)).
Proof.
  intros Hf Hj run. unfold run, EnhanceHttp.makeRequest. split; intros H.
  - destruct (requestLoop_run fetch json retries Hf Hj (Z.to_nat retries) 1 w)
      as (k & Hk & Hs & Hout); [lia | lia |].
    exists k. split; [assumption|]. split; [|assumption].
    rewrite (delays_since_app _ _ _ Hs). apply map_ext. intros i.
    do 3 f_equal. lia.
  - now replace (Z.to_nat retries) with 0%nat by lia.
Qed.

Lemma makeRequest_retries_witness :
  let fetch : M HttpResponse :=
    ret (mkHttpResponse false 503 "Service Unavailable") in
  let run := EnhanceHttp.makeRequest fetch (fun text => ret text) 3 in
  let w := sample_world "active" "active" in
  exists k,
    (k < Z.to_nat 3)%nat
    /\ delays_since w (after run w)
       = map (fun i => inject_Z (2 ^ Z.of_nat (S i) * 1000)) (seq 0 k)
    /\ match run w with
       | (Returned v, w') =>
         exists w0,
           EnhanceHttp.attemptRequest fetch (fun text => ret text) w0
           = (Returned v, w')
       | (Thrown e, w') =>
         S k = Z.to_nat 3
         /\ exists w0,
              EnhanceHttp.attemptRequest fetch (fun text => ret text) w0
              = (Thrown e, w')
       end.
Proof.
  intros fetch run w.
  apply (proj1 (makeRequest_retries fetch (fun text => ret text) 3 w
                  (fun w0 => conj eq_refl (conj eq_refl (conj eq_refl eq_refl)))
                  (fun text w0 =>
                     conj eq_refl (conj eq_refl (conj eq_refl eq_refl))))).
  reflexivity.
Defined.

Example makeRequest_gives_up_on_503 :
  let fetch : M HttpResponse :=
    ret (mkHttpResponse false 503 "Service Unavailable") in
  let run := EnhanceHttp.makeRequest fetch (fun text => ret text) 3 in
  let w := sample_world "active" "active" in
  outcome run w
  = Thrown (PlainError "Enhance API error (503): Service Unavailable")
  /\ delays_since w (after run w) = [inject_Z 2000; inject_Z 4000].
Proof. split; reflexivity. Qed.

(** ** The password generator *)

Lemma get_In (s : string) (n : nat) (c : ascii) :
  String.get n s = Some c -> In c (list_ascii_of_string s).
Proof.
  revert n. induction s as [|a s IH]; intros n; [discriminate|].
  destruct n as [|n]; cbn.
  - intros [= ->]. now left.
  - intros H. right. eapply IH, H.
Qed.

Lemma get_in_range (s : string) (n : nat) :
  (n < String.length s)%nat -> exists c, String.get n s = Some c.
Proof.
  revert n. induction s as [|a s IH]; intros n; cbn; [lia|].
  destruct n as [|n]; [eauto|]. intros H. apply IH. lia.
Qed.

Lemma length_append (a b : string) :
  String.length (a ++ b) = (String.length a + String.length b)%nat.
Proof. induction a as [|c a IH]; cbn; congruence. Qed.

Lemma list_ascii_of_append (a b : string) :
  list_ascii_of_string (a ++ b)
  = (list_ascii_of_string a ++ list_ascii_of_string b)%list.
Proof. induction a as [|c a IH]; cbn; congruence. Qed.

Lemma append_empty (a : string) : a ++ "" = a.
Proof. induction a as [|c a IH]; cbn; congruence. Qed.

Lemma append_character (a b : string) (c : ascii) :
  (a ++ String c "") ++ b = a ++ String c b.
Proof. induction a as [|x a IH]; cbn; congruence. Qed.

(** A random number in [[0, 1)] picks a character of the character set. *)
Lemma random_character (r : Q) :
  (0 <= r /\ r < 1)%Q ->
  exists c,
    JsMore.charAt EnhanceHttp.charset
      (JsMore.Math_floor
         (r * inject_Z (Z.of_nat (String.length EnhanceHttp.charset))))
    = String c ""
    /\ In c (list_ascii_of_string EnhanceHttp.charset).
Proof.
  intros [H0 H1].
  change (Z.of_nat (String.length EnhanceHttp.charset)) with 70.
  set (i := JsMore.Math_floor (r * inject_Z 70)).
  assert (0 <= i < 70) as [Hlo Hhi].
  { unfold i, JsMore.Math_floor. split.
    - change 0 with (Qround.Qfloor 0). apply Qround.Qfloor_resp_le.
      change (inject_Z 70) with (70 # 1)%Q. nra.
    - pose proof (Qround.Qfloor_le (r * inject_Z 70)) as Hle.
      assert (inject_Z (Qround.Qfloor (r * inject_Z 70)) < inject_Z 70)%Q as Hlt.
      { eapply Qle_lt_trans; [exact Hle|].
        change (inject_Z 70) with (70 # 1)%Q. nra. }
      now rewrite <- Zlt_Qlt in Hlt. }
  unfold JsMore.charAt. destruct (Z.ltb_spec i 0) as [Hneg|_]; [lia|].
  destruct (get_in_range EnhanceHttp.charset (Z.to_nat i)) as [c Hc].
  { change (String.length EnhanceHttp.charset) with 70%nat. lia. }
  rewrite Hc. exists c. split; [reflexivity|]. eapply get_In, Hc.
Qed.

Lemma passwordLoop_run (remaining : nat) :
  forall password w,
    random_in_unit_interval w ->
    exists suffix,
      EnhanceHttp.passwordLoop remaining password w
      = (Returned (password ++ suffix),
         mkWorld (db w) (env w) (trace w) (sleeps w)
           (randoms_drawn w + remaining) (invocations w))
      /\ String.length suffix = remaining
      /\ Forall (fun c => In c (list_ascii_of_string EnhanceHttp.charset))
           (list_ascii_of_string suffix).
Proof.
  induction remaining as [|remaining IH]; intros password w Hrand.
  - exists "". cbn [EnhanceHttp.passwordLoop]. unfold ret.
    rewrite Nat.add_0_r. split; [|split; [reflexivity | constructor]].
    rewrite append_empty. now destruct w.
  - cbn [EnhanceHttp.passwordLoop]. unfold bind, ErrorHandler.Math_random.
    destruct (random_character (random (env w) (randoms_drawn w)) (Hrand _))
      as (c & -> & Hin).
    match goal with
    | |- context [EnhanceHttp.passwordLoop remaining ?p ?w1] =>
      destruct (IH p w1) as (suffix & Hrun & Hlen & Hall); [exact Hrand|]
    end.
    exists (String c suffix). rewrite Hrun.
    cbn [db env trace sleeps randoms_drawn invocations].
    split; [|split].
    + rewrite append_character. do 2 f_equal. lia.
    + cbn. now rewrite Hlen.
    + cbn. constructor; assumption.
Qed.

(** X22.  With random numbers in [[0, 1)], [generateSecurePassword] returns
    a password of exactly 16 characters, each of them from the 70
    characters of the character set, after exactly 16 draws; it makes no
    request and changes nothing else. *)
Theorem generateSecurePassword_shape (w : World) :
  random_in_unit_interval w ->
  exists password,
    EnhanceHttp.generateSecurePassword w
    = (Returned password,
       mkWorld (db w) (env w) (trace w) (sleeps w) (randoms_drawn w + 16)
         (invocations w))
    /\ String.length password = 16%nat
    /\ Forall (fun c => In c (list_ascii_of_string EnhanceHttp.charset))
         (list_ascii_of_string password).
Proof.
  intros Hrand. unfold EnhanceHttp.generateSecurePassword.
  destruct (passwordLoop_run 16 "" w Hrand) as (suffix & Hrun & Hlen & Hall).
  exists suffix. auto.
Qed.

Lemma generateSecurePassword_shape_witness :
  exists password,
    outcome EnhanceHttp.generateSecurePassword (sample_world "active" "active")
    = Returned password
    /\ String.length password = 16%nat.
Proof.
  destruct (generateSecurePassword_shape (sample_world "active" "active"))
    as (password & Hrun & Hlen & _).
  - intros n. cbn. split; [discriminate | reflexivity].
  - exists password. unfold outcome. rewrite Hrun. now split.
Defined.

(** ** The health check *)

(** X23.  The health check answers 503 exactly when a probe fails: the
    database is not reachable, Enhance is not connected, or one of the two
    Stripe variables is not set.  Slow answers only degrade the status, and
    a degraded system still answers 200.  The status is healthy exactly when
    every probe passes and is fast. *)
Theorem health_check_status (p : Probes) :
  let http := fst (HealthCheck.GET p) in
  let overall := snd (HealthCheck.GET p) in
  (http = 503 <->
   database_connected p = false \/ enhance_connected p = false
   \/ hasSecretKey p = false \/ hasWebhookSecret p = false)
  /\ (http = 200 \/ http = 503)
  /\ (overall = unhealthy <-> http = 503)
  /\ (overall = healthy <->
      database_connected p = true /\ database_responseTime p < 1000
      /\ enhance_connected p = true /\ enhance_responseTime p < 2000
      /\ hasSecretKey p = true /\ hasWebhookSecret p = true).
Proof.
  destruct p as [dc dt ec et sk ws].
  unfold HealthCheck.GET, HealthCheck.checkDatabaseHealth,
    HealthCheck.checkEnhanceHealth, HealthCheck.checkStripeHealth.
  cbn [database_connected database_responseTime enhance_connected
       enhance_responseTime hasSecretKey hasWebhookSecret].
  destruct dc, ec, sk, ws;
    destruct (Z.ltb_spec dt 1000), (Z.ltb_spec et 2000); cbn;
    repeat split; intros; try discriminate; try lia; auto;
    try (intuition (try discriminate; try lia; auto; fail)).
Qed.

(** ** A retry repeats the whole operation *)

(** X24.  When the insertion of the subscription row fails with a retryable
    error in the checkout of a known customer, and every other request is
    answered, the retry runs the whole operation again: the handler returns
    after two attempts and one pause, it has created two subscriptions in
    the provisioning system, and the one row that it has inserted carries
    the id of the second. *)
Theorem checkout_retry_provisions_again (event : StripeWebhookEvent)
    (w : World) (customer : Customer) (mapping : PlanMapping) (e : JsError) :
  event_type event = "checkout.session.completed" ->
  customer_of (obj_customer (data_object event)) (db w) = Some customer ->
  plan_mapping_of "stripe" (line_items_price (data_object event)) (db w)
  = Some mapping ->
  let n := length (trace w) in
  faults (env w) (n + 3) = Some e ->
  (forall m, m <> (n + 3)%nat -> faults (env w) m = None) ->
  retryable (ErrorHandler.categorizeError e []) = true ->
  let first := enhance_new_id (env w) (n + 3) in
  let second := enhance_new_id (env w) (n + 7) in
  let stripeId := obj_subscription (data_object event) in
  subscription_ids_free second stripeId (db w) = true ->
  let w' := after (Webhook.handleCheckoutCompleted event) w in
  outcome (Webhook.handleCheckoutCompleted event) w = Returned tt
  /\ calls_since w w'
     = (known_customer_checkout_calls event customer mapping first
        ++ known_customer_checkout_calls event customer mapping second)%list
  /\ subscriptions (db w')
     = (subscriptions (db w)
        ++ [mkSubscription (subscriptions_seq (db w)) (customer_pk customer)
              second stripeId (mapped_enhance_plan_id mapping) Active])%list
  /\ length (delays_since w w') = 1%nat.
Proof.
  intros Ht Hcust Hmap n Hfault Hnone Hr first second stripeId Hfree w'.
  assert (ErrorHandler.invoke (Webhook.checkoutCompleted event) w
          = (Thrown e,
             mkWorld (db w) (env w)
               (trace w ++ known_customer_checkout_calls event customer mapping
                             first)
               (sleeps w) (randoms_drawn w) (S (invocations w)))) as H1.
  { rewrite invoke_run.
    match goal with
    | |- Webhook.checkoutCompleted event ?w0 = _ =>
      rewrite (checkoutCompleted_known_customer_steps event w0 customer mapping
                 Ht Hcust Hmap)
    end;
      try (unfold answers; cbn [env trace]; apply Hnone; fold n; lia).
    cbn [db env trace sleeps randoms_drawn invocations]. fold n.
    now rewrite Hfault. }
  set (w1 := mkWorld (db w) (env w)
               (trace w ++ known_customer_checkout_calls event customer mapping
                             first)
               (sleeps w) (randoms_drawn w) (S (invocations w))) in *.
  set (w2 := after (ErrorHandler.backoff 2000 1) w1).
  assert (length (trace w2) = (n + 4)%nat) as Hlen.
  { unfold w2, after. rewrite backoff_run. cbn [snd trace w1].
    rewrite length_app. reflexivity. }
  assert (ErrorHandler.invoke (Webhook.checkoutCompleted event) w2
          = (Returned tt,
             mkWorld
               (add_subscription
                  (mkSubscription (subscriptions_seq (db w))
                     (customer_pk customer) second stripeId
                     (mapped_enhance_plan_id mapping) Active) (db w))
               (env w)
               (trace w2 ++ known_customer_checkout_calls event customer mapping
                              second)
               (sleeps w2) (randoms_drawn w2) (S (invocations w2)))) as H2.
  { rewrite invoke_run.
    match goal with
    | |- Webhook.checkoutCompleted event ?w0 = _ =>
      rewrite (checkoutCompleted_known_customer_steps event w0 customer mapping
                 Ht Hcust Hmap)
    end;
      try (unfold answers; cbn [env trace]; rewrite ?Hlen; apply Hnone; lia).
    cbn [db env trace sleeps randoms_drawn invocations]. rewrite Hlen.
    replace (n + 4 + 3)%nat with (n + 7)%nat by lia.
    change (env w2) with (env w). change (db w2) with (db w).
    rewrite (Hnone (n + 7)%nat) by lia.
    fold second. fold stripeId. now rewrite Hfree. }
  assert (Webhook.handleCheckoutCompleted event w
          = (Returned tt,
             mkWorld
               (add_subscription
                  (mkSubscription (subscriptions_seq (db w))
                     (customer_pk customer) second stripeId
                     (mapped_enhance_plan_id mapping) Active) (db w))
               (env w)
               (trace w2 ++ known_customer_checkout_calls event customer mapping
                              second)
               (sleeps w2) (randoms_drawn w2) (S (invocations w2)))) as Hrun.
  { unfold Webhook.handleCheckoutCompleted, ErrorHandler.withRetry.
    apply (attempts_succeed _ 3 2000 tt 1 1 w); [|cbn; lia | reflexivity].
    eapply fails_first; [exact H1 | exact Hr | reflexivity|].
    apply succeeds_now. exact H2. }
  unfold w', outcome, after. rewrite Hrun. cbn [fst snd db subscriptions].
  split; [reflexivity|].
  unfold w2, after. rewrite backoff_run. cbn [snd trace sleeps w1].
  split; [rewrite <- app_assoc; apply calls_since_mkWorld|].
  split; [reflexivity|].
  unfold delays_since. cbn [sleeps].
  now rewrite skipn_app, skipn_all, Nat.sub_diag.
Qed.

Lemma checkout_retry_provisions_again_witness :
  let event := checkout_event "evt_2" "price_basic_monthly" in
  let lost := PlainError "Connection terminated unexpectedly" in
  let w :=
    mkWorld sample_database
      (sample_environment "active" "active" (failing_at 3 lost)) [] [] 0 0 in
  let w' := after (Webhook.handleCheckoutCompleted event) w in
  outcome (Webhook.handleCheckoutCompleted event) w = Returned tt
  /\ filter is_subscription_creation (calls_since w w')
     = [EnhanceCreateSubscription "enh_cus_1" "basic-hosting-plan";
        EnhanceCreateSubscription "enh_cus_1" "basic-hosting-plan"]
  /\ length (subscriptions (db w')) = 2%nat.
Proof.
  intros event lost w.
  destruct (checkout_retry_provisions_again event w sample_customer
              (mkPlanMapping "stripe" "price_basic_monthly" "basic-hosting-plan")
              lost eq_refl eq_refl eq_refl eq_refl)
    as (O & C & S & _).
  - intros m Hm. unfold w, sample_environment, failing_at. cbn [env faults trace length Nat.add].
    cbn [env faults trace length Nat.add] in Hm.
    destruct (Nat.eqb_spec m 3); [contradiction | reflexivity].
  - reflexivity.
  - reflexivity.
  - split; [exact O|]. split; [now rewrite C | now rewrite S].
Defined.

(** ** A failure between recording and processing *)

Lemma statement_fails {A} (c : Call) (run : Database -> option (A * Database))
    (w : World) (e : JsError) :
  faults (env w) (length (trace w)) = Some e ->
  statement c run w = (Thrown e, record c w).
Proof. intros H. unfold statement, request. now rewrite H. Qed.

(** X25.  When the statement that moves a new event's ledger entry to
    processing fails, after the entry has been inserted, no handler runs
    and nothing records the failure: [POST] answers with the failure
    response for that error, and the entry stays as received.  A later
    delivery of the same event is then answered 200 as already processed,
    after the existence check alone. *)
Theorem event_stuck_in_received (request : Request) (w : World)
    (event : StripeWebhookEvent) (e : JsError) :
  accepted request w event ->
  has_row (Webhook.idempotencyKey event) (db w) = false ->
  answers w ->
  faults (env w) (length (trace w) + 1) = None ->
  faults (env w) (length (trace w) + 2) = Some e ->
  let key := Webhook.idempotencyKey event in
  let w1 := after (Webhook.POST request) w in
  outcome (Webhook.POST request) w = Returned (failure_response e w)
  /\ calls_since w w1
     = [DbWebhookExists key; DbLogWebhook key Received;
        DbUpdateWebhookStatus key Processing None]
  /\ webhook_logs (db w1)
     = (webhook_logs (db w) ++ [received_row event (db w)])%list
  /\ (answers w1 ->
      outcome (Webhook.POST request) w1
      = Returned (mkResponse 200 (ReceivedBody (Some "Event already processed")))
      /\ calls_since w1 (after (Webhook.POST request) w1) = [DbWebhookExists key]).
Proof.
  intros Hacc Hfresh H0 H1 H2 key w1. fold key in Hfresh.
  assert (Webhook.POST request w
          = (Returned (failure_response e w),
             mkWorld (add_webhook_log (received_row event (db w)) (db w))
               (env w)
               (trace w ++ [DbWebhookExists key; DbLogWebhook key Received;
                            DbUpdateWebhookStatus key Processing None])
               (sleeps w) (randoms_drawn w) (S (invocations w)))) as Hrun.
  { rewrite (POST_accepted _ _ _ Hacc). unfold try_catch at 1.
    unfold Webhook.processVerified. fold key.
    unfold DatabaseService.webhookExists.
    erewrite bind_returned; [|apply query_run, H0].
    rewrite has_row_filter, Hfresh.
    erewrite bind_returned.
    2:{ apply withRetry_first_try; [lia|]. rewrite invoke_run.
        unfold DatabaseService.logWebhook.
        erewrite bind_returned; [reflexivity|].
        apply statement_run.
        - unfold answers. cbn [env trace record]. rewrite length_app. exact H1.
        - cbn [db record]. unfold has_row in Hfresh. fold key.
          rewrite Hfresh. reflexivity. }
    unfold Webhook.processRecorded. fold key.
    unfold DatabaseService.updateWebhookStatus.
    erewrite bind_thrown.
    2:{ apply statement_fails. unfold set_db, record.
        cbn [db env trace sleeps randoms_drawn invocations].
        rewrite !length_app. cbn [length]. rewrite <- Nat.add_assoc.
        exact H2. }
    rewrite respondToError_run. unfold set_db, record.
    cbn [db env trace sleeps randoms_drawn invocations].
    rewrite <- !app_assoc. reflexivity. }
  unfold w1, outcome, after. rewrite Hrun. cbn [fst snd db].
  split; [reflexivity|]. split; [apply calls_since_mkWorld|].
  split; [reflexivity|].
  intros Ha1.
  match goal with
  | |- context [Webhook.POST request ?w0] => set (w0' := w0) in *
  end.
  assert (accepted request w0' event) as Hacc1 by exact Hacc.
  assert (has_row key (db w0') = true) as Hrow.
  { unfold has_row, w0'. cbn [db webhook_logs add_webhook_log].
    rewrite existsb_app. cbn. fold key.
    now rewrite String.eqb_refl, orb_true_r. }
  destruct (POST_seen request w0' event Hacc1 Hrow) as [Hafter Hout].
  split; [now apply Hout|].
  unfold after in Hafter. rewrite Hafter. unfold calls_since, record.
  cbn [trace]. now rewrite skipn_app, skipn_all, Nat.sub_diag.
Qed.

Lemma event_stuck_in_received_witness :
  let lost := PlainError "Connection terminated unexpectedly" in
  let w :=
    mkWorld sample_database
      (sample_environment "active" "active" (failing_at 2 lost)) [] [] 0 0 in
  let w1 := after (Webhook.POST sample_request) w in
  outcome (Webhook.POST sample_request) w
  = Returned (mkResponse 500
                (FailureBody "Webhook processing failed"
                   "Connection terminated unexpectedly" true))
  /\ map log_status (webhook_logs (db w1)) = [Received]
  /\ outcome (Webhook.POST sample_request) w1
     = Returned (mkResponse 200 (ReceivedBody (Some "Event already processed"))).
Proof.
  intros lost w w1.
  assert (accepted sample_request w
            (subscription_event "evt_1" "customer.subscription.updated" "sub_9"
               "past_due")) as Hacc.
  { exists "good". repeat split; discriminate. }
  destruct (event_stuck_in_received sample_request w _ lost Hacc eq_refl
              eq_refl eq_refl eq_refl)
    as (O & _ & L & R).
  split; [exact O|]. split; [unfold w1; now rewrite L|].
  apply R. reflexivity.
Defined.

(** ** Checkout of a customer that the database does not know *)

Ltac answer_all Hff :=
  repeat (cbn [env db trace record set_db fst snd cd_name cd_email
               cd_stripeCustomerId negb];
          rewrite ?Hff).

(** The checkout operation for a customer that the database does not know,
    when the event carries an email and every request is answered, up to
    the insertion of the customer row: the customer is created in the
    provisioning system first, and then the row is rejected, or it is
    inserted and the operation goes on to the subscription. *)
Lemma checkoutCompleted_new_customer_run (event : StripeWebhookEvent)
    (w : World) (e : string) (mapping : PlanMapping) :
  event_type event = "checkout.session.completed" ->
  customer_of (obj_customer (data_object event)) (db w) = None ->
  checkout_email event = Some e ->
  Js.truthy (Some e) = true ->
  plan_mapping_of "stripe" (line_items_price (data_object event)) (db w)
  = Some mapping ->
  fault_free w ->
  let n := length (trace w) in
  let stripeId := obj_customer (data_object event) in
  let customerEnhanceId := enhance_new_id (env w) (n + 2) in
  let enhanceId := enhance_new_id (env w) (n + 5) in
  let customer :=
    mkCustomer (customers_seq (db w)) customerEnhanceId stripeId e
      (checkout_name event) false in
  let subscription :=
    mkSubscription (subscriptions_seq (db w)) (customers_seq (db w)) enhanceId
      (obj_subscription (data_object event)) (mapped_enhance_plan_id mapping)
      Active in
  let first := new_customer_calls event e customerEnhanceId in
  let second := new_subscription_calls event customerEnhanceId mapping enhanceId in
  Webhook.checkoutCompleted event w
  = if customer_accepted customerEnhanceId stripeId e (db w)
    then
      if subscription_ids_free enhanceId (obj_subscription (data_object event))
           (db w)
      then (Returned tt,
            mkWorld (add_subscription subscription (add_customer customer (db w)))
              (env w) (trace w ++ first ++ second) (sleeps w) (randoms_drawn w)
              (invocations w))
      else (Thrown (constraint_violation (env w)),
            mkWorld (add_customer customer (db w)) (env w)
              (trace w ++ first ++ second) (sleeps w) (randoms_drawn w)
              (invocations w))
    else (Thrown (constraint_violation (env w)),
          mkWorld (db w) (env w) (trace w ++ first) (sleeps w) (randoms_drawn w)
            (invocations w)).
Proof.
  intros Ht Hcust Hemail Htruthy Hmap Hff n stripeId customerEnhanceId enhanceId
    customer subscription first second.
  subst customer. unfold checkout_email in Hemail. unfold checkout_name.
  unfold Webhook.checkoutCompleted, StripeService.extractSubscriptionData.
  unfold StripeService.extractCustomerData in *.
  rewrite Ht in *.
  cbn [String.eqb Ascii.eqb Bool.eqb stripePriceId cd_stripeCustomerId
       stripeSubscriptionId cd_email cd_name] in *.
  rewrite Hemail, Htruthy.
  unfold Webhook.resolvePlanMapping, Webhook.name_or_local_part.
  unfold_run.
  unfold customer_of in Hcust. unfold plan_mapping_of in Hmap.
  unfold fault_free in Hff.
  answer_all Hff. fold stripeId. fold stripeId in Hcust. rewrite Hcust.
  subst n.
  match goal with
  | |- context [if Js.truthy ?x then _ else _] => destruct (Js.truthy x)
  end; answer_all Hff;
    rewrite ?length_app; cbn [length];
    replace (length (trace w) + 1 + 1)%nat with (length (trace w) + 2)%nat
      by lia;
    fold customerEnhanceId;
    unfold customer_accepted;
    (destruct (DatabaseService.email_check e && negb _) eqn:Hok;
     [|answer_all Hff; unfold first, new_customer_calls, record;
       cbn [db env trace sleeps randoms_drawn invocations];
       rewrite <- !app_assoc; reflexivity]);
    answer_all Hff; cbn [plan_mappings add_customer]; rewrite Hmap;
    answer_all Hff;
    rewrite ?length_app; cbn [length];
    replace (length (trace w) + 1 + 1 + 1 + 1 + 1)%nat
      with (length (trace w) + 5)%nat by lia;
    fold enhanceId;
    cbn [customers subscriptions add_customer customers_seq subscriptions_seq
         customer_pk enhance_customer_id mapped_enhance_plan_id];
    rewrite existsb_app; cbn [existsb customer_pk]; rewrite Z.eqb_refl;
    rewrite !orb_true_r; cbn [andb];
    unfold subscription_ids_free;
    (destruct (existsb _ (subscriptions (db w))); cbn [negb];
     answer_all Hff;
     unfold first, second, new_customer_calls, new_subscription_calls,
       subscription, record, set_db;
     cbn [db env trace sleeps randoms_drawn invocations];
     rewrite <- !app_assoc; reflexivity).
Qed.

(** X26.  A completed checkout of a customer that the database does not
    know, when the event carries an email, the price has a plan mapping,
    every request is answered and the constraints of the two tables accept
    the new rows: the handler creates the customer in the provisioning
    system and inserts the customer row, then creates the subscription
    under the new Enhance customer id and the mapped plan and inserts one
    active subscription row for the new customer. *)
Theorem checkout_of_new_customer (event : StripeWebhookEvent) (w : World)
    (e : string) (mapping : PlanMapping) :
  event_type event = "checkout.session.completed" ->
  customer_of (obj_customer (data_object event)) (db w) = None ->
  checkout_email event = Some e ->
  Js.truthy (Some e) = true ->
  plan_mapping_of "stripe" (line_items_price (data_object event)) (db w)
  = Some mapping ->
  fault_free w ->
  let n := length (trace w) in
  let stripeId := obj_customer (data_object event) in
  let customerEnhanceId := enhance_new_id (env w) (n + 2) in
  let enhanceId := enhance_new_id (env w) (n + 5) in
  customer_accepted customerEnhanceId stripeId e (db w) = true ->
  subscription_ids_free enhanceId (obj_subscription (data_object event)) (db w)
  = true ->
  let w' := after (Webhook.handleCheckoutCompleted event) w in
  outcome (Webhook.handleCheckoutCompleted event) w = Returned tt
  /\ calls_since w w'
     = (new_customer_calls event e customerEnhanceId
        ++ new_subscription_calls event customerEnhanceId mapping enhanceId)%list
  /\ customers (db w')
     = (customers (db w)
        ++ [mkCustomer (customers_seq (db w)) customerEnhanceId stripeId e
              (checkout_name event) false])%list
  /\ subscriptions (db w')
     = (subscriptions (db w)
        ++ [mkSubscription (subscriptions_seq (db w)) (customers_seq (db w))
              enhanceId (obj_subscription (data_object event))
              (mapped_enhance_plan_id mapping) Active])%list.
Proof.
  intros Ht Hcust Hemail Htruthy Hmap Hff n stripeId customerEnhanceId enhanceId
    Hcustomer Hsubscription w'.
  assert (exists w1,
             Webhook.handleCheckoutCompleted event w = (Returned tt, w1)
             /\ trace w1
                = (trace w
                   ++ new_customer_calls event e customerEnhanceId
                   ++ new_subscription_calls event customerEnhanceId mapping
                        enhanceId)%list
             /\ customers (db w1)
                = (customers (db w)
                   ++ [mkCustomer (customers_seq (db w)) customerEnhanceId
                         stripeId e (checkout_name event) false])%list
             /\ subscriptions (db w1)
                = (subscriptions (db w)
                   ++ [mkSubscription (subscriptions_seq (db w))
                         (customers_seq (db w)) enhanceId
                         (obj_subscription (data_object event))
                         (mapped_enhance_plan_id mapping) Active])%list)
    as (w1 & Hrun & Htrace & Hc & Hs).
  { eexists. split.
    - unfold Webhook.handleCheckoutCompleted.
      apply withRetry_first_try; [lia|]. rewrite invoke_run.
      match goal with
      | |- Webhook.checkoutCompleted event ?w0 = _ =>
        rewrite (checkoutCompleted_new_customer_run event w0 e mapping Ht Hcust
                   Hemail Htruthy Hmap Hff)
      end.
      cbn [db env trace sleeps randoms_drawn invocations].
      fold n. fold stripeId. fold customerEnhanceId. fold enhanceId.
      rewrite Hcustomer, Hsubscription. reflexivity.
    - cbn [trace db customers subscriptions add_subscription add_customer].
      auto. }
  unfold w', outcome, after. rewrite Hrun. cbn [fst snd].
  split; [reflexivity|]. split; [now apply calls_since_app|]. now split.
Qed.

Lemma checkout_of_new_customer_witness :
  let w' := after (Webhook.handleCheckoutCompleted new_customer_checkout)
              new_customer_world in
  outcome (Webhook.handleCheckoutCompleted new_customer_checkout)
    new_customer_world = Returned tt
  /\ customers (db w')
     = [mkCustomer 1 "enh_new" (Some "cus_7") "bob@example.com" None false]
  /\ subscriptions (db w')
     = [mkSubscription 1 1 "enh_new" (Some "sub_7") "pro-hosting-plan" Active].
Proof.
  destruct (checkout_of_new_customer new_customer_checkout new_customer_world
              "bob@example.com"
              (mkPlanMapping "stripe" "price_pro_monthly" "pro-hosting-plan")
              eq_refl eq_refl eq_refl eq_refl eq_refl (fun n => eq_refl)
              eq_refl eq_refl)
    as (O & _ & C & S).
  split; [exact O|]. split; [exact C | exact S].
Defined.

(** ** Checkout of a customer whose row is soft-deleted *)

Lemma checkoutCompleted_rejected_customer_run (event : StripeWebhookEvent)
    (w : World) (e : string) :
  event_type event = "checkout.session.completed" ->
  customer_of (obj_customer (data_object event)) (db w) = None ->
  checkout_email event = Some e ->
  Js.truthy (Some e) = true ->
  fault_free w ->
  let stripeId := obj_customer (data_object event) in
  let enhanceId := enhance_new_id (env w) (length (trace w) + 2) in
  customer_accepted enhanceId stripeId e (db w) = false ->
  Webhook.checkoutCompleted event w
  = (Thrown (constraint_violation (env w)),
     mkWorld (db w) (env w) (trace w ++ new_customer_calls event e enhanceId)
       (sleeps w) (randoms_drawn w) (invocations w)).
Proof.
  intros Ht Hcust Hemail Htruthy Hff stripeId enhanceId Hrejected.
  unfold checkout_email in Hemail.
  unfold Webhook.checkoutCompleted, StripeService.extractSubscriptionData.
  unfold StripeService.extractCustomerData in *.
  rewrite Ht in *.
  cbn [String.eqb Ascii.eqb Bool.eqb stripePriceId cd_stripeCustomerId
       stripeSubscriptionId cd_email cd_name] in *.
  rewrite Hemail, Htruthy.
  unfold Webhook.resolvePlanMapping, Webhook.name_or_local_part.
  unfold_run.
  unfold customer_of in Hcust. unfold fault_free in Hff.
  answer_all Hff. fold stripeId. fold stripeId in Hcust. rewrite Hcust.
  unfold customer_accepted in Hrejected.
  match goal with
  | |- context [if Js.truthy ?x then _ else _] => destruct (Js.truthy x)
  end; answer_all Hff;
    rewrite ?length_app; cbn [length];
    replace (length (trace w) + 1 + 1)%nat with (length (trace w) + 2)%nat
      by lia;
    fold enhanceId; rewrite Hrejected;
    answer_all Hff; unfold new_customer_calls, record;
    cbn [db env trace sleeps randoms_drawn invocations];
    rewrite <- !app_assoc; reflexivity.
Qed.

(** X27.  A completed checkout of a customer whose row is soft-deleted, when
    the event carries an email, every request is answered and the
    classifier does not take the constraint violation for a retryable
    error: the lookup does not see the deleted row, so the handler creates
    a customer in the provisioning system, and then the unique constraint
    on the Stripe customer id rejects the insertion.  The handler throws
    after this one attempt, the four tables hold the rows that they held
    before, and no subscription has been created. *)
Theorem checkout_of_deleted_customer (event : StripeWebhookEvent) (w : World)
    (e : string) (row : Customer) :
  event_type event = "checkout.session.completed" ->
  In row (customers (db w)) ->
  deleted row = true ->
  DatabaseService.sql_eq (stripe_customer_id row)
    (obj_customer (data_object event)) = true ->
  customer_of (obj_customer (data_object event)) (db w) = None ->
  checkout_email event = Some e ->
  Js.truthy (Some e) = true ->
  fault_free w ->
  retryable (ErrorHandler.categorizeError (constraint_violation (env w)) [])
  = false ->
  let w' := after (Webhook.handleCheckoutCompleted event) w in
  let enhanceId := enhance_new_id (env w) (length (trace w) + 2) in
  outcome (Webhook.handleCheckoutCompleted event) w
  = Thrown (IsAppError
              (ErrorHandler.categorizeError (constraint_violation (env w)) []))
  /\ calls_since w w' = new_customer_calls event e enhanceId
  /\ same_rows (db w) (db w').
Proof.
  intros Ht Hin Hdeleted Hid Hcust Hemail Htruthy Hff Hr w' enhanceId.
  assert (customer_accepted enhanceId (obj_customer (data_object event)) e (db w)
          = false) as Hrejected.
  { unfold customer_accepted. apply andb_false_iff. right.
    apply negb_false_iff, existsb_exists. exists row.
    split; [assumption|]. now rewrite Hid, orb_true_r. }
  assert (Webhook.handleCheckoutCompleted event w
          = (Thrown (IsAppError
                       (ErrorHandler.categorizeError
                          (constraint_violation (env w)) [])),
             mkWorld (db w) (env w)
               (trace w ++ new_customer_calls event e enhanceId)
               (sleeps w) (randoms_drawn w) (S (invocations w)))) as Hrun.
  { unfold Webhook.handleCheckoutCompleted.
    refine (withRetry_not_retryable _ 3 2000 w _ (constraint_violation (env w))
              _ _ Hr); [lia|].
    rewrite invoke_run.
    match goal with
    | |- Webhook.checkoutCompleted event ?w0 = _ =>
      exact (checkoutCompleted_rejected_customer_run event w0 e Ht Hcust Hemail
               Htruthy Hff Hrejected)
    end. }
  unfold w', outcome, after. rewrite Hrun. cbn [fst snd db].
  split; [reflexivity|].
  split; [apply calls_since_mkWorld | now repeat split].
Qed.

Lemma checkout_of_deleted_customer_witness :
  let event := checkout_event "evt_2" "price_basic_monthly" in
  let w := deleted_customer_world in
  let w' := after (Webhook.handleCheckoutCompleted event) w in
  outcome (Webhook.handleCheckoutCompleted event) w
  = Thrown (IsAppError
              (mkAppError "duplicate key value violates unique constraint"
                 SYSTEM MEDIUM false []))
  /\ calls_since w w'
     = [DbFindCustomerByStripeId (Some "cus_1");
        EnhanceCreateCustomer (Some "ada@example.com");
        DbCreateCustomer "enh_new" (Some "cus_1") (Some "ada@example.com")]
  /\ same_rows (db w) (db w').
Proof.
  intros event w.
  apply (checkout_of_deleted_customer event w "ada@example.com"
           (mkCustomer 1 "enh_cus_1" (Some "cus_1") "ada@example.com"
              (Some "Ada") true)
           eq_refl (or_introl eq_refl) eq_refl eq_refl eq_refl eq_refl eq_refl
           (fun n => eq_refl) eq_refl).
Defined.
